(** * JWave-Pro reference-data generators

    A shallow embedding of the two generator scripts
    [scripts/generate_basic_reference.py] and
    [scripts/generate_reference_data.py], and the properties of the
    reference files they write.

    Python floats are IEEE-754 binary64 values; they are modelled with the
    axiom-free [spec_float] of the standard library at precision 53 and
    maximal exponent 1024.  The output directory is a finite map from
    paths to file contents. *)

From Stdlib Require Import ZArith List String Ascii Lia Bool.
From Stdlib Require Import SpecFloat.
From stdpp Require Import base tactics option list strings pretty gmap.

Local Open Scope Z_scope.

(** ** Binary64 arithmetic *)

Module Float64.

Definition prec : Z := 53.
Definition emax : Z := 1024.

Definition f64 : Type := spec_float.

Definition add : f64 -> f64 -> f64 := SFadd prec emax.
Definition sub : f64 -> f64 -> f64 := SFsub prec emax.
Definition mul : f64 -> f64 -> f64 := SFmul prec emax.
Definition div : f64 -> f64 -> f64 := SFdiv prec emax.
Definition sqrt : f64 -> f64 := SFsqrt prec emax.
Definition neg : f64 -> f64 := SFopp.

(** [float(z)] for a Python or numpy integer [z]. *)
Definition of_Z (z : Z) : f64 := binary_normalize prec emax z 0 false.

(** A decimal literal [num * 10^(-scale)], rounded to the nearest
    binary64 value (ties to even), as the Python parser does. *)
Definition of_decimal (num : Z) (scale : positive) : f64 :=
  match num with
  | Z0 => S754_zero false
  | Zpos m => div (S754_finite false m 0) (S754_finite false (10 ^ scale)%positive 0)
  | Zneg m => div (S754_finite true m 0) (S754_finite false (10 ^ scale)%positive 0)
  end.

Definition is_finite (x : f64) : bool :=
  match x with
  | S754_zero _ | S754_finite _ _ _ => true
  | S754_infinity _ | S754_nan => false
  end.

End Float64.

Export Float64.

Declare Scope f64_scope.
Delimit Scope f64_scope with f64.
Infix "+" := Float64.add : f64_scope.
Infix "-" := Float64.sub : f64_scope.
Infix "*" := Float64.mul : f64_scope.
Infix "/" := Float64.div : f64_scope.

(** ** The [.16e] presentation of a number *)

Module Format.

Definition digit_char (d : Z) : ascii := ascii_of_nat (48 + Z.to_nat d).

(** The [n] low-order decimal digits of [v], most significant first. *)
Fixpoint dec_digits (n : nat) (v : Z) : string :=
  match n with
  | O => EmptyString
  | S n' => String (digit_char ((v / 10 ^ Z.of_nat n') mod 10)) (dec_digits n' v)
  end.

Fixpoint ndigits10_aux (fuel : nat) (v : Z) : Z :=
  match fuel with
  | O => 0
  | S fuel' => if v <? 10 then 1 else 1 + ndigits10_aux fuel' (v / 10)
  end.

(** Number of decimal digits of a positive integer. *)
Definition ndigits10 (v : Z) : Z := ndigits10_aux (S (Z.to_nat (Z.log2 v))) v.

(** [10^k <= num / den], for positive [num] and [den]. *)
Definition scaled_ge (num den k : Z) : bool :=
  den * 10 ^ Z.max 0 k <=? num * 10 ^ Z.max 0 (- k).

(** Decimal exponent of the positive rational [num / den]:
    the [k] with [10^k <= num / den < 10^(k+1)]. *)
Definition dec_exponent (num den : Z) : Z :=
  let k0 := ndigits10 num - ndigits10 den in
  if scaled_ge num den k0 then k0 else k0 - 1.

(** Round-half-even of [num / den]. *)
Definition round_half_even (num den : Z) : Z :=
  let q := num / den in
  let r := num mod den in
  if (den <? 2 * r) || ((2 * r =? den) && Z.odd q) then q + 1 else q.

(** The correctly rounded decimal significand with [p + 1] digits and the
    decimal exponent of [m * 2^e]. *)
Definition sci_round (p : Z) (m : positive) (e : Z) : Z * Z :=
  let num := Zpos m * 2 ^ Z.max 0 e in
  let den := 2 ^ Z.max 0 (- e) in
  let k := dec_exponent num den in
  let s := p - k in
  let n := round_half_even (num * 10 ^ Z.max 0 s) (den * 10 ^ Z.max 0 (- s)) in
  if n =? 10 ^ (p + 1) then (10 ^ p, k + 1) else (n, k).

Definition sign_string (s : bool) : string := if s then "-" else "".

(** Exponent field: a sign and at least two digits. *)
Definition exp_string (k : Z) : string :=
  String (if k <? 0 then "-"%char else "+"%char)
         (dec_digits (Nat.max 2 (Z.to_nat (ndigits10 (Z.abs k)))) (Z.abs k)).

Definition mantissa_string (p : nat) (n : Z) : string :=
  String (digit_char ((n / 10 ^ Z.of_nat p) mod 10)) ("." +:+ dec_digits p n).

(** [format(x, '.<p>e')] for a float [x] and a precision [p] of at least
    one digit: the significand correctly rounded to [p + 1] digits, ties
    to even, as the interpreter's conversion does. *)
Definition format_e (p : nat) (x : f64) : string :=
  match x with
  | S754_nan => "nan"
  | S754_infinity s => sign_string s +:+ "inf"
  | S754_zero s => sign_string s +:+ mantissa_string p 0 +:+ "e" +:+ exp_string 0
  | S754_finite s m e =>
      let '(n, k) := sci_round (Z.of_nat p) m e in
      sign_string s +:+ mantissa_string p n +:+ "e" +:+ exp_string k
  end.

End Format.

(** ** Values handed to the serializers *)

(** A real scalar is a float or (for integer numpy arrays) an integer. *)
Inductive scalar : Type :=
| SInt (z : Z)
| SFloat (x : f64).

Definition to_float (v : scalar) : f64 :=
  match v with
  | SInt z => Float64.of_Z z
  | SFloat x => x
  end.

(** [f"{value:.16e}"] *)
Definition format_e16 (v : scalar) : string := Format.format_e 16 (to_float v).

(** [float(v)] returns: for every float, and for an integer whose nearest
    binary64 value (ties to even) is finite.  For an integer beyond that
    range the conversion done by [f"{value:.16e}"] raises [OverflowError],
    where [to_float] has an infinity; statements about arbitrary data are
    therefore made for data that [converts]. *)
Definition converts (v : scalar) : bool :=
  match v with
  | SInt z => Float64.is_finite (Float64.of_Z z)
  | SFloat _ => true
  end.

(** ** The Python run-time model *)

Definition nl : string := String (ascii_of_nat 10) EmptyString.

Inductive exn : Type :=
| ImportError (msg : string)
| Exception (msg : string)
| SystemExit (code : Z).

Inductive result (A : Type) : Type :=
| Ok (a : A)
| Raise (e : exn).
Arguments Ok {A} a.
Arguments Raise {A} e.

(** The observable world of a run: the files of the output directory by
    path, the paths opened for writing (in order), and the lines printed. *)
Record world : Type := World {
  files : gmap string string;
  opened : list string;
  stdout : list string
}.

Definition M (A : Type) : Type := world -> result A * world.

Definition ret {A} (a : A) : M A := fun w => (Ok a, w).

Definition bind {A B} (m : M A) (k : A -> M B) : M B :=
  fun w => match m w with
           | (Ok a, w') => k a w'
           | (Raise e, w') => (Raise e, w')
           end.

Definition raise {A} (e : exn) : M A := fun w => (Raise e, w).

(** [try: m  except ...: ...]: [handler e] is the body of the first
    [except] clause that matches [e], if any; an exception raised by the
    handler itself propagates. *)
Definition try_except {A} (m : M A) (handler : exn -> option (M A)) : M A :=
  fun w => match m w with
           | (Ok a, w') => (Ok a, w')
           | (Raise e, w') =>
               match handler e with
               | Some h => h w'
               | None => (Raise e, w')
               end
           end.

Definition lift {A} (r : result A) : M A := fun w => (r, w).

Declare Scope py_scope.
Delimit Scope py_scope with py.
Notation "x <- m ;; k" := (bind m (fun x => k))
  (at level 100, m at next level, right associativity) : py_scope.
Notation "m ;; k" := (bind m (fun _ => k))
  (at level 100, right associativity) : py_scope.
Bind Scope py_scope with M.
Local Open Scope py_scope.

Fixpoint for_each {A} (xs : list A) (body : A -> M unit) : M unit :=
  match xs with
  | [] => ret tt
  | x :: xs' => body x ;; for_each xs' body
  end.

(** [open(path, 'w')]: create or truncate. *)
Definition open_w (path : string) : M unit :=
  fun w => (Ok tt, {| files := <[path := EmptyString]> (files w);
                      opened := opened w ++ [path];
                      stdout := stdout w |}).

(** [f.write(s)] on the file opened at [path]. *)
Definition f_write (path : string) (s : string) : M unit :=
  fun w => (Ok tt, {| files := alter (fun c => c +:+ s) path (files w);
                      opened := opened w;
                      stdout := stdout w |}).

Definition print (s : string) : M unit :=
  fun w => (Ok tt, {| files := files w; opened := opened w; stdout := stdout w ++ [s] |}).

(** [len(os.listdir(output_dir))] *)
Definition listdir_len : M nat := fun w => (Ok (size (files w)), w).

(** [sys.exit(code)] *)
Definition sys_exit {A} (code : Z) : M A := raise (SystemExit code).

(** [os.path.join(dir, name)] for a relative [name]. *)
Definition path_join (dir name : string) : string := dir +:+ "/" +:+ name.

(** The characters of a file name: any byte but [/] and NUL. *)
Fixpoint name_chars (s : string) : bool :=
  match s with
  | EmptyString => true
  | String c r => negb (Ascii.eqb c "/") && negb (Ascii.eqb c Ascii.zero) && name_chars r
  end.

(** A name of a file of the output directory itself: not empty, neither
    [.] nor [..], of at most 255 bytes, made of [name_chars].  For such a
    name [os.path.join(output_dir, name)] is [path_join output_dir name]
    and names an entry of that directory. *)
Definition plain_name (name : string) : bool :=
  negb (String.eqb name EmptyString) && negb (String.eqb name ".") &&
  negb (String.eqb name "..") && name_chars name && (String.length name <=? 255)%nat.

(** Truth value of the optional [header] argument: [None] and the empty
    string are false. *)
Definition truthy (header : option string) : bool :=
  match header with
  | None => false
  | Some EmptyString => false
  | Some _ => true
  end.

Definition header_text (header : option string) : string := default EmptyString header.

(** What the interpreter does with the outcome of the script body. *)
Record outcome : Type := Outcome {
  final : world;
  exit_status : Z;
  traceback : option exn
}.

Definition run_process (script : M unit) (w : world) : outcome :=
  match script w with
  | (Ok _, w') => {| final := w'; exit_status := 0; traceback := None |}
  | (Raise (SystemExit c), w') => {| final := w'; exit_status := c; traceback := None |}
  | (Raise e, w') => {| final := w'; exit_status := 1; traceback := Some e |}
  end.

Definition initial (dir : gmap string string) : world :=
  {| files := dir; opened := []; stdout := [] |}.

(** [range(lo, lo + 2 * count, 2)] *)
Fixpoint range2 (lo : nat) (count : nat) : list nat :=
  match count with
  | O => []
  | S c => lo :: range2 (2 + lo) c
  end.

(** [xs[i]] *)
Definition index {A} (xs : list A) (i : nat) : result A :=
  match xs !! i with
  | Some x => Ok x
  | None => Raise (Exception "list index out of range")
  end.

(** ** [generate_basic_reference.py] *)

Module Basic.

Definition output_dir : string := "../src/test/resources/testdata".

Definition save_vector (data : list scalar) (filename : string) (header : option string) : M unit :=
  let filepath := path_join output_dir filename in
  open_w filepath ;;
  (if truthy header then f_write filepath ("# " +:+ header_text header +:+ nl) else ret tt) ;;
  for_each data (fun value => f_write filepath (format_e16 value +:+ nl)) ;;
  print ("Generated: " +:+ filename).

Definition lit (z : Z) : f64 := Float64.of_Z z.

Definition signal : list f64 := map lit [1; 2; 3; 4; 5; 6; 7; 8].

Definition sqrt2 : f64 := Float64.sqrt (lit 2).

(** The loop [for i in range(0, len(signal), 2)] of
    [generate_haar_reference], on the lists [approx1] and [detail1]. *)
Fixpoint haar_loop (signal : list f64) (idxs : list nat) (approx1 detail1 : list f64)
  : result (list f64 * list f64) :=
  match idxs with
  | [] => Ok (approx1, detail1)
  | i :: idxs' =>
      match index signal i, index signal (i + 1) with
      | Ok a, Ok b =>
          haar_loop signal idxs' (approx1 ++ [((a + b) / sqrt2)%f64])
                               (detail1 ++ [((a - b) / sqrt2)%f64])
      | Raise e, _ => Raise e
      | _, Raise e => Raise e
      end
  end.

Definition haar_manual (signal : list f64) : result (list f64 * list f64) :=
  haar_loop signal (range2 0 (Nat.div2 (S (length signal)))) [] [].

Definition floats (xs : list f64) : list scalar := map SFloat xs.

Definition generate_haar_reference : M unit :=
  print (nl +:+ "=== Generating Haar Wavelet Reference Data ===") ;;
  c <- lift (haar_manual signal) ;;
  let '(approx1, detail1) := c in
  save_vector (floats signal) "haar_simple_input.txt" (Some "Simple test signal [1,2,3,4,5,6,7,8]") ;;
  save_vector (floats approx1) "haar_level1_approx_manual.txt" (Some "Haar level 1 approximation (manual calc)") ;;
  save_vector (floats detail1) "haar_level1_detail_manual.txt" (Some "Haar level 1 detail (manual calc)") ;;
  let constant_signal := repeat (lit 5) 8 in
  save_vector (floats constant_signal) "haar_constant_input.txt" (Some "Constant signal [5,5,5,5,5,5,5,5]") ;;
  let linear_signal := map (fun i => lit (Z.of_nat i)) (seq 0 8) in
  save_vector (floats linear_signal) "haar_linear_input.txt" (Some "Linear signal [0,1,2,3,4,5,6,7]").


Definition generate_wavelet_filters : M unit :=
  print (nl +:+ "=== Generating Wavelet Filter Coefficients ===") ;;
  let haar_dec_lo := [(lit 1 / sqrt2)%f64; (lit 1 / sqrt2)%f64] in
  let haar_dec_hi := [(lit 1 / sqrt2)%f64; (lit (-1) / sqrt2)%f64] in
  let haar_rec_lo := [(lit 1 / sqrt2)%f64; (lit 1 / sqrt2)%f64] in
  let haar_rec_hi := [(lit (-1) / sqrt2)%f64; (lit 1 / sqrt2)%f64] in
  save_vector (floats haar_dec_lo) "filter_haar_dec_lo.txt" (Some "Haar decomposition low-pass") ;;
  save_vector (floats haar_dec_hi) "filter_haar_dec_hi.txt" (Some "Haar decomposition high-pass") ;;
  save_vector (floats haar_rec_lo) "filter_haar_rec_lo.txt" (Some "Haar reconstruction low-pass") ;;
  save_vector (floats haar_rec_hi) "filter_haar_rec_hi.txt" (Some "Haar reconstruction high-pass") ;;
  save_vector (floats haar_dec_lo) "filter_db2_dec_lo.txt" (Some "Daubechies 2 = Haar") ;;
  let db4_dec_lo :=
    [ Float64.of_decimal 48296291314469025 17;
      Float64.of_decimal 83651630373746899 17;
      Float64.of_decimal 22414386804185735 17;
      Float64.neg (Float64.of_decimal 12940952255092145 17) ] in
  let db4_dec_hi :=
    [ Float64.neg (Float64.of_decimal 12940952255092145 17);
      Float64.neg (Float64.of_decimal 22414386804185735 17);
      Float64.of_decimal 83651630373746899 17;
      Float64.neg (Float64.of_decimal 48296291314469025 17) ] in
  save_vector (floats db4_dec_lo) "filter_db4_dec_lo.txt" (Some "Daubechies 4 decomposition low-pass") ;;
  save_vector (floats db4_dec_hi) "filter_db4_dec_hi.txt" (Some "Daubechies 4 decomposition high-pass").

Definition generate_test_parameters : M unit :=
  print (nl +:+ "=== Generating Test Parameters ===") ;;
  let f := path_join output_dir "cwt_test_params.txt" in
  open_w f ;;
  f_write f ("# CWT test parameters" +:+ nl) ;;
  f_write f ("sampling_rate=1000.0" +:+ nl) ;;
  f_write f ("signal_length=256" +:+ nl) ;;
  f_write f ("num_scales=20" +:+ nl) ;;
  f_write f ("scale_min=1.0" +:+ nl) ;;
  f_write f ("scale_max=50.0" +:+ nl) ;;
  print "Generated: cwt_test_params.txt".

Section Platform.

(** [math.sin] of the platform's C library, and [os.path.abspath]. *)
Variable math_sin : f64 -> f64.
Variable abspath : string -> string.

Definition math_pi : f64 := Float64.of_decimal 3141592653589793 15.

Definition generate_fft_reference : M unit :=
  print (nl +:+ "=== Generating FFT Reference Data ===") ;;
  let dc_signal := repeat (lit 1) 8 in
  let dc_fft_real := [lit 8] ++ repeat (lit 0) 7 in
  let dc_fft_imag := repeat (lit 0) 8 in
  save_vector (floats dc_signal) "fft_dc_input.txt" (Some "DC signal (all ones)") ;;
  save_vector (floats dc_fft_real) "fft_dc_output_real.txt" (Some "FFT of DC signal (real part)") ;;
  save_vector (floats dc_fft_imag) "fft_dc_output_imag.txt" (Some "FFT of DC signal (imaginary part)") ;;
  let sine_signal :=
    map (fun i => math_sin (lit 2 * math_pi * lit (Z.of_nat i) / lit 8)%f64) (seq 0 8) in
  save_vector (floats sine_signal) "fft_sine_simple_input.txt" (Some "One cycle sine wave over 8 points") ;;
  let impulse := <[0%nat := lit 1]> (repeat (lit 0) 8) in
  let impulse_fft_real := repeat (lit 1) 8 in
  let impulse_fft_imag := repeat (lit 0) 8 in
  save_vector (floats impulse) "fft_impulse_input.txt" (Some "Impulse signal") ;;
  save_vector (floats impulse_fft_real) "fft_impulse_output_real.txt" (Some "FFT of impulse (real)") ;;
  save_vector (floats impulse_fft_imag) "fft_impulse_output_imag.txt" (Some "FFT of impulse (imag)").

Definition main : M unit :=
  print "Generating basic reference test data for JWave..." ;;
  print ("Output directory: " +:+ abspath output_dir) ;;
  generate_haar_reference ;;
  generate_fft_reference ;;
  generate_wavelet_filters ;;
  generate_test_parameters ;;
  print (nl +:+ "=== Summary ===") ;;
  print ("Basic reference data generated successfully in " +:+ output_dir) ;;
  n <- listdir_len ;;
  print ("Total files created: " +:+ pretty n) ;;
  print (nl +:+ "Note: For comprehensive reference data, install numpy, scipy, and pywavelets:") ;;
  print "pip install numpy scipy pywavelets".

(** The script run as a program: [os.makedirs(output_dir, exist_ok=True)]
    leaves the files of the directory alone, then [main()] runs. *)
Definition script : M unit := main.

End Platform.

End Basic.

(** ** [generate_reference_data.py] *)

Record complex : Type := Complex { re : f64; im : f64 }.

(** A one-dimensional numpy array: real (integer or float) or complex. *)
Inductive ndarray : Type :=
| Real (xs : list scalar)
| Cplx (zs : list complex).

(** [pywt.Wavelet(name)]: the four filter banks of a wavelet. *)
Record wavelet : Type := Wavelet {
  dec_lo : list f64;
  dec_hi : list f64;
  rec_lo : list f64;
  rec_hi : list f64
}.

(** The external numeric libraries (numpy, scipy, pywt).  Their transforms
    are not part of the repository: the generator is parameterised over
    them.  A call that can fail returns a [result]. *)
Record numlib : Type := NumLib {
  np_sin : f64 -> f64;
  np_abs : complex -> f64;
  np_angle : complex -> f64;
  np_linspace : Z -> Z -> nat -> list f64;
  scipy_fft : ndarray -> result (list complex);
  scipy_chirp : list f64 -> Z -> Z -> Z -> result (list f64);
  scipy_cwt_morlet2 : list scalar -> list scalar -> result (list (list complex));
  pywt_dwt : list scalar -> string -> result (list f64 * list f64);
  pywt_wavedec : list scalar -> string -> nat -> result (list (list f64));
  pywt_swt : list scalar -> string -> nat -> bool -> result (list (list f64 * list f64));
  pywt_Wavelet : string -> result wavelet
}.

(** [enumerate(xs)] *)
Definition enumerate {A} (xs : list A) : list (nat * A) := zip (seq 0 (length xs)) xs.

(** [sep.join(parts)] *)
Fixpoint join (sep : string) (parts : list string) : string :=
  match parts with
  | [] => EmptyString
  | [x] => x
  | x :: rest => x +:+ sep +:+ join sep rest
  end.

Module Full.

Definition output_dir : string := "../src/test/resources/testdata".

Definition save_vector (data : list scalar) (filename : string) (header : option string) : M unit :=
  let filepath := path_join output_dir filename in
  open_w filepath ;;
  (if truthy header then f_write filepath ("# " +:+ header_text header +:+ nl) else ret tt) ;;
  for_each data (fun value => f_write filepath (format_e16 value +:+ nl)) ;;
  print ("Generated: " +:+ filename).

Definition save_matrix (data : list (list scalar)) (filename : string) (header : option string) : M unit :=
  let filepath := path_join output_dir filename in
  open_w filepath ;;
  (if truthy header then f_write filepath ("# " +:+ header_text header +:+ nl) else ret tt) ;;
  for_each data (fun row => f_write filepath (join " " (map format_e16 row) +:+ nl)) ;;
  print ("Generated: " +:+ filename).

Definition format_complex (value : complex) : string :=
  format_e16 (SFloat (re value)) +:+ "," +:+ format_e16 (SFloat (im value)).

Definition save_complex_matrix (data : list (list complex)) (filename : string) (header : option string) : M unit :=
  let filepath := path_join output_dir filename in
  open_w filepath ;;
  (if truthy header then f_write filepath ("# " +:+ header_text header +:+ nl) else ret tt) ;;
  for_each data (fun row => f_write filepath (join " " (map format_complex row) +:+ nl)) ;;
  print ("Generated: " +:+ filename).

Definition lit (z : Z) : f64 := Float64.of_Z z.
Definition floats (xs : list f64) : list scalar := map SFloat xs.
Definition ints (zs : list Z) : list scalar := map SInt zs.
Definition real_part (zs : list complex) : list scalar := map (fun z => SFloat (re z)) zs.
Definition imag_part (zs : list complex) : list scalar := map (fun z => SFloat (im z)) zs.

(** [np.arange(lo, lo + count)] *)
Definition arange (lo : Z) (count : nat) : list Z := map (fun i => lo + Z.of_nat i) (seq 0 count).

Definition np_pi : f64 := Float64.of_decimal 3141592653589793 15.

Section WithLibrary.

Variable lib : numlib.
Variable abspath : string -> string.

Definition generate_fft_reference : M unit :=
  print (nl +:+ "=== Generating FFT Reference Data ===") ;;
  let n := 64%nat in
  let fs := 1000 in
  let f := 50 in
  let t := map (fun i => (lit i / lit fs)%f64) (arange 0 n) in
  let signal1 := map (fun ti => np_sin lib (lit 2 * np_pi * lit f * ti)%f64) t in
  fft1 <- lift (scipy_fft lib (Real (floats signal1))) ;;
  save_vector (floats signal1) "fft_sine_input.txt" (Some "64-point sine wave at 50Hz, fs=1000Hz") ;;
  save_vector (real_part fft1) "fft_sine_output_real.txt" (Some "FFT real part") ;;
  save_vector (imag_part fft1) "fft_sine_output_imag.txt" (Some "FFT imaginary part") ;;
  let signal2 :=
    [ Complex (lit 1) (lit 2); Complex (lit 3) (lit 4); Complex (lit 5) (lit 6);
      Complex (lit 7) (lit 8); Complex (lit 9) (lit 10); Complex (lit 11) (lit 12);
      Complex (lit 13) (lit 14); Complex (lit 15) (lit 16) ] in
  fft2 <- lift (scipy_fft lib (Cplx signal2)) ;;
  let fin := path_join output_dir "fft_complex_input.txt" in
  open_w fin ;;
  f_write fin ("# Complex test signal" +:+ nl) ;;
  for_each signal2 (fun val => f_write fin (format_complex val +:+ nl)) ;;
  let fout := path_join output_dir "fft_complex_output.txt" in
  open_w fout ;;
  f_write fout ("# FFT of complex signal" +:+ nl) ;;
  for_each fft2 (fun val => f_write fout (format_complex val +:+ nl)) ;;
  print "Generated: fft_complex_input.txt, fft_complex_output.txt".

Definition generate_dwt_reference : M unit :=
  print (nl +:+ "=== Generating DWT Reference Data ===") ;;
  let signal := ints [1; 2; 3; 4; 5; 6; 7; 8] in
  coeffs_haar <- lift (pywt_dwt lib signal "haar") ;;
  save_vector signal "dwt_haar_input.txt" (Some "Test signal [1,2,3,4,5,6,7,8]") ;;
  save_vector (floats (fst coeffs_haar)) "dwt_haar_approx.txt" (Some "Haar approximation coefficients") ;;
  save_vector (floats (snd coeffs_haar)) "dwt_haar_detail.txt" (Some "Haar detail coefficients") ;;
  coeffs_db4 <- lift (pywt_dwt lib signal "db4") ;;
  save_vector (floats (fst coeffs_db4)) "dwt_db4_approx.txt" (Some "Daubechies 4 approximation coefficients") ;;
  save_vector (floats (snd coeffs_db4)) "dwt_db4_detail.txt" (Some "Daubechies 4 detail coefficients") ;;
  coeffs_multi <- lift (pywt_wavedec lib signal "haar" 3) ;;
  for_each (enumerate coeffs_multi) (fun '(i, level_coeffs) =>
    save_vector (floats level_coeffs)
      ("dwt_haar_multilevel_" +:+ pretty i +:+ ".txt")
      (Some ("Haar multi-level decomposition level " +:+ pretty i))).

Definition generate_modwt_reference : M unit :=
  print (nl +:+ "=== Generating MODWT Reference Data ===") ;;
  let signal := ints [1; 2; 3; 4; 5; 6; 7; 8] in
  coeffs <- lift (pywt_swt lib signal "haar" 3 false) ;;
  save_vector signal "modwt_haar_input.txt" (Some "Test signal for MODWT") ;;
  for_each (enumerate coeffs) (fun '(i, (approx, detail)) =>
    save_vector (floats detail)
      ("modwt_haar_detail_level" +:+ pretty (i + 1)%nat +:+ ".txt")
      (Some ("MODWT Haar detail coefficients level " +:+ pretty (i + 1)%nat)) ;;
    save_vector (floats approx)
      ("modwt_haar_approx_level" +:+ pretty (i + 1)%nat +:+ ".txt")
      (Some ("MODWT Haar approximation coefficients level " +:+ pretty (i + 1)%nat))).

Definition generate_cwt_reference : M unit :=
  print (nl +:+ "=== Generating CWT Reference Data ===") ;;
  let fs := 1000%nat in
  let t := np_linspace lib 0 1 fs in
  signal <- lift (scipy_chirp lib t 10 1 100) ;;
  let widths := ints (arange 1 30) in
  cwt_matrix <- lift (scipy_cwt_morlet2 lib (floats signal) widths) ;;
  save_vector (floats signal) "cwt_chirp_input.txt" (Some "Chirp signal 10-100Hz, 1 second, fs=1000Hz") ;;
  save_vector widths "cwt_scales.txt" (Some "CWT scales") ;;
  save_matrix (map (map (fun z => SFloat (np_abs lib z))) cwt_matrix)
    "cwt_morlet_magnitude.txt" (Some "CWT magnitude (Morlet)") ;;
  save_matrix (map (map (fun z => SFloat (np_angle lib z))) cwt_matrix)
    "cwt_morlet_phase.txt" (Some "CWT phase (Morlet)") ;;
  let small_signal := ints [1; 2; 3; 4; 5; 6; 7; 8] in
  let small_scales := ints [1; 2; 3; 4] in
  small_cwt <- lift (scipy_cwt_morlet2 lib small_signal small_scales) ;;
  save_vector small_signal "cwt_small_input.txt" (Some "Small test signal") ;;
  save_vector small_scales "cwt_small_scales.txt" (Some "Small test scales") ;;
  save_complex_matrix small_cwt "cwt_small_output.txt" (Some "CWT output (complex)").

Definition wavelets : list string := ["haar"; "db2"; "db4"; "db8"; "sym4"; "coif2"].

Definition generate_wavelet_filter_reference : M unit :=
  print (nl +:+ "=== Generating Wavelet Filter Reference Data ===") ;;
  for_each wavelets (fun wavelet_name =>
    wavelet <- lift (pywt_Wavelet lib wavelet_name) ;;
    save_vector (floats (dec_lo wavelet)) ("filter_" +:+ wavelet_name +:+ "_dec_lo.txt")
      (Some (wavelet_name +:+ " decomposition low-pass filter")) ;;
    save_vector (floats (dec_hi wavelet)) ("filter_" +:+ wavelet_name +:+ "_dec_hi.txt")
      (Some (wavelet_name +:+ " decomposition high-pass filter")) ;;
    save_vector (floats (rec_lo wavelet)) ("filter_" +:+ wavelet_name +:+ "_rec_lo.txt")
      (Some (wavelet_name +:+ " reconstruction low-pass filter")) ;;
    save_vector (floats (rec_hi wavelet)) ("filter_" +:+ wavelet_name +:+ "_rec_hi.txt")
      (Some (wavelet_name +:+ " reconstruction high-pass filter"))).

(** The [edge_signals] dictionary, in insertion order. *)
Definition edge_signals : list (string * list scalar) :=
  [ ("empty", []);
    ("single", floats [lit 42]);
    ("power_of_2", ints (arange 0 16));
    ("non_power_of_2", ints (arange 0 13));
    ("zeros", floats (repeat (lit 0) 8));
    ("ones", floats (repeat (lit 1) 8));
    ("impulse", ints [0; 0; 0; 1; 0; 0; 0; 0]) ].

Definition edge_case (item : string * list scalar) : M unit :=
  let '(name, signal) := item in
  if (0 <? length signal)%nat then
    save_vector signal ("edge_case_" +:+ name +:+ "_input.txt") (Some ("Edge case: " +:+ name)) ;;
    (if (0 <? length signal)%nat then
       fft_result <- lift (scipy_fft lib (Real signal)) ;;
       save_vector (real_part fft_result) ("edge_case_" +:+ name +:+ "_fft_real.txt")
         (Some ("FFT real part of " +:+ name)) ;;
       save_vector (imag_part fft_result) ("edge_case_" +:+ name +:+ "_fft_imag.txt")
         (Some ("FFT imag part of " +:+ name))
     else ret tt) ;;
    (if (1 <? length signal)%nat then
       try_except
         (coeffs <- lift (pywt_dwt lib signal "haar") ;;
          save_vector (floats (fst coeffs)) ("edge_case_" +:+ name +:+ "_dwt_approx.txt")
            (Some ("DWT approx of " +:+ name)) ;;
          save_vector (floats (snd coeffs)) ("edge_case_" +:+ name +:+ "_dwt_detail.txt")
            (Some ("DWT detail of " +:+ name)))
         (fun _ => Some (ret tt))
     else ret tt)
  else ret tt.

Definition generate_special_cases : M unit :=
  print (nl +:+ "=== Generating Special Test Cases ===") ;;
  for_each edge_signals edge_case.

(** The body of the [try] statement of [main]. *)
Definition main_try_body : M unit :=
  generate_fft_reference ;;
  generate_dwt_reference ;;
  generate_modwt_reference ;;
  generate_cwt_reference ;;
  generate_wavelet_filter_reference ;;
  generate_special_cases ;;
  print (nl +:+ "=== Summary ===") ;;
  print ("Reference data generated successfully in " +:+ output_dir) ;;
  n <- listdir_len ;;
  print ("Total files created: " +:+ pretty n).

Definition main : M unit :=
  print "Generating reference test data for JWave..." ;;
  print ("Output directory: " +:+ abspath output_dir) ;;
  try_except main_try_body
    (fun e =>
       match e with
       | ImportError _ =>
           Some (print (nl +:+ "Error: Missing required Python package.") ;;
                 print "Please install required packages:" ;;
                 print "pip install numpy scipy pywavelets" ;;
                 sys_exit 1)
       | Exception msg =>
           Some (print (nl +:+ "Error generating reference data: " +:+ msg) ;;
                 sys_exit 1)
       | SystemExit _ => None
       end).

(** [import package...] at the top of the module: it raises
    [ModuleNotFoundError], an [ImportError], when the package is not
    installed. *)
Variable installed : string -> bool.

Definition import (package : string) : M unit :=
  if installed package then ret tt
  else raise (ImportError ("No module named '" +:+ package +:+ "'")).

(** The script run as a program: the imports of lines 7 to 12, then
    [os.makedirs(output_dir, exist_ok=True)] (which leaves the files of
    the directory alone), then [main()]. *)
Definition script : M unit :=
  import "numpy" ;;
  import "scipy" ;;
  import "scipy" ;;
  import "pywt" ;;
  main.

End WithLibrary.

End Full.

(** ** Text predicates used in the statements *)

Definition newline : ascii := ascii_of_nat 10.

Definition is_digit (c : ascii) : bool :=
  (48 <=? nat_of_ascii c)%nat && (nat_of_ascii c <=? 57)%nat.

Fixpoint all_digits (s : string) : bool :=
  match s with
  | EmptyString => true
  | String c r => is_digit c && all_digits r
  end.

(** Consume exactly [n] digits. *)
Fixpoint take_digits (n : nat) (s : string) : option string :=
  match n, s with
  | O, _ => Some s
  | S n', String c r => if is_digit c then take_digits n' r else None
  | S _, EmptyString => None
  end.

Definition is_sign (c : ascii) : bool := Ascii.eqb c "+" || Ascii.eqb c "-".

Definition strip_minus (s : string) : string :=
  match s with
  | String "-" r => r
  | _ => s
  end.

(** [-?d.d{frac}e[+-]dd+]: scientific notation with [frac] digits after the
    point and at least two exponent digits. *)
Definition sci_shape (frac : nat) (s : string) : bool :=
  match strip_minus s with
  | String d (String "." r) =>
      is_digit d &&
      match take_digits frac r with
      | Some (String "e" (String sg ex)) =>
          is_sign sg && all_digits ex && (2 <=? String.length ex)%nat
      | _ => false
      end
  | _ => false
  end.

(** The pattern [d.dddddddddddddddde±dd] read literally: no sign, sixteen
    digits after the point, two exponent digits. *)
Definition spec_pattern (s : string) : bool :=
  match s with
  | String d (String "." r) =>
      is_digit d &&
      match take_digits 16 r with
      | Some (String "e" (String sg (String x (String y EmptyString)))) =>
          is_sign sg && is_digit x && is_digit y
      | _ => false
      end
  | _ => false
  end.

(** Number of digits of the significand (the digits before the [e]). *)
Fixpoint significant_digits (s : string) : nat :=
  match s with
  | EmptyString => O
  | String c r =>
      if Ascii.eqb c "e" then O
      else ((if is_digit c then 1 else 0) + significant_digits r)%nat
  end.

(** First character of the significand. *)
Definition leading_digit (s : string) : option ascii :=
  match strip_minus s with
  | String d _ => Some d
  | EmptyString => None
  end.

Fixpoint no_newline (s : string) : bool :=
  match s with
  | EmptyString => true
  | String c r => negb (Ascii.eqb c newline) && no_newline r
  end.

(** The lines of a text ([str.splitlines] for the separator ["\n"]). *)
Fixpoint lines (s : string) : list string :=
  match s with
  | EmptyString => []
  | String c r =>
      if Ascii.eqb c newline then EmptyString :: lines r
      else match lines r with
           | [] => [String c EmptyString]
           | l :: ls => String c l :: ls
           end
  end.

(** Concatenation of the texts written by a loop. *)
Fixpoint concat_text (parts : list string) : string :=
  match parts with
  | [] => EmptyString
  | x :: rest => x +:+ concat_text rest
  end.

(** The header line a serializer writes, if any. *)
Definition header_line (header : option string) : string :=
  if truthy header then "# " +:+ header_text header +:+ nl else EmptyString.

(** The text of a vector file, of a matrix file and of a complex matrix
    file, as functions of the serializer's arguments. *)
Definition vector_text (data : list scalar) (header : option string) : string :=
  header_line header +:+ concat_text (map (fun value => format_e16 value +:+ nl) data).

Definition matrix_text (data : list (list scalar)) (header : option string) : string :=
  header_line header +:+
  concat_text (map (fun row => join " " (map format_e16 row) +:+ nl) data).

Definition complex_matrix_text (data : list (list complex)) (header : option string) : string :=
  header_line header +:+
  concat_text (map (fun row => join " " (map Full.format_complex row) +:+ nl) data).

(** [x] is a float of the given sign whose magnitude is within one unit in
    the last place of [sqrt (num / den)]: with [x = ±m * 2^e],
    [(m - 1) * 2^e < sqrt (num / den) < (m + 1) * 2^e]. *)
Definition near_sqrt (x : f64) (negative : bool) (num den : Z) : bool :=
  match x with
  | S754_finite s m e =>
      Bool.eqb s negative &&
      ((Z.pos m - 1) ^ 2 * 2 ^ Z.max 0 (2 * e) * den <? num * 2 ^ Z.max 0 (- (2 * e))) &&
      (num * 2 ^ Z.max 0 (- (2 * e)) <? (Z.pos m + 1) ^ 2 * 2 ^ Z.max 0 (2 * e) * den)
  | _ => false
  end.

(** ** Traces of file-system and console effects *)

Inductive event : Type :=
| EOpen (path : string)
| EWrite (path s : string)
| EPrint (s : string)
| EPrintCount (f : nat -> string).

Definition step_event (w : world) (ev : event) : world :=
  match ev with
  | EOpen path => snd (open_w path w)
  | EWrite path s => snd (f_write path s w)
  | EPrint s => snd (print s w)
  | EPrintCount f => snd (print (f (size (files w))) w)
  end.

Definition replay (t : list event) (w : world) : world := fold_left step_event t w.

Definition opens (t : list event) : list string :=
  omap (fun ev => match ev with EOpen p => Some p | _ => None end) t.

Definition touched (t : list event) : list string :=
  omap (fun ev => match ev with EOpen p | EWrite p _ => Some p | _ => None end) t.

(** Content of the file at [p] after an event, from its content before. *)
Definition file_step (p : string) (o : option string) (ev : event) : option string :=
  match ev with
  | EOpen q => if String.eqb q p then Some EmptyString else o
  | EWrite q s => if String.eqb q p then (fun c => c +:+ s) <$> o else o
  | _ => o
  end.

Definition file_after (t : list event) (p : string) (o : option string) : option string :=
  fold_left (file_step p) t o.

(** [m] has the same result and the same effects from every world: its
    opens are among [Lo] (in order) and the paths it touches are in [Lw]. *)
Definition traced {A} (m : M A) (Lo Lw : list string) : Prop :=
  exists r t, (forall w, m w = (r, replay t w)) /\
              opens t `sublist_of` Lo /\ touched t ⊆ Lw.

(** The paths the basic generator opens, in order. *)
Definition basic_paths : list string :=
  map (path_join Basic.output_dir)
    [ "haar_simple_input.txt"; "haar_level1_approx_manual.txt";
      "haar_level1_detail_manual.txt"; "haar_constant_input.txt";
      "haar_linear_input.txt";
      "fft_dc_input.txt"; "fft_dc_output_real.txt"; "fft_dc_output_imag.txt";
      "fft_sine_simple_input.txt";
      "fft_impulse_input.txt"; "fft_impulse_output_real.txt"; "fft_impulse_output_imag.txt";
      "filter_haar_dec_lo.txt"; "filter_haar_dec_hi.txt";
      "filter_haar_rec_lo.txt"; "filter_haar_rec_hi.txt";
      "filter_db2_dec_lo.txt"; "filter_db4_dec_lo.txt"; "filter_db4_dec_hi.txt";
      "cwt_test_params.txt" ].

(** [sum(xs)] *)
Definition py_sum (xs : list f64) : f64 := fold_left Float64.add xs (Float64.of_Z 0).

(** The paths the full generator may open, stage by stage.  The numbers
    of multi-level and of stationary-transform bands are those the library
    returns. *)
Definition full_path (name : string) : string := path_join Full.output_dir name.

Definition fft_names : list string :=
  map full_path
    [ "fft_sine_input.txt"; "fft_sine_output_real.txt"; "fft_sine_output_imag.txt";
      "fft_complex_input.txt"; "fft_complex_output.txt" ].

Definition multilevel_name (i : nat) : string :=
  full_path ("dwt_haar_multilevel_" +:+ pretty i +:+ ".txt").

Definition dwt_names (n : nat) : list string :=
  map full_path
    [ "dwt_haar_input.txt"; "dwt_haar_approx.txt"; "dwt_haar_detail.txt";
      "dwt_db4_approx.txt"; "dwt_db4_detail.txt" ]
  ++ map multilevel_name (seq 0 n).

Definition modwt_level_names (i : nat) : list string :=
  [ full_path ("modwt_haar_detail_level" +:+ pretty (i + 1)%nat +:+ ".txt");
    full_path ("modwt_haar_approx_level" +:+ pretty (i + 1)%nat +:+ ".txt") ].

Definition modwt_names (n : nat) : list string :=
  full_path "modwt_haar_input.txt" :: flat_map modwt_level_names (seq 0 n).

Definition cwt_names : list string :=
  map full_path
    [ "cwt_chirp_input.txt"; "cwt_scales.txt"; "cwt_morlet_magnitude.txt";
      "cwt_morlet_phase.txt"; "cwt_small_input.txt"; "cwt_small_scales.txt";
      "cwt_small_output.txt" ].

Definition filter_names_of (wavelet_name : string) : list string :=
  map full_path
    [ "filter_" +:+ wavelet_name +:+ "_dec_lo.txt";
      "filter_" +:+ wavelet_name +:+ "_dec_hi.txt";
      "filter_" +:+ wavelet_name +:+ "_rec_lo.txt";
      "filter_" +:+ wavelet_name +:+ "_rec_hi.txt" ].

Definition filter_names : list string := flat_map filter_names_of Full.wavelets.

Definition edge_names_of (item : string * list scalar) : list string :=
  map full_path
    [ "edge_case_" +:+ fst item +:+ "_input.txt";
      "edge_case_" +:+ fst item +:+ "_fft_real.txt";
      "edge_case_" +:+ fst item +:+ "_fft_imag.txt";
      "edge_case_" +:+ fst item +:+ "_dwt_approx.txt";
      "edge_case_" +:+ fst item +:+ "_dwt_detail.txt" ].

Definition edge_names : list string := flat_map edge_names_of Full.edge_signals.

Definition full_names (n_multi n_swt : nat) : list string :=
  fft_names ++ dwt_names n_multi ++ modwt_names n_swt ++ cwt_names ++ filter_names ++ edge_names.

Definition test_signal : list scalar := Full.ints [1; 2; 3; 4; 5; 6; 7; 8].

Definition n_multi (lib : numlib) : nat :=
  match pywt_wavedec lib test_signal "haar" 3 with
  | Ok c => length c
  | Raise _ => O
  end.

Definition n_swt (lib : numlib) : nat :=
  match pywt_swt lib test_signal "haar" 3 false with
  | Ok c => length c
  | Raise _ => O
  end.

Definition subset_check (l1 l2 : list string) : bool :=
  forallb (fun x => existsb (String.eqb x) l2) l1.

(** The paths of the full generator whose names do not depend on what the
    library returns. *)
Definition fixed_names : list string :=
  (fft_names ++ dwt_names 0) ++ [full_path "modwt_haar_input.txt"] ++
  (cwt_names ++ filter_names ++ edge_names).

Definition multilevel_prefix : string := full_path "dwt_haar_multilevel_".
Definition modwt_detail_prefix : string := full_path "modwt_haar_detail_level".
Definition modwt_approx_prefix : string := full_path "modwt_haar_approx_level".

(** [s.startswith(p)] *)
Fixpoint starts_with (p s : string) : bool :=
  match p with
  | EmptyString => true
  | String a p' =>
      match s with
      | EmptyString => false
      | String b s' => Ascii.eqb a b && starts_with p' s'
      end
  end.

Definition is_level_name (x : string) : bool :=
  starts_with multilevel_prefix x || starts_with modwt_detail_prefix x ||
  starts_with modwt_approx_prefix x.

(** ** The edge-case pass in closed form *)

(** The world after a serializer has written [text] to [filename]. *)
Definition wrote (w : world) (file : string * string) : world :=
  {| files := <[full_path (fst file) := snd file]> (files w);
     opened := opened w ++ [full_path (fst file)];
     stdout := stdout w ++ ["Generated: " +:+ fst file] |}.

Definition wrote_all (fs : list (string * string)) (w : world) : world :=
  fold_left wrote fs w.

(** The files (name and text) that one iteration of the edge-case loop
    writes when the FFT call returns. *)
Definition edge_files (lib : numlib) (item : string * list scalar) : list (string * string) :=
  let '(name, signal) := item in
  if (0 <? length signal)%nat then
    [("edge_case_" +:+ name +:+ "_input.txt",
      vector_text signal (Some ("Edge case: " +:+ name)))] ++
    match scipy_fft lib (Real signal) with
    | Ok fft_result =>
        [("edge_case_" +:+ name +:+ "_fft_real.txt",
          vector_text (Full.real_part fft_result) (Some ("FFT real part of " +:+ name)));
         ("edge_case_" +:+ name +:+ "_fft_imag.txt",
          vector_text (Full.imag_part fft_result) (Some ("FFT imag part of " +:+ name)))]
    | Raise _ => []
    end ++
    (if (1 <? length signal)%nat then
       match pywt_dwt lib signal "haar" with
       | Ok coeffs =>
           [("edge_case_" +:+ name +:+ "_dwt_approx.txt",
             vector_text (Full.floats (fst coeffs)) (Some ("DWT approx of " +:+ name)));
            ("edge_case_" +:+ name +:+ "_dwt_detail.txt",
             vector_text (Full.floats (snd coeffs)) (Some ("DWT detail of " +:+ name)))]
       | Raise _ => []
       end
     else [])
  else [].

Definition dwt_ok (lib : numlib) (signal : list scalar) : bool :=
  match pywt_dwt lib signal "haar" with
  | Ok _ => true
  | Raise _ => false
  end.

(** The names among them. *)
Definition edge_filenames (ok : bool) (name : string) (len : nat) : list string :=
  if (0 <? len)%nat then
    [ "edge_case_" +:+ name +:+ "_input.txt";
      "edge_case_" +:+ name +:+ "_fft_real.txt";
      "edge_case_" +:+ name +:+ "_fft_imag.txt" ] ++
    (if (1 <? len)%nat && ok
     then [ "edge_case_" +:+ name +:+ "_dwt_approx.txt";
            "edge_case_" +:+ name +:+ "_dwt_detail.txt" ]
     else [])
  else [].

Definition edge_paths (lib : numlib) (item : string * list scalar) : list string :=
  map full_path (edge_filenames (dwt_ok lib (snd item)) (fst item) (length (snd item))).

(** The FFT call returns on every non-empty edge-case signal. *)
Definition fft_returns (lib : numlib) : Prop :=
  forall item, item ∈ Full.edge_signals -> snd item <> [] ->
               exists r, scipy_fft lib (Real (snd item)) = Ok r.

(** ** A stand-in for the numeric libraries

    The transforms are not part of the repository.  This stand-in gives
    every library call a definite value, so that the statements below can
    be instantiated: a pairwise Haar step for [pywt.dwt] (or a failure,
    when [dwt_fails] is set), the published Daubechies-2 taps for
    [pywt.Wavelet('db2')], and fixed shapes for the other calls. *)

Fixpoint haar_pairs (xs : list f64) : list f64 * list f64 :=
  match xs with
  | a :: b :: rest =>
      let '(approx, detail) := haar_pairs rest in
      (((a + b) / Basic.sqrt2)%f64 :: approx, ((a - b) / Basic.sqrt2)%f64 :: detail)
  | _ => ([], [])
  end.

Definition db2_dec_lo : list f64 :=
  [ Float64.neg (Float64.of_decimal 12940952255092145 17);
    Float64.of_decimal 22414386804185735 17;
    Float64.of_decimal 836516303737469 15;
    Float64.of_decimal 48296291314469025 17 ].

Definition sample_lib (dwt_fails : bool) : numlib :=
  {| np_sin := fun x => x;
     np_abs := fun z => re z;
     np_angle := fun z => im z;
     np_linspace := fun lo hi n => repeat (Float64.of_Z lo) n;
     scipy_fft := fun a =>
       Ok match a with
          | Real xs => map (fun x => Complex (to_float x) (Float64.of_Z 0)) xs
          | Cplx zs => zs
          end;
     scipy_chirp := fun t f0 t1 f1 => Ok (firstn 8 t);
     scipy_cwt_morlet2 := fun signal widths =>
       Ok (map (fun _ => map (fun x => Complex (to_float x) (Float64.of_Z 0)) signal) widths);
     pywt_dwt := fun signal name =>
       if dwt_fails then Raise (Exception "dwt failed")
       else Ok (haar_pairs (map to_float signal));
     pywt_wavedec := fun signal name level =>
       Ok (repeat (map to_float signal) (S level));
     pywt_swt := fun signal name level trim =>
       Ok (repeat (map to_float signal, map to_float signal) level);
     pywt_Wavelet := fun name =>
       Ok {| dec_lo := db2_dec_lo; dec_hi := rev db2_dec_lo;
             rec_lo := rev db2_dec_lo; rec_hi := db2_dec_lo |} |}.

(** Stand-ins for the platform: [math.sin] and [os.path.abspath]. *)
Definition sample_sin (x : f64) : f64 := x.
Definition sample_abspath (path : string) : string := "/repo/scripts/" +:+ path.

(** Every package but [missing] is installed. *)
Definition all_but (missing : string) (package : string) : bool :=
  negb (String.eqb package missing).

(** ** The file name both generators use *)

Definition db2_path : string := "../src/test/resources/testdata/filter_db2_dec_lo.txt".

(** What the basic generator writes there: the two Haar taps. *)
Definition basic_db2_text : string :=
  vector_text
    (map SFloat [(Float64.of_Z 1 / Basic.sqrt2)%f64; (Float64.of_Z 1 / Basic.sqrt2)%f64])
    (Some "Daubechies 2 = Haar").

(** What the full generator writes there: the library's taps. *)
Definition full_db2_text (taps : list f64) : string :=
  vector_text (map SFloat taps) (Some "db2 decomposition low-pass filter").

(** ** Definitions for the further properties *)

(** *** Reading the files back *)

Fixpoint string_forall (P : ascii -> bool) (s : string) : bool :=
  match s with
  | EmptyString => true
  | String c r => P c && string_forall P r
  end.

(** The characters a formatted number is made of. *)
Definition is_num_char (c : ascii) : bool :=
  is_digit c ||
  existsb (Ascii.eqb c) ["."; "e"; "+"; "-"; "n"; "a"; "i"; "f"]%char.

(** [s.split(sep)] for a one-character separator. *)
Fixpoint split_on (sep : ascii) (s : string) : list string :=
  match s with
  | EmptyString => [EmptyString]
  | String c r =>
      if Ascii.eqb c sep then EmptyString :: split_on sep r
      else match split_on sep r with
           | [] => [String c EmptyString]
           | l :: ls => String c l :: ls
           end
  end.

(** Number of header lines a serializer writes. *)
Definition header_lines (header : option string) : nat := if truthy header then 1%nat else 0%nat.

(** [signal[i]], with [+0.0] out of range *)
Definition sample (signal : list f64) (i : nat) : f64 := nth i signal (S754_zero false).

(** *** The files of the stages, as name and text *)

(** The files of the DWT stage, as (name, text) pairs. *)
Definition multilevel_file (p : nat * list f64) : string * string :=
  ("dwt_haar_multilevel_" +:+ pretty (fst p) +:+ ".txt",
   vector_text (Full.floats (snd p))
               (Some ("Haar multi-level decomposition level " +:+ pretty (fst p)))).

Definition dwt_haar_files (coeffs_haar : list f64 * list f64) : list (string * string) :=
  [ ("dwt_haar_input.txt", vector_text test_signal (Some "Test signal [1,2,3,4,5,6,7,8]"));
    ("dwt_haar_approx.txt",
     vector_text (Full.floats (fst coeffs_haar)) (Some "Haar approximation coefficients"));
    ("dwt_haar_detail.txt",
     vector_text (Full.floats (snd coeffs_haar)) (Some "Haar detail coefficients")) ].

Definition dwt_db4_files (coeffs_db4 : list f64 * list f64) : list (string * string) :=
  [ ("dwt_db4_approx.txt",
     vector_text (Full.floats (fst coeffs_db4)) (Some "Daubechies 4 approximation coefficients"));
    ("dwt_db4_detail.txt",
     vector_text (Full.floats (snd coeffs_db4)) (Some "Daubechies 4 detail coefficients")) ].

Definition modwt_level_files (p : nat * (list f64 * list f64)) : list (string * string) :=
  [ ("modwt_haar_detail_level" +:+ pretty (fst p + 1)%nat +:+ ".txt",
     vector_text (Full.floats (snd (snd p)))
       (Some ("MODWT Haar detail coefficients level " +:+ pretty (fst p + 1)%nat)));
    ("modwt_haar_approx_level" +:+ pretty (fst p + 1)%nat +:+ ".txt",
     vector_text (Full.floats (fst (snd p)))
       (Some ("MODWT Haar approximation coefficients level " +:+ pretty (fst p + 1)%nat))) ].

Definition stage_heading (title : string) (w : world) : world :=
  snd (print (nl +:+ "=== Generating " +:+ title +:+ " ===") w).

Definition modwt_input_file : string * string :=
  ("modwt_haar_input.txt", vector_text test_signal (Some "Test signal for MODWT")).

(** The four files of one wavelet of the filter stage. *)
Definition filter_files (wavelet_name : string) (wv : wavelet) : list (string * string) :=
  [ ("filter_" +:+ wavelet_name +:+ "_dec_lo.txt",
     vector_text (Full.floats (dec_lo wv)) (Some (wavelet_name +:+ " decomposition low-pass filter")));
    ("filter_" +:+ wavelet_name +:+ "_dec_hi.txt",
     vector_text (Full.floats (dec_hi wv)) (Some (wavelet_name +:+ " decomposition high-pass filter")));
    ("filter_" +:+ wavelet_name +:+ "_rec_lo.txt",
     vector_text (Full.floats (rec_lo wv)) (Some (wavelet_name +:+ " reconstruction low-pass filter")));
    ("filter_" +:+ wavelet_name +:+ "_rec_hi.txt",
     vector_text (Full.floats (rec_hi wv)) (Some (wavelet_name +:+ " reconstruction high-pass filter"))) ].

Definition filter_files_of (lib : numlib) (wavelet_name : string) : list (string * string) :=
  match pywt_Wavelet lib wavelet_name with
  | Ok wv => filter_files wavelet_name wv
  | Raise _ => []
  end.

(** The inputs of the CWT stage. *)
Definition cwt_widths : list scalar := Full.ints (Full.arange 1 30).
Definition cwt_small_scales : list scalar := Full.ints [1; 2; 3; 4].

(** The complex test signal of the FFT stage. *)
Definition fft_signal2 : list complex :=
  [ Complex (Full.lit 1) (Full.lit 2); Complex (Full.lit 3) (Full.lit 4);
    Complex (Full.lit 5) (Full.lit 6); Complex (Full.lit 7) (Full.lit 8);
    Complex (Full.lit 9) (Full.lit 10); Complex (Full.lit 11) (Full.lit 12);
    Complex (Full.lit 13) (Full.lit 14); Complex (Full.lit 15) (Full.lit 16) ].

(** The sine signal of the FFT stage. *)
Definition fft_signal1 (lib : numlib) : list f64 :=
  map (fun ti => np_sin lib (Full.lit 2 * Full.np_pi * Full.lit 50 * ti)%f64)
      (map (fun i => (Full.lit i / Full.lit 1000)%f64) (Full.arange 0 64)).

(** The text of a list of complex numbers, one [re,im] pair per line. *)
Definition complex_lines_text (title : string) (zs : list complex) : string :=
  ("# " +:+ title +:+ nl) +:+ concat_text (map (fun val => Full.format_complex val +:+ nl) zs).

Definition fft_sine_files (lib : numlib) (fft1 : list complex) : list (string * string) :=
  [ ("fft_sine_input.txt",
     vector_text (Full.floats (fft_signal1 lib)) (Some "64-point sine wave at 50Hz, fs=1000Hz"));
    ("fft_sine_output_real.txt", vector_text (Full.real_part fft1) (Some "FFT real part"));
    ("fft_sine_output_imag.txt", vector_text (Full.imag_part fft1) (Some "FFT imaginary part")) ].

(** *** Effects confined to the opened paths *)

(** [m] changes the directory only at the paths it opens: from every
    world, the paths it adds to the log of opened paths exist afterwards,
    and every other path keeps its content (or its absence). *)
Definition confined {A} (m : M A) : Prop :=
  forall w, exists l,
    opened (snd (m w)) = opened w ++ l /\
    (forall p, p ∉ l -> files (snd (m w)) !! p = files w !! p) /\
    (forall p, p ∈ l -> is_Some (files (snd (m w)) !! p)).

(** *** The summary lines *)

(** The last lines of the output of a run that ends normally, from the
    number of files of the directory. *)
Definition basic_summary (count : nat) : list string :=
  [ nl +:+ "=== Summary ===";
    "Basic reference data generated successfully in ../src/test/resources/testdata";
    "Total files created: " +:+ pretty count;
    nl +:+ "Note: For comprehensive reference data, install numpy, scipy, and pywavelets:";
    "pip install numpy scipy pywavelets" ].

Definition full_summary (count : nat) : list string :=
  [ nl +:+ "=== Summary ===";
    "Reference data generated successfully in ../src/test/resources/testdata";
    "Total files created: " +:+ pretty count ].

(** The output of the run ends with the lines [tail] computed from the
    final number of files. *)
Definition ends_with (tail : nat -> list string) (w : world) : Prop :=
  exists out, stdout w = out ++ tail (size (files w)).

(** *** Canonical binary64 values *)

(** A binary64 value in canonical form: the significand of a finite
    non-zero value has at most 53 bits, and exactly 53 unless the exponent
    is the smallest one; zeros, infinities and NaN are canonical. *)
Definition valid (x : f64) : bool := valid_binary Float64.prec Float64.emax x.

(** *** The two generators on one directory *)

(** The paths of the basic generator that the full generator never opens. *)
Definition basic_only : list string :=
  map (path_join Basic.output_dir)
    [ "haar_simple_input.txt"; "haar_level1_approx_manual.txt";
      "haar_level1_detail_manual.txt"; "haar_constant_input.txt";
      "haar_linear_input.txt";
      "fft_dc_input.txt"; "fft_dc_output_real.txt"; "fft_dc_output_imag.txt";
      "fft_sine_simple_input.txt";
      "fft_impulse_input.txt"; "fft_impulse_output_real.txt"; "fft_impulse_output_imag.txt";
      "cwt_test_params.txt" ].

(** A path of the basic generator that is none of the names the full
    generator can open. *)
Definition only_basic (p : string) : bool :=
  existsb (String.eqb p) basic_paths &&
  negb (existsb (String.eqb p) fixed_names) && negb (is_level_name p).

(** The [except] clauses of [main]. *)
Definition main_handler (e : exn) : option (M unit) :=
  match e with
  | ImportError _ =>
      Some (print (nl +:+ "Error: Missing required Python package.") ;;
            print "Please install required packages:" ;;
            print "pip install numpy scipy pywavelets" ;;
            sys_exit 1)
  | Exception msg =>
      Some (print (nl +:+ "Error generating reference data: " +:+ msg) ;;
            sys_exit 1)
  | SystemExit _ => None
  end.

(** The stand-in with one failing call: the call named [fault] raises
    [e], every other call behaves as in [sample_lib false]. *)
Definition faulty_lib (fault : string) (e : exn) : numlib :=
  let ok := sample_lib false in
  {| np_sin := np_sin ok;
     np_abs := np_abs ok;
     np_angle := np_angle ok;
     np_linspace := np_linspace ok;
     scipy_fft := fun a =>
       match a with
       | Real _ => if String.eqb fault "fft_real" then Raise e else scipy_fft ok a
       | Cplx _ => if String.eqb fault "fft_complex" then Raise e else scipy_fft ok a
       end;
     scipy_chirp := scipy_chirp ok;
     scipy_cwt_morlet2 := fun signal widths =>
       if String.eqb fault "cwt" then Raise e else scipy_cwt_morlet2 ok signal widths;
     pywt_dwt := fun signal name =>
       if String.eqb fault ("dwt_" +:+ name) then Raise e else pywt_dwt ok signal name;
     pywt_wavedec := fun signal name level =>
       if String.eqb fault "wavedec" then Raise e else pywt_wavedec ok signal name level;
     pywt_swt := fun signal name level trim =>
       if String.eqb fault "swt" then Raise e else pywt_swt ok signal name level trim;
     pywt_Wavelet := fun name =>
       if String.eqb fault ("Wavelet_" +:+ name) then Raise e else pywt_Wavelet ok name |}.

(** * Properties *)

(** ** Decimal scaling and rounding *)

Section FormatArith.
Import Format.

Lemma pow10_pos (n : Z) : 0 <= n -> 0 < 10 ^ n.
Proof. intros. apply Z.pow_pos_nonneg; lia. Qed.

Lemma ndigits10_aux_spec (fuel : nat) :
  forall v, 0 < v < 2 ^ Z.of_nat fuel ->
    1 <= ndigits10_aux fuel v /\
    10 ^ (ndigits10_aux fuel v - 1) <= v < 10 ^ ndigits10_aux fuel v.
Proof.
  induction fuel as [|fuel IH]; intros v Hv.
  - simpl in Hv. lia.
  - cbn [ndigits10_aux]. destruct (Z.ltb_spec v 10) as [Hlt|Hge].
    + simpl. lia.
    + assert (Hq : 0 < v / 10 < 2 ^ Z.of_nat fuel).
      { split.
        - apply Z.div_str_pos; lia.
        - apply Z.div_lt_upper_bound; [lia|].
          rewrite Nat2Z.inj_succ, Z.pow_succ_r in Hv by lia. lia. }
      destruct (IH _ Hq) as (Hd & Hlo & Hhi).
      set (d := ndigits10_aux fuel (v / 10)) in *.
      replace (1 + d - 1) with (Z.succ (d - 1)) by lia.
      replace (1 + d) with (Z.succ d) by lia.
      rewrite !Z.pow_succ_r by lia.
      pose proof (Z.div_mod v 10 ltac:(lia)) as Hdm.
      pose proof (Z.mod_pos_bound v 10 ltac:(lia)) as Hm.
      repeat split; lia.
Qed.

Lemma ndigits10_spec (v : Z) :
  0 < v -> 1 <= ndigits10 v /\ 10 ^ (ndigits10 v - 1) <= v < 10 ^ ndigits10 v.
Proof.
  intros Hv. apply ndigits10_aux_spec. split; [lia|].
  rewrite Nat2Z.inj_succ, Z2Nat.id by apply Z.log2_nonneg.
  apply Z.log2_spec. lia.
Qed.

(** Comparing [a * 10^x] with [b] does not depend on how the power of
    ten is distributed over the two sides. *)
Lemma scale_le_iff (a b x c : Z) :
  0 <= c -> 0 <= x + c ->
  (a * 10 ^ Z.max 0 x <= b * 10 ^ Z.max 0 (- x) <-> a * 10 ^ (x + c) <= b * 10 ^ c).
Proof.
  intros Hc Hxc. destruct (Z.le_gt_cases 0 x) as [Hx|Hx].
  - rewrite (Z.max_r 0 x), (Z.max_l 0 (- x)) by lia.
    rewrite Z.pow_0_r, Z.pow_add_r by lia.
    pose proof (pow10_pos c Hc). pose proof (pow10_pos x Hx). nia.
  - rewrite (Z.max_l 0 x), (Z.max_r 0 (- x)) by lia.
    rewrite Z.pow_0_r.
    replace c with (- x + (x + c)) at 2 by lia.
    rewrite (Z.pow_add_r 10 (- x) (x + c)) by lia.
    pose proof (pow10_pos (x + c) Hxc). pose proof (pow10_pos (- x) ltac:(lia)). nia.
Qed.

Lemma scaled_ge_iff (num den k c : Z) :
  0 <= c -> 0 <= k + c ->
  (scaled_ge num den k = true <-> den * 10 ^ (k + c) <= num * 10 ^ c).
Proof.
  intros. unfold scaled_ge. rewrite Z.leb_le. now apply scale_le_iff.
Qed.

(** [dec_exponent] brackets the ratio between consecutive powers of ten. *)
Lemma dec_exponent_spec (num den : Z) :
  0 < num -> 0 < den ->
  scaled_ge num den (dec_exponent num den) = true /\
  scaled_ge num den (dec_exponent num den + 1) = false.
Proof.
  intros Hn Hd. unfold dec_exponent.
  destruct (ndigits10_spec num Hn) as (Ha & Hnlo & Hnhi).
  destruct (ndigits10_spec den Hd) as (Hb & Hdlo & Hdhi).
  set (a := ndigits10 num) in *. set (b := ndigits10 den) in *.
  pose proof (pow10_pos (a - 1) ltac:(lia)) as HA.
  pose proof (pow10_pos (b - 1) ltac:(lia)) as HB.
  assert (Ea : 10 ^ a = 10 ^ (a - 1) * 10).
  { replace a with ((a - 1) + 1) at 1 by lia. now rewrite Z.pow_add_r by lia. }
  assert (Eb : 10 ^ b = 10 ^ (b - 1) * 10).
  { replace b with ((b - 1) + 1) at 1 by lia. now rewrite Z.pow_add_r by lia. }
  rewrite Ea in Hnhi. rewrite Eb in Hdhi.
  assert (Hup : scaled_ge num den (a - b + 1) = false).
  { apply not_true_is_false. rewrite (scaled_ge_iff _ _ _ b) by lia.
    replace (a - b + 1 + b) with ((a - 1) + 2) by lia.
    rewrite Z.pow_add_r, Eb by lia. change (10 ^ 2) with 100. nia. }
  assert (Hdown : scaled_ge num den (a - b - 1) = true).
  { rewrite (scaled_ge_iff _ _ _ (b + 1)) by lia.
    replace (a - b - 1 + (b + 1)) with a by lia.
    rewrite Ea. rewrite (Z.pow_add_r 10 b 1), Eb by lia. change (10 ^ 1) with 10. nia. }
  destruct (scaled_ge num den (a - b)) eqn:Hk.
  - split; [exact Hk | exact Hup].
  - split; [exact Hdown|]. replace (a - b - 1 + 1) with (a - b) by lia. exact Hk.
Qed.

Lemma round_half_even_bounds (num den : Z) :
  0 < den -> num / den <= round_half_even num den <= num / den + 1.
Proof.
  intros. unfold round_half_even.
  destruct (_ || _); lia.
Qed.

(** The rounded quotient is a nearest integer. *)
Lemma round_half_even_nearest (num den : Z) :
  0 < den -> Z.abs (2 * (round_half_even num den * den - num)) <= den.
Proof.
  intros Hd. unfold round_half_even.
  pose proof (Z.div_mod num den ltac:(lia)) as Hdm.
  pose proof (Z.mod_pos_bound num den Hd) as Hm.
  set (q := num / den) in *. set (r := num mod den) in *.
  destruct (Z.ltb_spec den (2 * r)); cbn [orb].
  - nia.
  - destruct (Z.eqb_spec (2 * r) den); cbn [andb].
    + destruct (Z.odd q); nia.
    + nia.
Qed.

(** The decimal significand has exactly [p + 1] digits. *)
Lemma sci_round_range (p : Z) (m : positive) (e : Z) :
  0 <= p -> 10 ^ p <= fst (sci_round p m e) < 10 ^ (p + 1).
Proof.
  intros Hp. unfold sci_round.
  set (num := Z.pos m * 2 ^ Z.max 0 e).
  set (den := 2 ^ Z.max 0 (- e)).
  assert (Hnum : 0 < num).
  { unfold num. apply Z.mul_pos_pos; [lia|]. apply Z.pow_pos_nonneg; lia. }
  assert (Hden : 0 < den) by (unfold den; apply Z.pow_pos_nonneg; lia).
  destruct (dec_exponent_spec num den Hnum Hden) as [Hlo Hhi].
  set (k := dec_exponent num den) in *.
  set (s := p - k).
  set (N := num * 10 ^ Z.max 0 s). set (D := den * 10 ^ Z.max 0 (- s)).
  assert (HD : 0 < D).
  { unfold D. apply Z.mul_pos_pos; [lia|]. apply pow10_pos. lia. }
  pose proof (pow10_pos p Hp) as Hpp.
  assert (Hpow : 10 ^ (p + 1) = 10 * 10 ^ p).
  { rewrite Z.pow_add_r by lia. change (10 ^ 1) with 10. lia. }
  set (c := Z.abs k + Z.abs s + p + 1).
  assert (HloD : 10 ^ p * D <= N).
  { unfold N, D.
    rewrite (scaled_ge_iff _ _ _ c) in Hlo by (unfold c; lia).
    replace (10 ^ p * (den * 10 ^ Z.max 0 (- s))) with ((den * 10 ^ p) * 10 ^ Z.max 0 (- s)) by ring.
    replace s with (- - s) at 2 by lia.
    apply (scale_le_iff _ _ _ (c - p)); [unfold c; lia | unfold c, s; lia |].
    replace (- s + (c - p)) with (k + c - p - p) by (unfold s; lia).
    replace (k + c) with (p + (k + c - p - p) + p) in Hlo by lia.
    replace c with ((c - p) + p) in Hlo at 2 by lia.
    rewrite !Z.pow_add_r in Hlo by (unfold c; lia).
    pose proof (pow10_pos (k + c - p - p) ltac:(unfold c; lia)).
    pose proof (pow10_pos (c - p) ltac:(unfold c; lia)). nia. }
  assert (HhiD : N < 10 ^ (p + 1) * D).
  { unfold N, D. apply Z.nle_gt. intros Hc.
    apply not_true_iff_false in Hhi. apply Hhi.
    rewrite (scaled_ge_iff _ _ _ c) by (unfold c; lia).
    replace (10 ^ (p + 1) * (den * 10 ^ Z.max 0 (- s)))
      with ((den * 10 ^ (p + 1)) * 10 ^ Z.max 0 (- s)) in Hc by ring.
    replace s with (- - s) in Hc at 2 by lia.
    apply (scale_le_iff _ _ _ (c - p)) in Hc; [| unfold c; lia | unfold c, s; lia].
    replace (- s + (c - p)) with (k + c - p - p) in Hc by (unfold s; lia).
    replace (k + 1 + c) with ((p + 1) + (k + c - p - p) + p) by lia.
    replace c with ((c - p) + p) at 2 by lia.
    rewrite !Z.pow_add_r by (unfold c; lia).
    rewrite !Z.pow_add_r in Hc by (unfold c; lia).
    pose proof (pow10_pos (k + c - p - p) ltac:(unfold c; lia)).
    pose proof (pow10_pos (c - p) ltac:(unfold c; lia)).
    change (10 ^ 1) with 10 in *. nia. }
  assert (Hq : 10 ^ p <= N / D < 10 ^ (p + 1)).
  { split.
    - apply Z.div_le_lower_bound; lia.
    - apply Z.div_lt_upper_bound; lia. }
  pose proof (round_half_even_bounds N D HD) as Hr.
  destruct (Z.eqb_spec (round_half_even N D) (10 ^ (p + 1))) as [Heq|Hne]; cbn [fst]; lia.
Qed.

End FormatArith.

(** ** Shape of the formatted numbers *)

Lemma app_String (c : ascii) (s t : string) : String c s +:+ t = String c (s +:+ t).
Proof. reflexivity. Qed.

Lemma app_empty (t : string) : EmptyString +:+ t = t.
Proof. reflexivity. Qed.

Ltac str_norm := repeat (rewrite app_String || rewrite app_empty).

Section FormatShape.
Import Format.

Lemma is_digit_digit_char (d : Z) : 0 <= d < 10 -> is_digit (digit_char d) = true.
Proof.
  intros Hd. unfold digit_char.
  assert (Hn : (Z.to_nat d < 10)%nat) by lia.
  destruct (Z.to_nat d) as [|[|[|[|[|[|[|[|[|[|n]]]]]]]]]]; try reflexivity; lia.
Qed.

Lemma is_digit_mod10 (v : Z) : is_digit (digit_char (v mod 10)) = true.
Proof. apply is_digit_digit_char. apply Z.mod_pos_bound. lia. Qed.

Lemma digit_char_not_newline (v : Z) : Ascii.eqb (digit_char (v mod 10)) newline = false.
Proof.
  pose proof (is_digit_mod10 v) as H.
  destruct (Ascii.eqb_spec (digit_char (v mod 10)) newline) as [E|]; [|reflexivity].
  rewrite E in H. discriminate.
Qed.

Lemma digit_char_not_e (v : Z) : Ascii.eqb (digit_char (v mod 10)) "e" = false.
Proof.
  pose proof (is_digit_mod10 v) as H.
  destruct (Ascii.eqb_spec (digit_char (v mod 10)) "e") as [E|]; [|reflexivity].
  rewrite E in H. discriminate.
Qed.

Lemma take_digits_dec_digits (n : nat) (v : Z) (rest : string) :
  take_digits n (dec_digits n v +:+ rest) = Some rest.
Proof.
  induction n as [|n IH]; [reflexivity|].
  cbn [dec_digits]. rewrite app_String. cbn [take_digits].
  now rewrite is_digit_mod10.
Qed.

Lemma all_digits_dec_digits (n : nat) (v : Z) : all_digits (dec_digits n v) = true.
Proof.
  induction n as [|n IH]; [reflexivity|].
  cbn [dec_digits all_digits]. now rewrite is_digit_mod10.
Qed.

Lemma length_dec_digits (n : nat) (v : Z) : String.length (dec_digits n v) = n.
Proof. induction n as [|n IH]; [reflexivity|]. cbn [dec_digits String.length]. now rewrite IH. Qed.

Lemma significant_digits_dec_digits (n : nat) (v : Z) (rest : string) :
  significant_digits (dec_digits n v +:+ String "e" rest) = n.
Proof.
  induction n as [|n IH]; [reflexivity|].
  cbn [dec_digits]. rewrite app_String. cbn [significant_digits].
  now rewrite digit_char_not_e, is_digit_mod10, IH.
Qed.

Lemma no_newline_app (s t : string) :
  no_newline (s +:+ t) = no_newline s && no_newline t.
Proof.
  induction s as [|c s IH]; [reflexivity|].
  rewrite app_String. cbn [no_newline]. rewrite IH. now rewrite andb_assoc.
Qed.

Lemma no_newline_dec_digits (n : nat) (v : Z) : no_newline (dec_digits n v) = true.
Proof.
  induction n as [|n IH]; [reflexivity|].
  cbn [dec_digits no_newline]. now rewrite digit_char_not_newline, IH.
Qed.

Lemma exp_string_shape (k : Z) :
  exists sg ex, exp_string k = String sg ex /\ is_sign sg = true /\
                all_digits ex = true /\ (2 <=? String.length ex)%nat = true /\
                no_newline (exp_string k) = true.
Proof.
  unfold exp_string. eexists _, _. split; [reflexivity|].
  rewrite all_digits_dec_digits, length_dec_digits.
  cbn [no_newline]. rewrite no_newline_dec_digits.
  repeat split.
  - now destruct (k <? 0).
  - apply Nat.leb_le. lia.
  - now destruct (k <? 0).
Qed.

Lemma digit_not_minus (d : ascii) (r : string) :
  is_digit d = true -> strip_minus (String d r) = String d r.
Proof.
  intros H. destruct d as [[] [] [] [] [] [] [] []]; try reflexivity; discriminate H.
Qed.

Lemma sci_shape_parts (p : nat) (s : bool) (n k : Z) :
  sci_shape p (sign_string s +:+ mantissa_string p n +:+ "e" +:+ exp_string k) = true.
Proof.
  destruct (exp_string_shape k) as (sg & ex & -> & Hsg & Hex & Hlen & _).
  assert (Hd : is_digit (digit_char ((n / 10 ^ Z.of_nat p) mod 10)) = true)
    by apply is_digit_mod10.
  assert (H : strip_minus (sign_string s +:+ mantissa_string p n +:+ "e" +:+ String sg ex)
              = mantissa_string p n +:+ "e" +:+ String sg ex).
  { destruct s; cbn [sign_string]; rewrite ?app_String, ?app_empty; [reflexivity|].
    unfold mantissa_string. rewrite app_String. now apply digit_not_minus. }
  unfold sci_shape. rewrite H. unfold mantissa_string.
  str_norm. rewrite Hd, take_digits_dec_digits.
  now rewrite Hsg, Hex, Hlen.
Qed.

Lemma significant_digits_parts (p : nat) (s : bool) (n k : Z) :
  significant_digits (sign_string s +:+ mantissa_string p n +:+ "e" +:+ exp_string k) = S p.
Proof.
  assert (H : significant_digits (mantissa_string p n +:+ "e" +:+ exp_string k) = S p).
  { unfold mantissa_string. str_norm.
    cbn [significant_digits]. rewrite digit_char_not_e, is_digit_mod10.
    change (Ascii.eqb "." "e") with false. change (is_digit ".") with false.
    cbv iota. now rewrite significant_digits_dec_digits. }
  destruct s; cbn [sign_string]; rewrite ?app_String, ?app_empty; [|exact H].
  cbn [significant_digits]. change (Ascii.eqb "-" "e") with false.
  change (is_digit "-") with false. cbv iota. exact H.
Qed.

Lemma leading_digit_parts (p : nat) (s : bool) (n k : Z) :
  leading_digit (sign_string s +:+ mantissa_string p n +:+ "e" +:+ exp_string k)
  = Some (digit_char ((n / 10 ^ Z.of_nat p) mod 10)).
Proof.
  assert (Hd : is_digit (digit_char ((n / 10 ^ Z.of_nat p) mod 10)) = true)
    by apply is_digit_mod10.
  unfold leading_digit, mantissa_string.
  destruct s; cbn [sign_string]; rewrite ?app_String, ?app_empty.
  - reflexivity.
  - now rewrite digit_not_minus.
Qed.

Lemma no_newline_parts (p : nat) (s : bool) (n k : Z) :
  no_newline (sign_string s +:+ mantissa_string p n +:+ "e" +:+ exp_string k) = true.
Proof.
  destruct (exp_string_shape k) as (sg & ex & _ & _ & _ & _ & Hnl).
  rewrite !no_newline_app, Hnl. unfold mantissa_string.
  cbn [no_newline]. rewrite digit_char_not_newline.
  rewrite (app_String "."), app_empty. cbn [no_newline].
  rewrite no_newline_dec_digits. now destruct s.
Qed.

End FormatShape.

(** ** The [.16e] presentation, for every value *)

Section FormatValues.
Import Format.

Lemma format_e_finite (p : nat) (x : f64) :
  Float64.is_finite x = true ->
  exists s n k, format_e p x = sign_string s +:+ mantissa_string p n +:+ "e" +:+ exp_string k.
Proof.
  destruct x as [s|s| |s m e]; cbn [Float64.is_finite format_e]; try discriminate; intros _.
  - now exists s, 0, 0.
  - destruct (sci_round (Z.of_nat p) m e) as [n k]. now exists s, n, k.
Qed.

Lemma format_e_shape (p : nat) (x : f64) :
  Float64.is_finite x = true ->
  sci_shape p (format_e p x) = true /\ significant_digits (format_e p x) = S p.
Proof.
  intros H. destruct (format_e_finite p x H) as (s & n & k & ->).
  split; [apply sci_shape_parts | apply significant_digits_parts].
Qed.

Lemma format_e_not_finite (p : nat) (x : f64) :
  Float64.is_finite x = false ->
  format_e p x = "nan" \/ format_e p x = "inf" \/ format_e p x = "-inf".
Proof.
  destruct x as [s|s| |s m e]; cbn [Float64.is_finite format_e]; try discriminate; intros _.
  - destruct s; auto.
  - auto.
Qed.

Lemma format_e_no_newline (p : nat) (x : f64) : no_newline (format_e p x) = true.
Proof.
  destruct (Float64.is_finite x) eqn:H.
  - destruct (format_e_finite p x H) as (s & n & k & ->). apply no_newline_parts.
  - destruct (format_e_not_finite p x H) as [-> | [-> | ->]]; reflexivity.
Qed.

Lemma digit_char_zero_iff (d : Z) : 0 <= d < 10 -> digit_char d = "0"%char -> d = 0.
Proof.
  intros Hd. unfold digit_char.
  assert (Hn : (Z.to_nat d < 10)%nat) by lia.
  destruct (Z.to_nat d) as [|[|[|[|[|[|[|[|[|[|n]]]]]]]]]] eqn:E;
    try discriminate; try lia.
Qed.

(** Scientific notation is normalised: the digit before the point of a
    non-zero value is not [0]. *)
Lemma format_e_leading_digit (p : nat) (s : bool) (m : positive) (e : Z) :
  exists d, leading_digit (format_e p (S754_finite s m e)) = Some d /\
            is_digit d = true /\ d <> "0"%char.
Proof.
  cbn [format_e].
  pose proof (sci_round_range (Z.of_nat p) m e ltac:(lia)) as Hr.
  destruct (sci_round (Z.of_nat p) m e) as [n k]. cbn [fst] in Hr.
  rewrite leading_digit_parts. eexists. split; [reflexivity|].
  split; [apply is_digit_mod10|].
  intros Hz. apply digit_char_zero_iff in Hz; [|apply Z.mod_pos_bound; lia].
  pose proof (pow10_pos (Z.of_nat p) ltac:(lia)) as Hp.
  assert (Hq : 1 <= n / 10 ^ Z.of_nat p < 10).
  { split.
    - apply Z.div_le_lower_bound; lia.
    - apply Z.div_lt_upper_bound; [lia|].
      rewrite Z.pow_add_r in Hr by lia. change (10 ^ 1) with 10 in Hr. lia. }
  rewrite Z.mod_small in Hz by lia. lia.
Qed.

Lemma format_e16_no_newline (v : scalar) : no_newline (format_e16 v) = true.
Proof. apply format_e_no_newline. Qed.

End FormatValues.

(** The conversions on values whose binary64 form and whose [.16e] text
    are known. *)
Example of_decimal_tenth :
  Float64.of_decimal 1 1 = S754_finite false 7205759403792794 (-56).
Proof. vm_compute. reflexivity. Qed.

Example format_e16_examples :
  map format_e16
      [ SFloat (Float64.of_decimal 1 1);
        SFloat (S754_finite false 1 (-1074));
        SFloat (Float64.of_Z (10 ^ 100));
        SFloat (S754_zero true);
        SFloat (Float64.of_decimal 3141592653589793 15);
        SInt 8;
        SInt (- 2 ^ 63) ]
  = [ "1.0000000000000001e-01";
      "4.9406564584124654e-324";
      "1.0000000000000000e+100";
      "-0.0000000000000000e+00";
      "3.1415926535897931e+00";
      "8.0000000000000000e+00";
      "-9.2233720368547758e+18" ].
Proof. vm_compute. reflexivity. Qed.

(** ** What the serializers write *)

Section Serializers.

Lemma str_app_nil_r (s : string) : s +:+ EmptyString = s.
Proof. induction s as [|c s IH]; [reflexivity|]. rewrite app_String. now rewrite IH. Qed.

Lemma str_app_assoc (s t u : string) : (s +:+ t) +:+ u = s +:+ (t +:+ u).
Proof. induction s as [|c s IH]; [reflexivity|]. rewrite !app_String. now rewrite IH. Qed.

Lemma for_each_f_write {A} (xs : list A) (path : string) (g : A -> string) (w : world) :
  for_each xs (fun x => f_write path (g x)) w =
  (Ok tt, {| files := alter (fun c => c +:+ concat_text (map g xs)) path (files w);
             opened := opened w;
             stdout := stdout w |}).
Proof.
  revert w. induction xs as [|x xs IH]; intros w.
  - cbn [for_each ret map concat_text]. destruct w as [fs op out]. cbn [files opened stdout].
    rewrite alter_id; [reflexivity|]. intros c _. apply str_app_nil_r.
  - cbn [for_each map concat_text]. unfold bind at 1. unfold f_write at 1.
    rewrite IH. cbn [files opened stdout]. rewrite alter_alter_eq.
    do 2 f_equal. apply alter_ext. intros c _. cbn. apply str_app_assoc.
Qed.

Lemma f_write_eq (path s : string) (w : world) :
  f_write path s w =
  (Ok tt, {| files := alter (fun c => c +:+ s) path (files w);
             opened := opened w; stdout := stdout w |}).
Proof. reflexivity. Qed.

(** The common body of the three serializers. *)
Lemma serializer_eq {A} (data : list A) (g : A -> string)
      (path : string) (header : option string) (msg : string) (w : world) :
  (open_w path ;;
   (if truthy header then f_write path ("# " +:+ header_text header +:+ nl) else ret tt) ;;
   for_each data (fun x => f_write path (g x)) ;;
   print msg)%py w
  = (Ok tt, {| files := <[path := header_line header +:+ concat_text (map g data)]> (files w);
               opened := opened w ++ [path];
               stdout := stdout w ++ [msg] |}).
Proof.
  unfold bind, open_w, header_line.
  destruct (truthy header).
  - rewrite f_write_eq. cbv beta iota. rewrite for_each_f_write.
    unfold print. cbn [files opened stdout].
    now rewrite alter_alter_eq, alter_insert_eq.
  - unfold ret. rewrite for_each_f_write.
    unfold print. cbn [files opened stdout].
    now rewrite alter_insert_eq.
Qed.

Lemma basic_save_vector_eq data filename header w :
  Basic.save_vector data filename header w =
  (Ok tt, {| files := <[path_join Basic.output_dir filename := vector_text data header]> (files w);
             opened := opened w ++ [path_join Basic.output_dir filename];
             stdout := stdout w ++ ["Generated: " +:+ filename] |}).
Proof. apply (serializer_eq data (fun value => format_e16 value +:+ nl)). Qed.

Lemma save_vector_eq data filename header w :
  Full.save_vector data filename header w =
  (Ok tt, {| files := <[path_join Full.output_dir filename := vector_text data header]> (files w);
             opened := opened w ++ [path_join Full.output_dir filename];
             stdout := stdout w ++ ["Generated: " +:+ filename] |}).
Proof. apply (serializer_eq data (fun value => format_e16 value +:+ nl)). Qed.

Lemma save_matrix_eq data filename header w :
  Full.save_matrix data filename header w =
  (Ok tt, {| files := <[path_join Full.output_dir filename := matrix_text data header]> (files w);
             opened := opened w ++ [path_join Full.output_dir filename];
             stdout := stdout w ++ ["Generated: " +:+ filename] |}).
Proof. apply (serializer_eq data (fun row => join " " (map format_e16 row) +:+ nl)). Qed.

Lemma save_complex_matrix_eq data filename header w :
  Full.save_complex_matrix data filename header w =
  (Ok tt, {| files := <[path_join Full.output_dir filename := complex_matrix_text data header]> (files w);
             opened := opened w ++ [path_join Full.output_dir filename];
             stdout := stdout w ++ ["Generated: " +:+ filename] |}).
Proof. apply (serializer_eq data (fun row => join " " (map Full.format_complex row) +:+ nl)). Qed.

(** The two scripts define the same [save_vector]. *)
Lemma save_vector_same : Basic.save_vector = Full.save_vector.
Proof. reflexivity. Qed.

End Serializers.

(** ** Lines of the written files *)

Section Lines.

Lemma lines_line (l rest : string) :
  no_newline l = true -> lines (l +:+ nl +:+ rest) = l :: lines rest.
Proof.
  induction l as [|c l IH]; intros H.
  - reflexivity.
  - cbn [no_newline] in H. apply andb_true_iff in H as [Hc Hl].
    rewrite app_String. cbn [lines].
    apply negb_true_iff in Hc. rewrite Hc, (IH Hl). reflexivity.
Qed.

Lemma lines_concat_text (ls : list string) :
  Forall (fun l => no_newline l = true) ls ->
  lines (concat_text (map (fun l => l +:+ nl) ls)) = ls.
Proof.
  induction 1 as [|l ls Hl _ IH]; [reflexivity|].
  cbn [map concat_text]. rewrite str_app_assoc, lines_line by exact Hl.
  now rewrite IH.
Qed.

Lemma lines_vector_text (data : list scalar) (header : option string) :
  no_newline (header_text header) = true ->
  lines (vector_text data header) =
  (if truthy header then ["# " +:+ header_text header] else []) ++ map format_e16 data.
Proof.
  intros Hh. unfold vector_text, header_line.
  assert (Hd : lines (concat_text (map (fun value => format_e16 value +:+ nl) data))
               = map format_e16 data).
  { rewrite <- (lines_concat_text (map format_e16 data)).
    - now rewrite map_map.
    - apply Forall_forall. intros l Hin.
      apply list_elem_of_In, in_map_iff in Hin as (v & <- & _).
      apply format_e16_no_newline. }
  destruct (truthy header).
  - rewrite !str_app_assoc. rewrite <- (str_app_assoc "# ").
    rewrite lines_line; [now rewrite Hd|].
    rewrite no_newline_app. now rewrite Hh.
  - now rewrite app_empty, Hd.
Qed.

End Lines.

(** ** The serializers: claims C1 and C2 *)

(** C1, as the code has it: every number written by [save_vector],
    [save_matrix] or [save_complex_matrix] is the [.16e] text of the value.
    For every integer that converts to a float and for every finite float
    that text is an optional minus sign, one digit, a point, sixteen
    digits, a lowercase [e], an exponent sign and at least two exponent
    digits, hence seventeen significant digits; a float that is not finite
    is written [nan], [inf] or [-inf].  Given data that converts and the
    name of a file of the output directory, the three serializers write
    the header line and then these texts, one element per line for a
    vector, space-separated per row for a matrix, and [real,imag] pairs
    for a complex matrix. *)
Theorem number_text_scientific_17_digits (v : scalar) (data : list scalar)
        (rows : list (list scalar)) (cells : list (list complex))
        (filename : string) (header : option string) (w : world) :
  converts v = true ->
  Forall (fun x => converts x = true) data ->
  Forall (Forall (fun x => converts x = true)) rows ->
  plain_name filename = true ->
  match v with
  | SInt _ =>
      sci_shape 16 (format_e16 v) = true /\
      significant_digits (format_e16 v) = 17%nat
  | SFloat x =>
      if Float64.is_finite x
      then sci_shape 16 (format_e16 v) = true /\
           significant_digits (format_e16 v) = 17%nat
      else In (format_e16 v) ["nan"; "inf"; "-inf"]
  end /\
  files (snd (Basic.save_vector data filename header w))
    !! path_join Basic.output_dir filename
  = Some (header_line header +:+
          concat_text (map (fun v => format_e16 v +:+ nl) data)) /\
  files (snd (Full.save_vector data filename header w))
    !! path_join Full.output_dir filename
  = Some (header_line header +:+
          concat_text (map (fun v => format_e16 v +:+ nl) data)) /\
  files (snd (Full.save_matrix rows filename header w))
    !! path_join Full.output_dir filename
  = Some (header_line header +:+
          concat_text (map (fun row => join " " (map format_e16 row) +:+ nl) rows)) /\
  files (snd (Full.save_complex_matrix cells filename header w))
    !! path_join Full.output_dir filename
  = Some (header_line header +:+
          concat_text (map (fun row =>
            join " " (map (fun z => format_e16 (SFloat (re z)) +:+ "," +:+
                                    format_e16 (SFloat (im z))) row) +:+ nl) cells)).
Proof.
  intros Hv _ _ _. split; [|repeat split].
  - assert (Hshape : if Float64.is_finite (to_float v)
                     then sci_shape 16 (format_e16 v) = true /\
                          significant_digits (format_e16 v) = 17%nat
                     else In (format_e16 v) ["nan"; "inf"; "-inf"]).
    { unfold format_e16. destruct (Float64.is_finite (to_float v)) eqn:H.
      - apply (format_e_shape 16 _ H).
      - destruct (format_e_not_finite 16 _ H) as [-> | [-> | ->]]; cbn; auto. }
    destruct v as [z|x].
    + cbn [converts] in Hv. cbn [to_float] in Hshape. now rewrite Hv in Hshape.
    + exact Hshape.
  - rewrite basic_save_vector_eq. cbn [snd files]. apply lookup_insert_eq.
  - rewrite save_vector_eq. cbn [snd files]. apply lookup_insert_eq.
  - rewrite save_matrix_eq. cbn [snd files]. apply lookup_insert_eq.
  - rewrite save_complex_matrix_eq. cbn [snd files]. apply lookup_insert_eq.
Qed.

Lemma number_text_scientific_17_digits_witness :
  format_e16 (SInt 3) = "3.0000000000000000e+00" /\
  sci_shape 16 (format_e16 (SInt 3)) = true /\
  significant_digits (format_e16 (SInt 3)) = 17%nat /\
  files (snd (Full.save_matrix [[SInt 1; SFloat (Float64.of_Z 2)]] "m.txt" (Some "M")
                (initial ∅)))
    !! path_join Full.output_dir "m.txt"
  = Some (header_line (Some "M") +:+
          concat_text (map (fun row => join " " (map format_e16 row) +:+ nl)
                           [[SInt 1; SFloat (Float64.of_Z 2)]])).
Proof.
  destruct (number_text_scientific_17_digits
              (SInt 3) [SInt 1; SFloat (Float64.of_Z 2)]
              [[SInt 1; SFloat (Float64.of_Z 2)]]
              [[Complex (Float64.of_Z 1) (Float64.of_Z 2)]]
              "m.txt" (Some "M") (initial ∅))
    as ((Hshape & Hdigits) & _ & _ & Hmatrix & _).
  - reflexivity.
  - repeat constructor.
  - repeat constructor.
  - reflexivity.
  - split; [vm_compute; reflexivity|]. split; [exact Hshape|]. split; [exact Hdigits|].
    exact Hmatrix.
Defined.

(** C1 as stated fails: the text of [1.0] carries seventeen significant
    digits, not sixteen, and neither a negative coefficient nor a value
    with a three-digit exponent matches [d.dddddddddddddddde±dd]. *)
Lemma number_text_not_16_digits :
  format_e16 (SFloat (Float64.of_Z 1)) = "1.0000000000000000e+00" /\
  significant_digits (format_e16 (SFloat (Float64.of_Z 1))) <> 16%nat /\
  format_e16 (SFloat (Float64.of_Z (-1) / Basic.sqrt2)%f64) = "-7.0710678118654746e-01" /\
  spec_pattern (format_e16 (SFloat (Float64.of_Z (-1) / Basic.sqrt2)%f64)) = false /\
  format_e16 (SFloat (Float64.of_decimal 1 100)) = "1.0000000000000000e-100" /\
  spec_pattern (format_e16 (SFloat (Float64.of_decimal 1 100))) = false.
Proof. vm_compute. repeat split; congruence. Qed.

(** C2, as the code has it: for data that converts, a header without
    line break and the name of a file of the output directory, the file
    written by [save_vector] has one line per element, in order, after one
    line [# header] when the header is neither absent nor empty. *)
Theorem save_vector_lines (data : list scalar) (filename : string)
        (header : option string) (w : world) :
  Forall (fun x => converts x = true) data ->
  plain_name filename = true ->
  no_newline (header_text header) = true ->
  exists text,
    files (snd (Basic.save_vector data filename header w))
      !! path_join Basic.output_dir filename = Some text /\
    files (snd (Full.save_vector data filename header w))
      !! path_join Full.output_dir filename = Some text /\
    lines text =
      (if truthy header then ["# " +:+ header_text header] else []) ++ map format_e16 data /\
    length (drop (if truthy header then 1 else 0)%nat (lines text)) = length data.
Proof.
  intros _ _ Hh. exists (vector_text data header).
  rewrite basic_save_vector_eq, save_vector_eq. cbn [snd files].
  rewrite !lookup_insert_eq, (lines_vector_text _ _ Hh).
  repeat split. destruct (truthy header); cbn [app drop]; now rewrite ?drop_0, length_map.
Qed.

Lemma save_vector_lines_witness :
  exists text,
    files (snd (Basic.save_vector [SInt 1; SFloat (Float64.of_Z 2)]
                  "v.txt" (Some "Two values") (initial ∅)))
      !! path_join Basic.output_dir "v.txt" = Some text /\
    files (snd (Full.save_vector [SInt 1; SFloat (Float64.of_Z 2)]
                  "v.txt" (Some "Two values") (initial ∅)))
      !! path_join Full.output_dir "v.txt" = Some text /\
    lines text =
      ["# Two values"] ++
      map format_e16 [SInt 1; SFloat (Float64.of_Z 2)] /\
    length (drop 1 (lines text)) = 2%nat.
Proof.
  apply (save_vector_lines [SInt 1; SFloat (Float64.of_Z 2)]
           "v.txt" (Some "Two values") (initial ∅)).
  - repeat constructor.
  - reflexivity.
  - reflexivity.
Defined.

(** C2 as stated fails for a header that is given but empty, which
    [if header:] treats as absent: no [# ] line is written; and a header
    with a line break yields two header lines. *)
Lemma save_vector_empty_header_no_line :
  files (snd (Basic.save_vector [SFloat (Float64.of_Z 1)] "v.txt" (Some "") (initial ∅)))
    !! path_join Basic.output_dir "v.txt"
  = Some ("1.0000000000000000e+00" +:+ nl) /\
  lines ("1.0000000000000000e+00" +:+ nl) = ["1.0000000000000000e+00"] /\
  lines ("1.0000000000000000e+00" +:+ nl) <> ["# "; "1.0000000000000000e+00"] /\
  (exists text,
     files (snd (Basic.save_vector [SFloat (Float64.of_Z 1)] "v.txt"
                   (Some ("a" +:+ nl +:+ "b")) (initial ∅)))
       !! path_join Basic.output_dir "v.txt" = Some text /\
     lines text = ["# a"; "b"; "1.0000000000000000e+00"]).
Proof.
  split; [|split; [|split]].
  - rewrite basic_save_vector_eq. cbn [snd files]. now rewrite lookup_insert_eq.
  - reflexivity.
  - discriminate.
  - eexists. rewrite basic_save_vector_eq. cbn [snd files].
    rewrite lookup_insert_eq. split; [reflexivity|]. vm_compute. reflexivity.
Qed.

(** ** Effects of a run, independently of the initial world *)

Section Traces.

Lemma replay_app (t1 t2 : list event) (w : world) :
  replay (t1 ++ t2) w = replay t2 (replay t1 w).
Proof. apply fold_left_app. Qed.

Lemma opens_app (t1 t2 : list event) : opens (t1 ++ t2) = opens t1 ++ opens t2.
Proof. apply omap_app. Qed.

Lemma touched_app (t1 t2 : list event) : touched (t1 ++ t2) = touched t1 ++ touched t2.
Proof. apply omap_app. Qed.

Lemma opened_replay (t : list event) (w : world) :
  opened (replay t w) = opened w ++ opens t.
Proof.
  revert w. induction t as [|ev t IH]; intros w.
  - cbn. now rewrite app_nil_r.
  - cbn [replay fold_left]. fold (replay t (step_event w ev)). rewrite IH.
    destruct ev; cbn; now rewrite <- ?app_assoc.
Qed.

Lemma files_replay (t : list event) (w : world) (p : string) :
  files (replay t w) !! p = file_after t p (files w !! p).
Proof.
  revert w. induction t as [|ev t IH]; intros w; [reflexivity|].
  cbn [replay file_after fold_left]. fold (replay t (step_event w ev)).
  fold (file_after t p (file_step p (files w !! p) ev)). rewrite IH. f_equal.
  destruct ev as [q|q s|s|f]; cbn; try reflexivity.
  - destruct (String.eqb_spec q p) as [->|Hne].
    + apply lookup_insert_eq.
    + now apply lookup_insert_ne.
  - destruct (String.eqb_spec q p) as [->|Hne].
    + apply lookup_alter_eq.
    + now apply lookup_alter_ne.
Qed.

(** A path opened during the run has a content that does not depend on
    what the directory held before. *)
Lemma file_after_opened (t : list event) (p : string) (o o' : option string) :
  p ∈ opens t -> file_after t p o = file_after t p o'.
Proof.
  revert o o'. induction t as [|ev t IH]; intros o o' Hin.
  - cbn in Hin. now apply elem_of_nil in Hin.
  - cbn [file_after fold_left]. fold (file_after t p (file_step p o ev)).
    fold (file_after t p (file_step p o' ev)).
    destruct ev as [q|q s|s|f]; cbn [opens omap] in Hin; fold (opens t) in Hin;
      cbn [file_step]; try (now apply IH).
    apply elem_of_cons in Hin as [->|Hin].
    + now rewrite String.eqb_refl.
    + destruct (String.eqb q p); [reflexivity | now apply IH].
Qed.

(** A path the run does not touch keeps its content. *)
Lemma file_after_untouched (t : list event) (p : string) (o : option string) :
  p ∉ touched t -> file_after t p o = o.
Proof.
  revert o. induction t as [|ev t IH]; intros o Hnin; [reflexivity|].
  cbn [file_after fold_left]. fold (file_after t p (file_step p o ev)).
  destruct ev as [q|q s|s|f]; cbn [touched omap] in Hnin; fold (touched t) in Hnin;
    cbn [file_step]; try (now apply IH).
  - apply not_elem_of_cons in Hnin as [Hne Hnin].
    destruct (String.eqb_spec q p) as [->|_]; [congruence | now apply IH].
  - apply not_elem_of_cons in Hnin as [Hne Hnin].
    destruct (String.eqb_spec q p) as [->|_]; [congruence | now apply IH].
Qed.

Lemma traced_ret {A} (a : A) : traced (ret a) [] [].
Proof. exists (Ok a), []. repeat split; [apply sublist_nil_l | done]. Qed.

Lemma traced_raise {A} (e : exn) : traced (@raise A e) [] [].
Proof. exists (Raise e), []. repeat split; [apply sublist_nil_l | done]. Qed.

Lemma traced_lift {A} (r : result A) : traced (lift r) [] [].
Proof. exists r, []. repeat split; [apply sublist_nil_l | done]. Qed.

Lemma traced_print (s : string) : traced (print s) [] [].
Proof. exists (Ok tt), [EPrint s]. repeat split; [apply sublist_nil_l | done]. Qed.

Lemma traced_open_w (p : string) : traced (open_w p) [p] [p].
Proof. exists (Ok tt), [EOpen p]. repeat split; done. Qed.

Lemma traced_f_write (p s : string) : traced (f_write p s) [] [p].
Proof. exists (Ok tt), [EWrite p s]. repeat split; [apply sublist_nil_l | done]. Qed.

Lemma traced_listdir_print (f : nat -> string) :
  traced (n <- listdir_len ;; print (f n)) [] [].
Proof. exists (Ok tt), [EPrintCount f]. repeat split; [apply sublist_nil_l | done]. Qed.

Lemma traced_ext {A} (m m' : M A) (Lo Lw : list string) :
  (forall w, m w = m' w) -> traced m Lo Lw -> traced m' Lo Lw.
Proof.
  intros He (r & t & Hm & Ho & Hw). exists r, t. repeat split; [|exact Ho|exact Hw].
  intros w. now rewrite <- He.
Qed.

Lemma traced_weaken {A} (m : M A) (Lo Lw Lo' Lw' : list string) :
  traced m Lo Lw -> Lo `sublist_of` Lo' -> Lw ⊆ Lw' -> traced m Lo' Lw'.
Proof.
  intros (r & t & Hm & Ho & Hw) HLo HLw. exists r, t. repeat split; [exact Hm| |].
  - now transitivity Lo.
  - now transitivity Lw.
Qed.

Lemma traced_bind {A B} (m : M A) (k : A -> M B) (Lo1 Lw1 Lo2 Lw2 : list string) :
  traced m Lo1 Lw1 -> (forall a, traced (k a) Lo2 Lw2) ->
  traced (bind m k) (Lo1 ++ Lo2) (Lw1 ++ Lw2).
Proof.
  intros (r1 & t1 & Hm & Ho1 & Hw1) Hk. destruct r1 as [a|e].
  - destruct (Hk a) as (r2 & t2 & Hka & Ho2 & Hw2).
    exists r2, (t1 ++ t2). repeat split.
    + intros w. unfold bind. now rewrite Hm, Hka, replay_app.
    + rewrite opens_app. now apply sublist_app.
    + rewrite touched_app. intros x Hx. apply elem_of_app in Hx as [Hx|Hx];
        apply elem_of_app; [left; now apply Hw1 | right; now apply Hw2].
  - exists (Raise e), t1. repeat split.
    + intros w. unfold bind. now rewrite Hm.
    + now apply sublist_inserts_r.
    + intros x Hx. apply elem_of_app. left. now apply Hw1.
Qed.

Lemma traced_listdir_print_then {B} (f : nat -> string) (rest : M B) (Lo Lw : list string) :
  traced rest Lo Lw -> traced (n <- listdir_len ;; print (f n) ;; rest) Lo Lw.
Proof.
  intros Hr.
  apply (traced_ext (bind (n <- listdir_len ;; print (f n)) (fun _ => rest))); [reflexivity|].
  apply (traced_bind _ _ [] [] Lo Lw); [apply traced_listdir_print | intros _; exact Hr].
Qed.

(** The continuation of a library call only matters for the value the
    call returns. *)
Lemma traced_bind_lift {A B} (r : result A) (k : A -> M B) (Lo Lw : list string) :
  (forall a, r = Ok a -> traced (k a) Lo Lw) -> traced (bind (lift r) k) Lo Lw.
Proof.
  intros Hk. destruct r as [a|e].
  - destruct (Hk a eq_refl) as (r2 & t2 & Hka & Ho2 & Hw2).
    exists r2, t2. repeat split; [|exact Ho2|exact Hw2].
    intros w. unfold bind, lift. apply Hka.
  - exists (Raise e), []. repeat split; [apply sublist_nil_l |].
    intros x Hx. now apply elem_of_nil in Hx.
Qed.

Lemma traced_try_except {A} (m : M A) (handler : exn -> option (M A))
      (Lo1 Lw1 Lo2 Lw2 : list string) :
  traced m Lo1 Lw1 ->
  (forall e h, handler e = Some h -> traced h Lo2 Lw2) ->
  traced (try_except m handler) (Lo1 ++ Lo2) (Lw1 ++ Lw2).
Proof.
  intros (r1 & t1 & Hm & Ho1 & Hw1) Hh.
  assert (Hleft : forall r, (forall w, try_except m handler w = (r, replay t1 w)) ->
                            traced (try_except m handler) (Lo1 ++ Lo2) (Lw1 ++ Lw2)).
  { intros r Hr. exists r, t1. repeat split; [exact Hr| |].
    - now apply sublist_inserts_r.
    - intros x Hx. apply elem_of_app. left. now apply Hw1. }
  destruct r1 as [a|e].
  - apply (Hleft (Ok a)). intros w. unfold try_except. now rewrite Hm.
  - destruct (handler e) as [h|] eqn:He.
    + destruct (Hh e h He) as (r2 & t2 & Hha & Ho2 & Hw2).
      exists r2, (t1 ++ t2). repeat split.
      * intros w. unfold try_except. now rewrite Hm, He, Hha, replay_app.
      * rewrite opens_app. now apply sublist_app.
      * rewrite touched_app. intros x Hx. apply elem_of_app in Hx as [Hx|Hx];
          apply elem_of_app; [left; now apply Hw1 | right; now apply Hw2].
    + apply (Hleft (Raise e)). intros w. unfold try_except. now rewrite Hm, He.
Qed.

Lemma traced_for_each {A} (xs : list A) (body : A -> M unit)
      (names wnames : A -> list string) :
  (forall x, x ∈ xs -> traced (body x) (names x) (wnames x)) ->
  traced (for_each xs body) (flat_map names xs) (flat_map wnames xs).
Proof.
  induction xs as [|x xs IH]; intros Hb.
  - apply traced_ret.
  - cbn [for_each flat_map]. apply traced_bind.
    + apply Hb. now left.
    + intros _. apply IH. intros y Hy. apply Hb. now right.
Qed.

Lemma traced_for_each_f_write {A} (xs : list A) (p : string) (g : A -> string) :
  traced (for_each xs (fun x => f_write p (g x))) [] [p].
Proof.
  exists (Ok tt), [EWrite p (concat_text (map g xs))].
  repeat split; [|apply sublist_nil_l|done].
  intros w. now rewrite for_each_f_write.
Qed.

(** Each serializer opens and touches its own path only. *)
Lemma traced_serializer {A} (data : list A) (g : A -> string)
      (path : string) (header : option string) (msg : string) :
  traced (open_w path ;;
          (if truthy header then f_write path ("# " +:+ header_text header +:+ nl) else ret tt) ;;
          for_each data (fun x => f_write path (g x)) ;;
          print msg)%py [path] [path].
Proof.
  exists (Ok tt),
    [EOpen path; EWrite path (header_line header +:+ concat_text (map g data)); EPrint msg].
  repeat split; [|done|].
  - intros w. rewrite serializer_eq. cbn. do 2 f_equal.
    rewrite alter_insert_eq. reflexivity.
  - intros x Hx. cbn in Hx. apply elem_of_cons in Hx as [->|Hx]; [now left|].
    apply elem_of_cons in Hx as [->|Hx]; [now left|]. now apply elem_of_nil in Hx.
Qed.

Lemma traced_basic_save_vector data filename header :
  traced (Basic.save_vector data filename header)
         [path_join Basic.output_dir filename] [path_join Basic.output_dir filename].
Proof. apply (traced_serializer data (fun value => format_e16 value +:+ nl)). Qed.

Lemma traced_save_vector data filename header :
  traced (Full.save_vector data filename header)
         [path_join Full.output_dir filename] [path_join Full.output_dir filename].
Proof. apply (traced_serializer data (fun value => format_e16 value +:+ nl)). Qed.

Lemma traced_save_matrix data filename header :
  traced (Full.save_matrix data filename header)
         [path_join Full.output_dir filename] [path_join Full.output_dir filename].
Proof. apply (traced_serializer data (fun row => join " " (map format_e16 row) +:+ nl)). Qed.

Lemma traced_save_complex_matrix data filename header :
  traced (Full.save_complex_matrix data filename header)
         [path_join Full.output_dir filename] [path_join Full.output_dir filename].
Proof.
  apply (traced_serializer data (fun row => join " " (map Full.format_complex row) +:+ nl)).
Qed.

(** What a traced computation guarantees about a run. *)
Lemma traced_run {A} (m : M A) (Lo Lw : list string) :
  traced m Lo Lw ->
  exists l,
    (forall w, opened (snd (m w)) = opened w ++ l) /\
    l `sublist_of` Lo /\
    (forall w1 w2, fst (m w1) = fst (m w2)) /\
    (forall w1 w2 p, p ∈ l -> files (snd (m w1)) !! p = files (snd (m w2)) !! p) /\
    (forall w p, p ∉ Lw -> files (snd (m w)) !! p = files w !! p).
Proof.
  intros (r & t & Hm & Ho & Hw). exists (opens t). repeat split.
  - intros w. rewrite Hm. apply opened_replay.
  - exact Ho.
  - intros w1 w2. now rewrite !Hm.
  - intros w1 w2 p Hp. rewrite !Hm. cbn [snd]. rewrite !files_replay.
    now apply file_after_opened.
  - intros w p Hp. rewrite Hm. cbn [snd]. rewrite files_replay.
    apply file_after_untouched. intros Hin. apply Hp. now apply Hw.
Qed.

End Traces.

(** ** The basic generator, from any initial directory *)

Lemma traced_if_silent {A} (b : bool) (m1 m2 : M A) (Lo Lw : list string) :
  traced m1 Lo Lw -> traced m2 [] [] -> traced (if b then m1 else m2) Lo Lw.
Proof.
  intros H1 H2. destruct b; [exact H1|].
  eapply traced_weaken; [exact H2 | apply sublist_nil_l |].
  intros x Hx. now apply elem_of_nil in Hx.
Qed.

Ltac traced_step :=
  lazymatch goal with
  | |- traced (Basic.save_vector _ _ _) _ _ => apply traced_basic_save_vector
  | |- traced (Full.save_vector _ _ _) _ _ => apply traced_save_vector
  | |- traced (Full.save_matrix _ _ _) _ _ => apply traced_save_matrix
  | |- traced (Full.save_complex_matrix _ _ _) _ _ => apply traced_save_complex_matrix
  | |- traced (print _) _ _ => apply traced_print
  | |- traced (open_w _) _ _ => apply traced_open_w
  | |- traced (f_write _ _) _ _ => apply traced_f_write
  | |- traced (for_each _ (fun x => f_write _ _)) _ _ => apply traced_for_each_f_write
  | |- traced (ret _) _ _ => apply traced_ret
  | |- traced (raise _) _ _ => apply traced_raise
  | |- traced (sys_exit _) _ _ => apply traced_raise
  | |- traced (lift _) _ _ => apply traced_lift
  | |- traced (bind listdir_len (fun n => print _)) _ _ => apply traced_listdir_print
  | |- traced (bind listdir_len (fun n => bind (print _) _)) _ _ =>
      apply traced_listdir_print_then
  | |- traced (bind (lift _) _) _ _ => apply traced_bind_lift; intros ? ?
  | |- traced (bind _ _) _ _ => eapply traced_bind; [| intros ?]
  | |- traced (if _ then _ else ret tt) _ _ => apply traced_if_silent; [| apply traced_ret]
  | |- traced (let '(_, _) := ?c in _) _ _ => destruct c
  | |- traced _ _ _ => progress cbv beta zeta
  end.

Ltac traced_auto := repeat traced_step.

Section BasicRun.

Variable math_sin : f64 -> f64.
Variable abspath : string -> string.

Lemma basic_main_traced : exists Lo Lw, traced (Basic.main math_sin abspath) Lo Lw.
Proof.
  eexists _, _.
  unfold Basic.main, Basic.generate_haar_reference, Basic.generate_fft_reference,
    Basic.generate_wavelet_filters, Basic.generate_test_parameters.
  traced_auto.
Qed.

Lemma basic_main_run :
  (forall w, fst (Basic.main math_sin abspath w) = Ok tt) /\
  (forall w, opened (snd (Basic.main math_sin abspath w)) = opened w ++ basic_paths) /\
  (forall w1 w2 p, p ∈ basic_paths ->
     files (snd (Basic.main math_sin abspath w1)) !! p =
     files (snd (Basic.main math_sin abspath w2)) !! p).
Proof.
  destruct basic_main_traced as (Lo & Lw & Ht).
  destruct (traced_run _ _ _ Ht) as (l & Hop & _ & Hres & Hfiles & _).
  assert (Hl : l = basic_paths).
  { pose proof (Hop (initial ∅)) as H. vm_compute in H. rewrite <- H. reflexivity. }
  subst l. split; [|split].
  - intros w. rewrite (Hres w (initial ∅)). vm_compute. reflexivity.
  - exact Hop.
  - exact Hfiles.
Qed.

End BasicRun.

Lemma basic_file_from_empty math_sin abspath (dir : gmap string string) (name : string) :
  path_join Basic.output_dir name ∈ basic_paths ->
  files (snd (Basic.main math_sin abspath (initial dir))) !! path_join Basic.output_dir name =
  files (snd (Basic.main math_sin abspath (initial ∅))) !! path_join Basic.output_dir name.
Proof. intros H. now apply basic_main_run. Qed.

Lemma elem_of_by_In {A} (x : A) (l : list A) : In x l -> x ∈ l.
Proof. apply list_elem_of_In. Qed.

Ltac basic_file :=
  rewrite basic_file_from_empty by (apply elem_of_by_In; cbn; tauto);
  vm_compute; reflexivity.

(** ** The manual Haar transform: claim C3 *)

Lemma haar_reference_run :
  (forall w, fst (Basic.generate_haar_reference w) = Ok tt) /\
  (forall w p,
     p ∈ map (path_join Basic.output_dir)
           [ "haar_simple_input.txt"; "haar_level1_approx_manual.txt";
             "haar_level1_detail_manual.txt"; "haar_constant_input.txt";
             "haar_linear_input.txt" ] ->
     files (snd (Basic.generate_haar_reference w)) !! p =
     files (snd (Basic.generate_haar_reference (initial ∅))) !! p).
Proof.
  assert (Ht : exists Lo Lw, traced Basic.generate_haar_reference Lo Lw).
  { eexists _, _. unfold Basic.generate_haar_reference. traced_auto. }
  destruct Ht as (Lo & Lw & Ht).
  destruct (traced_run _ _ _ Ht) as (l & Hop & _ & Hres & Hfiles & _).
  assert (Hl : l = map (path_join Basic.output_dir)
                     [ "haar_simple_input.txt"; "haar_level1_approx_manual.txt";
                       "haar_level1_detail_manual.txt"; "haar_constant_input.txt";
                       "haar_linear_input.txt" ]).
  { pose proof (Hop (initial ∅)) as H. vm_compute in H. rewrite <- H. reflexivity. }
  subst l. split.
  - intros w. rewrite (Hres w (initial ∅)). vm_compute. reflexivity.
  - intros w p Hp. now apply Hfiles.
Qed.

Ltac haar_file :=
  rewrite (proj2 haar_reference_run) by (apply elem_of_by_In; cbn; tauto);
  vm_compute; reflexivity.

(** C3: the basic generator computes, from the signal [1, 2, ..., 8], four
    approximation coefficients [3/sqrt2, 7/sqrt2, 11/sqrt2, 15/sqrt2] and
    four detail coefficients [-1/sqrt2], with [sqrt2 = math.sqrt(2)] and
    binary64 division, each within one unit in the last place of the real
    number it names, and writes them: from every world
    [generate_haar_reference] returns, and after it, as after a whole run
    of the basic generator from any directory, the files
    [haar_simple_input.txt], [haar_level1_approx_manual.txt] and
    [haar_level1_detail_manual.txt] hold the header line and the [.16e]
    texts of the signal and of these coefficients, one per line. *)
Theorem haar_manual_signal (math_sin : f64 -> f64) (abspath : string -> string)
        (dir : gmap string string) (w0 : world) :
  let approx1 := map (fun z => (Float64.of_Z z / Basic.sqrt2)%f64) [3; 7; 11; 15] in
  let detail1 := repeat (Float64.of_Z (-1) / Basic.sqrt2)%f64 4 in
  let staged name :=
    files (snd (Basic.generate_haar_reference w0)) !! path_join Basic.output_dir name in
  let file name :=
    files (snd (Basic.main math_sin abspath (initial dir))) !! path_join Basic.output_dir name in
  Basic.haar_manual Basic.signal = Ok (approx1, detail1) /\
  length approx1 = 4%nat /\ length detail1 = 4%nat /\
  detail1 = repeat (Float64.neg (Float64.of_Z 1 / Basic.sqrt2)%f64) 4 /\
  map (fun '(x, z) => near_sqrt x false (z * z) 2) (zip approx1 [3; 7; 11; 15])
    = [true; true; true; true] /\
  map (fun x => near_sqrt x true 1 2) detail1 = [true; true; true; true] /\
  fst (Basic.generate_haar_reference w0) = Ok tt /\
  staged "haar_simple_input.txt"
    = Some (vector_text (map SFloat Basic.signal)
                        (Some "Simple test signal [1,2,3,4,5,6,7,8]")) /\
  staged "haar_level1_approx_manual.txt"
    = Some (vector_text (map SFloat approx1)
                        (Some "Haar level 1 approximation (manual calc)")) /\
  staged "haar_level1_detail_manual.txt"
    = Some (vector_text (map SFloat detail1) (Some "Haar level 1 detail (manual calc)")) /\
  file "haar_simple_input.txt"
    = Some (vector_text (map SFloat Basic.signal)
                        (Some "Simple test signal [1,2,3,4,5,6,7,8]")) /\
  file "haar_level1_approx_manual.txt"
    = Some (vector_text (map SFloat approx1)
                        (Some "Haar level 1 approximation (manual calc)")) /\
  file "haar_level1_detail_manual.txt"
    = Some (vector_text (map SFloat detail1) (Some "Haar level 1 detail (manual calc)")) /\
  lines <$> file "haar_simple_input.txt"
    = Some [ "# Simple test signal [1,2,3,4,5,6,7,8]";
             "1.0000000000000000e+00"; "2.0000000000000000e+00";
             "3.0000000000000000e+00"; "4.0000000000000000e+00";
             "5.0000000000000000e+00"; "6.0000000000000000e+00";
             "7.0000000000000000e+00"; "8.0000000000000000e+00" ] /\
  lines <$> file "haar_level1_approx_manual.txt"
    = Some [ "# Haar level 1 approximation (manual calc)";
             "2.1213203435596424e+00"; "4.9497474683058327e+00";
             "7.7781745930520225e+00"; "1.0606601717798211e+01" ] /\
  lines <$> file "haar_level1_detail_manual.txt"
    = Some ("# Haar level 1 detail (manual calc)" :: repeat "-7.0710678118654746e-01" 4).
Proof.
  cbv zeta.
  split; [vm_compute; reflexivity|].
  split; [reflexivity|]. split; [reflexivity|].
  split; [vm_compute; reflexivity|].
  split; [vm_compute; reflexivity|].
  split; [vm_compute; reflexivity|].
  split; [apply haar_reference_run|].
  split; [haar_file|]. split; [haar_file|]. split; [haar_file|].
  repeat split; basic_file.
Qed.

(** ** The closed-form FFT fixtures: claim C4 *)

(** C4: whatever the output directory held before, after a run of the basic
    generator the DC fixture has real part [8, 0, 0, 0, 0, 0, 0, 0], whose
    first entry is the sum of the signal [1] * 8, and imaginary part all
    zero; the impulse fixture is [1, 0, 0, 0, 0, 0, 0, 0] with real part all
    ones and imaginary part all zero. *)
Theorem fft_fixtures (math_sin : f64 -> f64) (abspath : string -> string)
        (dir : gmap string string) :
  let w := snd (Basic.main math_sin abspath (initial dir)) in
  let file name := files w !! path_join Basic.output_dir name in
  let zero := Float64.of_Z 0 in
  let one := Float64.of_Z 1 in
  let dc_signal := repeat one 8 in
  file "fft_dc_input.txt"
    = Some (vector_text (map SFloat dc_signal) (Some "DC signal (all ones)")) /\
  file "fft_dc_output_real.txt"
    = Some (vector_text (map SFloat (py_sum dc_signal :: repeat zero 7))
                        (Some "FFT of DC signal (real part)")) /\
  py_sum dc_signal = Float64.of_Z 8 /\
  file "fft_dc_output_imag.txt"
    = Some (vector_text (map SFloat (repeat zero 8))
                        (Some "FFT of DC signal (imaginary part)")) /\
  file "fft_impulse_input.txt"
    = Some (vector_text (map SFloat (one :: repeat zero 7)) (Some "Impulse signal")) /\
  file "fft_impulse_output_real.txt"
    = Some (vector_text (map SFloat (repeat one 8)) (Some "FFT of impulse (real)")) /\
  file "fft_impulse_output_imag.txt"
    = Some (vector_text (map SFloat (repeat zero 8)) (Some "FFT of impulse (imag)")) /\
  lines <$> file "fft_dc_output_real.txt"
    = Some ("# FFT of DC signal (real part)" ::
            "8.0000000000000000e+00" :: repeat "0.0000000000000000e+00" 7) /\
  lines <$> file "fft_dc_output_imag.txt"
    = Some ("# FFT of DC signal (imaginary part)" :: repeat "0.0000000000000000e+00" 8) /\
  lines <$> file "fft_impulse_output_real.txt"
    = Some ("# FFT of impulse (real)" :: repeat "1.0000000000000000e+00" 8) /\
  lines <$> file "fft_impulse_output_imag.txt"
    = Some ("# FFT of impulse (imag)" :: repeat "0.0000000000000000e+00" 8).
Proof.
  cbv zeta. repeat split; try basic_file.
Qed.

(** ** The full generator, stage by stage *)

Lemma subset_check_sound (l1 l2 : list string) : subset_check l1 l2 = true -> l1 ⊆ l2.
Proof.
  unfold subset_check. rewrite forallb_forall. intros H x Hx.
  apply list_elem_of_In in Hx. specialize (H x Hx).
  apply existsb_exists in H as (y & Hy & Heq). apply String.eqb_eq in Heq. subst y.
  now apply list_elem_of_In.
Qed.

Lemma flat_map_enumerate {A B} (f : nat -> list B) (xs : list A) (k : nat) :
  flat_map (fun p : nat * A => f (fst p)) (zip (seq k (length xs)) xs) =
  flat_map f (seq k (length xs)).
Proof.
  revert k. induction xs as [|x xs IH]; intros k; [reflexivity|].
  cbn [length seq zip zip_with flat_map]. now rewrite IH.
Qed.

Lemma flat_map_single {A B} (f : A -> B) (xs : list A) :
  flat_map (fun x => [f x]) xs = map f xs.
Proof. induction xs as [|x xs IH]; [reflexivity|]. cbn. now rewrite IH. Qed.

Section FullStages.

Variable lib : numlib.

Lemma traced_generate_fft_reference :
  traced (Full.generate_fft_reference lib) fft_names fft_names.
Proof.
  unfold Full.generate_fft_reference.
  eapply traced_weaken; [traced_auto | reflexivity |].
  apply subset_check_sound. vm_compute. reflexivity.
Qed.

Lemma traced_generate_dwt_reference :
  traced (Full.generate_dwt_reference lib) (dwt_names (n_multi lib)) (dwt_names (n_multi lib)).
Proof.
  unfold Full.generate_dwt_reference.
  eapply traced_weaken; [traced_auto | |].
  - match goal with
    | H : pywt_wavedec _ _ _ _ = Ok ?c |- _ =>
        assert (Heq : flat_map (fun p : nat * list f64 => [multilevel_name (fst p)]) (enumerate c)
                      = flat_map (fun i => [multilevel_name i]) (seq 0 (n_multi lib)))
          by (unfold enumerate, n_multi, test_signal; rewrite H;
              apply (flat_map_enumerate (fun i => [multilevel_name i])))
    end.
    eapply traced_weaken;
      [apply (traced_for_each _ _ (fun p => [multilevel_name (fst p)])
                                  (fun p => [multilevel_name (fst p)]));
       intros [i c] _; apply traced_save_vector
      | rewrite Heq; reflexivity
      | rewrite Heq; reflexivity].
  - rewrite flat_map_single. reflexivity.
  - rewrite flat_map_single. reflexivity.
Qed.

Lemma traced_generate_modwt_reference :
  traced (Full.generate_modwt_reference lib) (modwt_names (n_swt lib)) (modwt_names (n_swt lib)).
Proof.
  unfold Full.generate_modwt_reference.
  eapply traced_weaken; [traced_auto | |].
  - match goal with
    | H : pywt_swt _ _ _ _ _ = Ok ?c |- _ =>
        assert (Heq : flat_map (fun p : nat * (list f64 * list f64) =>
                                  modwt_level_names (fst p)) (enumerate c)
                      = flat_map modwt_level_names (seq 0 (n_swt lib)))
          by (unfold enumerate, n_swt, test_signal; rewrite H;
              apply (flat_map_enumerate modwt_level_names))
    end.
    eapply traced_weaken;
      [apply (traced_for_each _ _ (fun p => modwt_level_names (fst p))
                                  (fun p => modwt_level_names (fst p)));
       intros [i [approx detail]] _;
       eapply traced_weaken; [traced_auto | reflexivity | reflexivity]
      | rewrite Heq; reflexivity
      | rewrite Heq; reflexivity].
  - reflexivity.
  - reflexivity.
Qed.

Lemma traced_generate_cwt_reference :
  traced (Full.generate_cwt_reference lib) cwt_names cwt_names.
Proof.
  unfold Full.generate_cwt_reference.
  eapply traced_weaken; [traced_auto | reflexivity | reflexivity].
Qed.

Lemma traced_generate_wavelet_filter_reference :
  traced (Full.generate_wavelet_filter_reference lib) filter_names filter_names.
Proof.
  unfold Full.generate_wavelet_filter_reference.
  eapply traced_weaken; [traced_auto | |].
  - apply (traced_for_each _ _ filter_names_of filter_names_of).
    intros wavelet_name _.
    eapply traced_weaken; [traced_auto | reflexivity | reflexivity].
  - reflexivity.
  - reflexivity.
Qed.

Lemma traced_edge_case (item : string * list scalar) :
  traced (Full.edge_case lib item) (edge_names_of item) (edge_names_of item).
Proof.
  destruct item as [name signal]. unfold Full.edge_case.
  eapply traced_weaken; [traced_auto | |].
  - eapply traced_try_except; [traced_auto |].
    intros e h Hh. injection Hh as <-. apply traced_ret.
  - reflexivity.
  - reflexivity.
Qed.

Lemma traced_generate_special_cases :
  traced (Full.generate_special_cases lib) edge_names edge_names.
Proof.
  unfold Full.generate_special_cases.
  eapply traced_weaken; [traced_auto | |].
  - apply (traced_for_each _ _ edge_names_of edge_names_of).
    intros item _. apply traced_edge_case.
  - reflexivity.
  - reflexivity.
Qed.

Variable abspath : string -> string.

Ltac stage_step :=
  first [ apply traced_generate_fft_reference
        | apply traced_generate_dwt_reference
        | apply traced_generate_modwt_reference
        | apply traced_generate_cwt_reference
        | apply traced_generate_wavelet_filter_reference
        | apply traced_generate_special_cases
        | traced_step ].

Lemma traced_main_try_body :
  traced (Full.main_try_body lib)
         (full_names (n_multi lib) (n_swt lib)) (full_names (n_multi lib) (n_swt lib)).
Proof.
  unfold Full.main_try_body.
  eapply traced_weaken; [repeat stage_step | |].
  - cbn [app]. rewrite !app_nil_r. reflexivity.
  - cbn [app]. rewrite !app_nil_r. reflexivity.
Qed.

Lemma traced_full_main :
  traced (Full.main lib abspath)
         (full_names (n_multi lib) (n_swt lib)) (full_names (n_multi lib) (n_swt lib)).
Proof.
  unfold Full.main.
  eapply traced_weaken; [repeat traced_step | |].
  - eapply (traced_try_except _ _ _ _ [] []); [apply traced_main_try_body |].
    intros e h Hh. destruct e; inversion Hh; subst.
    + eapply traced_weaken; [traced_auto | reflexivity | reflexivity].
    + eapply traced_weaken; [traced_auto | reflexivity | reflexivity].
  - cbn [app]. rewrite !app_nil_r. reflexivity.
  - cbn [app]. rewrite !app_nil_r. reflexivity.
Qed.

Variable installed : string -> bool.

Lemma traced_import (package : string) : traced (Full.import installed package) [] [].
Proof.
  unfold Full.import. destruct (installed package); [apply traced_ret | apply traced_raise].
Qed.

Lemma traced_full_script :
  traced (Full.script lib abspath installed)
         (full_names (n_multi lib) (n_swt lib)) (full_names (n_multi lib) (n_swt lib)).
Proof.
  unfold Full.script.
  eapply traced_weaken;
    [repeat first [apply traced_import | apply traced_full_main | traced_step]
    | reflexivity | reflexivity].
Qed.

End FullStages.

(** ** No path is opened twice *)

Section DistinctNames.

Lemma str_length_app (s t : string) :
  String.length (s +:+ t) = (String.length s + String.length t)%nat.
Proof. induction s as [|c s IH]; [reflexivity|]. rewrite app_String. cbn. now rewrite IH. Qed.

Lemma str_app_inv_head (s a b : string) : s +:+ a = s +:+ b -> a = b.
Proof.
  induction s as [|c s IH]; [trivial|]. rewrite !app_String. intros H.
  injection H as H. now apply IH.
Qed.

Lemma str_app_inv_tail (a b t : string) : a +:+ t = b +:+ t -> a = b.
Proof.
  revert b. induction a as [|c a IH]; intros [|d b] H.
  - reflexivity.
  - apply (f_equal String.length) in H. rewrite app_empty, str_length_app in H.
    cbn in H. lia.
  - apply (f_equal String.length) in H. rewrite app_empty, str_length_app in H.
    cbn in H. lia.
  - rewrite !app_String in H. injection H as -> H. f_equal. now apply IH.
Qed.

Lemma level_name_inj (pre post : string) (i j : nat) :
  full_path (pre +:+ pretty i +:+ post) = full_path (pre +:+ pretty j +:+ post) -> i = j.
Proof.
  unfold full_path, path_join. intros H.
  do 3 apply str_app_inv_head in H. apply str_app_inv_tail in H.
  now apply (inj pretty) in H.
Qed.

Lemma NoDup_multilevel (n : nat) : NoDup (map multilevel_name (seq 0 n)).
Proof.
  apply NoDup_fmap_2_strong; [|apply NoDup_seq].
  intros i j _ _ H. now apply level_name_inj in H.
Qed.

Lemma elem_of_modwt_levels (x : string) (k n : nat) :
  x ∈ flat_map modwt_level_names (seq k n) ->
  exists j, (k <= j)%nat /\ x ∈ modwt_level_names j.
Proof.
  intros H. apply list_elem_of_In, in_flat_map in H as (j & Hj & Hx).
  apply in_seq in Hj. exists j. split; [lia | now apply list_elem_of_In].
Qed.

Lemma modwt_level_names_distinct (i j : nat) (x : string) :
  x ∈ modwt_level_names i -> x ∈ modwt_level_names j -> i = j.
Proof.
  unfold modwt_level_names. intros Hi Hj.
  apply elem_of_cons in Hi as [->|Hi]; [|apply list_elem_of_singleton in Hi as ->];
    (apply elem_of_cons in Hj as [Hj|Hj]; [|apply list_elem_of_singleton in Hj]).
  - apply level_name_inj in Hj. lia.
  - discriminate Hj.
  - discriminate Hj.
  - apply level_name_inj in Hj. lia.
Qed.

Lemma NoDup_modwt_levels (k n : nat) : NoDup (flat_map modwt_level_names (seq k n)).
Proof.
  revert k. induction n as [|n IH]; intros k; [constructor|].
  cbn [seq flat_map]. apply NoDup_app. split; [|split].
  - unfold modwt_level_names. apply NoDup_cons. split; [|apply NoDup_singleton].
    intros H. apply list_elem_of_singleton in H. discriminate H.
  - intros x Hx Hin. apply elem_of_modwt_levels in Hin as (j & Hj & Hxj).
    pose proof (modwt_level_names_distinct _ _ _ Hx Hxj). lia.
  - apply IH.
Qed.

Lemma multilevel_is_level (n : nat) (x : string) :
  x ∈ map multilevel_name (seq 0 n) -> starts_with multilevel_prefix x = true.
Proof.
  intros H. apply list_elem_of_In, in_map_iff in H as (i & <- & _). reflexivity.
Qed.

Lemma modwt_is_level (k n : nat) (x : string) :
  x ∈ flat_map modwt_level_names (seq k n) ->
  starts_with multilevel_prefix x = false /\
  (starts_with modwt_detail_prefix x = true \/ starts_with modwt_approx_prefix x = true).
Proof.
  intros H. apply elem_of_modwt_levels in H as (j & _ & Hx). unfold modwt_level_names in Hx.
  apply elem_of_cons in Hx as [->|Hx]; [|apply list_elem_of_singleton in Hx as ->].
  - split; [reflexivity | left; reflexivity].
  - split; [reflexivity | right; reflexivity].
Qed.

Lemma fixed_names_not_level (x : string) : x ∈ fixed_names -> is_level_name x = false.
Proof.
  intros H. apply list_elem_of_In in H.
  assert (Hall : forallb (fun y => negb (is_level_name y)) fixed_names = true)
    by (vm_compute; reflexivity).
  rewrite forallb_forall in Hall. apply negb_true_iff. now apply Hall.
Qed.

Lemma NoDup_fixed_names : NoDup fixed_names.
Proof. apply (bool_decide_unpack _). vm_compute. reflexivity. Qed.

Lemma NoDup_interleave (F1 D1 F2 D2 F3 : list string) :
  NoDup (F1 ++ F2 ++ F3) -> NoDup D1 -> NoDup D2 ->
  (forall x, x ∈ D1 -> x ∉ F1 ++ F2 ++ F3) ->
  (forall x, x ∈ D2 -> x ∉ F1 ++ F2 ++ F3) ->
  (forall x, x ∈ D1 -> x ∉ D2) ->
  NoDup (F1 ++ D1 ++ F2 ++ D2 ++ F3).
Proof.
  rewrite !NoDup_app. intros (HF1 & H12 & HF2 & H23 & HF3) HD1 HD2 H1 H2 H3.
  assert (HD1' : forall x, x ∈ D1 -> (x ∉ F1) /\ (x ∉ F2) /\ (x ∉ F3)).
  { intros x Hx. specialize (H1 x Hx). rewrite !elem_of_app in H1. tauto. }
  assert (HD2' : forall x, x ∈ D2 -> (x ∉ F1) /\ (x ∉ F2) /\ (x ∉ F3)).
  { intros x Hx. specialize (H2 x Hx). rewrite !elem_of_app in H2. tauto. }
  split; [exact HF1|]. split.
  { intros x Hx. rewrite !elem_of_app. intros [Hd|[Hf|[Hd|Hf]]].
    - destruct (HD1' x Hd) as (? & _). tauto.
    - apply (H12 x Hx). apply elem_of_app. now left.
    - destruct (HD2' x Hd) as (? & _). tauto.
    - apply (H12 x Hx). apply elem_of_app. now right. }
  split; [exact HD1|]. split.
  { intros x Hx. rewrite !elem_of_app. intros [Hf|[Hd|Hf]].
    - destruct (HD1' x Hx) as (_ & ? & _). tauto.
    - now apply (H3 x Hx).
    - destruct (HD1' x Hx) as (_ & _ & ?). tauto. }
  split; [exact HF2|]. split.
  { intros x Hx. rewrite !elem_of_app. intros [Hd|Hf].
    - destruct (HD2' x Hd) as (_ & ? & _). tauto.
    - now apply (H23 x Hx). }
  split; [exact HD2|]. split; [|exact HF3].
  intros x Hx Hf. destruct (HD2' x Hx) as (_ & _ & ?). tauto.
Qed.

Lemma NoDup_full_names (n1 n2 : nat) : NoDup (full_names n1 n2).
Proof.
  assert (E : full_names n1 n2 =
              (fft_names ++ dwt_names 0) ++ map multilevel_name (seq 0 n1) ++
              [full_path "modwt_haar_input.txt"] ++
              flat_map modwt_level_names (seq 0 n2) ++
              (cwt_names ++ filter_names ++ edge_names)).
  { unfold full_names, dwt_names, modwt_names. cbn [seq map]. rewrite app_nil_r.
    rewrite <- !app_assoc. reflexivity. }
  rewrite E. apply NoDup_interleave.
  - apply NoDup_fixed_names.
  - apply NoDup_multilevel.
  - apply NoDup_modwt_levels.
  - intros x Hx Hf. apply fixed_names_not_level in Hf.
    apply multilevel_is_level in Hx. unfold is_level_name in Hf. now rewrite Hx in Hf.
  - intros x Hx Hf. apply fixed_names_not_level in Hf.
    apply modwt_is_level in Hx as [_ [Hx|Hx]]; unfold is_level_name in Hf;
      rewrite Hx in Hf; [now rewrite orb_true_r in Hf | now rewrite orb_true_r in Hf].
  - intros x Hx Hm. apply multilevel_is_level in Hx.
    apply modwt_is_level in Hm as [Hm _]. congruence.
Qed.

End DistinctNames.

(** ** The edge-case pass *)

Section EdgeCases.

Variable lib : numlib.

Lemma bind_eq {A B} (m : M A) (k : A -> M B) (w w' : world) (a : A) :
  m w = (Ok a, w') -> bind m k w = k a w'.
Proof. unfold bind. now intros ->. Qed.

Lemma save_vector_wrote data filename header w :
  Full.save_vector data filename header w = (Ok tt, wrote w (filename, vector_text data header)).
Proof. apply save_vector_eq. Qed.

Lemma wrote_all_app fs1 fs2 w : wrote_all (fs1 ++ fs2) w = wrote_all fs2 (wrote_all fs1 w).
Proof. apply fold_left_app. Qed.

Lemma opened_wrote_all fs w :
  opened (wrote_all fs w) = opened w ++ map (fun f => full_path (fst f)) fs.
Proof.
  revert w. induction fs as [|f fs IH]; intros w.
  - cbn. now rewrite app_nil_r.
  - cbn [wrote_all fold_left map]. fold (wrote_all fs (wrote w f)). rewrite IH.
    cbn [wrote opened]. now rewrite <- app_assoc.
Qed.

Lemma stdout_wrote_all fs w :
  stdout (wrote_all fs w) = stdout w ++ map (fun f => "Generated: " +:+ fst f) fs.
Proof.
  revert w. induction fs as [|f fs IH]; intros w.
  - cbn. now rewrite app_nil_r.
  - cbn [wrote_all fold_left map]. fold (wrote_all fs (wrote w f)). rewrite IH.
    cbn [wrote stdout]. now rewrite <- app_assoc.
Qed.

Lemma edge_case_eq (item : string * list scalar) (w : world) :
  (snd item <> [] -> exists r, scipy_fft lib (Real (snd item)) = Ok r) ->
  Full.edge_case lib item w = (Ok tt, wrote_all (edge_files lib item) w).
Proof.
  destruct item as [name signal]. cbn [snd]. intros Hfft.
  unfold Full.edge_case, edge_files.
  destruct (0 <? length signal)%nat eqn:Hlen; [|reflexivity].
  destruct Hfft as [r Hr].
  { intros ->. discriminate Hlen. }
  rewrite Hr.
  rewrite (bind_eq _ _ _ _ _ (save_vector_wrote _ _ _ _)).
  set (w1 := wrote w _).
  set (f_real := ("edge_case_" +:+ name +:+ "_fft_real.txt",
                  vector_text (Full.real_part r) (Some ("FFT real part of " +:+ name)))).
  set (f_imag := ("edge_case_" +:+ name +:+ "_fft_imag.txt",
                  vector_text (Full.imag_part r) (Some ("FFT imag part of " +:+ name)))).
  assert (Hfft2 :
    (fft_result <- lift (Ok r) ;;
     Full.save_vector (Full.real_part fft_result)
       ("edge_case_" +:+ name +:+ "_fft_real.txt") (Some ("FFT real part of " +:+ name)) ;;
     Full.save_vector (Full.imag_part fft_result)
       ("edge_case_" +:+ name +:+ "_fft_imag.txt") (Some ("FFT imag part of " +:+ name)))%py w1
    = (Ok tt, wrote (wrote w1 f_real) f_imag)).
  { rewrite (bind_eq (lift (Ok r)) _ w1 w1 r eq_refl).
    rewrite (bind_eq _ _ _ _ _ (save_vector_wrote _ _ _ _)).
    apply save_vector_wrote. }
  rewrite (bind_eq _ _ _ _ _ Hfft2).
  destruct (1 <? length signal)%nat; [|reflexivity].
  unfold try_except.
  destruct (pywt_dwt lib signal "haar") as [coeffs|e]; [|reflexivity].
  rewrite (bind_eq (lift (Ok coeffs)) _ _ _ coeffs eq_refl).
  rewrite (bind_eq _ _ _ _ _ (save_vector_wrote _ _ _ _)).
  rewrite save_vector_wrote. reflexivity.
Qed.

Lemma edge_files_names (item : string * list scalar) :
  (snd item <> [] -> exists r, scipy_fft lib (Real (snd item)) = Ok r) ->
  map (fun f => full_path (fst f)) (edge_files lib item) = edge_paths lib item.
Proof.
  destruct item as [name signal]. cbn [snd]. intros Hfft.
  unfold edge_paths, edge_filenames, edge_files, dwt_ok. cbn [fst snd].
  destruct (0 <? length signal)%nat eqn:Hlen; [|reflexivity].
  destruct Hfft as [r Hr].
  { intros ->. discriminate Hlen. }
  rewrite Hr.
  destruct (1 <? length signal)%nat; [|reflexivity].
  destruct (pywt_dwt lib signal "haar"); reflexivity.
Qed.

Lemma for_each_edge_case (items : list (string * list scalar)) (w : world) :
  (forall item, item ∈ items -> snd item <> [] ->
                exists r, scipy_fft lib (Real (snd item)) = Ok r) ->
  for_each items (Full.edge_case lib) w
  = (Ok tt, wrote_all (flat_map (edge_files lib) items) w).
Proof.
  revert w. induction items as [|item items IH]; intros w Hfft; [reflexivity|].
  cbn [for_each flat_map].
  rewrite (bind_eq _ _ _ _ _ (edge_case_eq item w (Hfft item ltac:(left)))).
  rewrite IH by (intros it Hit; apply Hfft; now right).
  now rewrite wrote_all_app.
Qed.

Lemma generate_special_cases_eq (w : world) :
  fft_returns lib ->
  Full.generate_special_cases lib w
  = (Ok tt, wrote_all (flat_map (edge_files lib) Full.edge_signals)
                      (snd (print (nl +:+ "=== Generating Special Test Cases ===") w))).
Proof.
  intros Hfft. unfold Full.generate_special_cases.
  rewrite (bind_eq (print _) _ w _ tt eq_refl). now apply for_each_edge_case.
Qed.

Lemma special_files_names (items : list (string * list scalar)) :
  (forall item, item ∈ items -> snd item <> [] ->
                exists r, scipy_fft lib (Real (snd item)) = Ok r) ->
  map (fun f => full_path (fst f)) (flat_map (edge_files lib) items)
  = flat_map (edge_paths lib) items.
Proof.
  induction items as [|item items IH]; intros H; [reflexivity|].
  cbn [flat_map]. rewrite map_app, edge_files_names, IH; [reflexivity| |].
  - intros it Hit. apply H. now right.
  - apply H. now left.
Qed.

Lemma special_cases_opened (w : world) :
  fft_returns lib ->
  opened (snd (Full.generate_special_cases lib w))
  = opened w ++ flat_map (edge_paths lib) Full.edge_signals.
Proof.
  intros Hfft. rewrite generate_special_cases_eq by exact Hfft.
  cbn [snd]. rewrite opened_wrote_all. cbn [print snd opened]. f_equal.
  now apply special_files_names.
Qed.



Lemma stdout_special_cases (w : world) :
  fft_returns lib ->
  stdout (snd (Full.generate_special_cases lib w))
  = stdout w ++ (nl +:+ "=== Generating Special Test Cases ===") ::
    map (fun f => "Generated: " +:+ fst f) (flat_map (edge_files lib) Full.edge_signals).
Proof.
  intros Hfft. rewrite generate_special_cases_eq by exact Hfft. cbn [snd].
  rewrite stdout_wrote_all. cbn [print snd stdout]. now rewrite <- app_assoc.
Qed.


Lemma edge_paths_input (item : string * list scalar) :
  snd item <> [] ->
  full_path ("edge_case_" +:+ fst item +:+ "_input.txt") ∈ edge_paths lib item.
Proof.
  destruct item as [name signal]. cbn [fst snd]. intros Hne.
  unfold edge_paths, edge_filenames. cbn [fst snd].
  destruct signal as [|x signal]; [congruence|]. cbn [length Nat.ltb Nat.leb].
  cbn [map app]. now left.
Qed.

Lemma edge_case_dwt_raises (name : string) (signal : list scalar) (e : exn) (w : world) :
  (exists r, scipy_fft lib (Real signal) = Ok r) ->
  (1 < length signal)%nat ->
  pywt_dwt lib signal "haar" = Raise e ->
  fst (Full.edge_case lib (name, signal) w) = Ok tt /\
  opened (snd (Full.edge_case lib (name, signal) w)) =
    opened w ++ map full_path [ "edge_case_" +:+ name +:+ "_input.txt";
                                "edge_case_" +:+ name +:+ "_fft_real.txt";
                                "edge_case_" +:+ name +:+ "_fft_imag.txt" ] /\
  stdout (snd (Full.edge_case lib (name, signal) w)) =
    stdout w ++ [ "Generated: " +:+ "edge_case_" +:+ name +:+ "_input.txt";
                  "Generated: " +:+ "edge_case_" +:+ name +:+ "_fft_real.txt";
                  "Generated: " +:+ "edge_case_" +:+ name +:+ "_fft_imag.txt" ].
Proof.
  intros [r Hr] Hlen He.
  rewrite edge_case_eq by (intros _; now exists r). cbn [fst snd].
  rewrite opened_wrote_all, stdout_wrote_all. unfold edge_files.
  destruct (Nat.ltb_spec 0 (length signal)); [|lia].
  destruct (Nat.ltb_spec 1 (length signal)); [|lia].
  rewrite Hr, He. repeat split.
Qed.

End EdgeCases.

Lemma sample_lib_fft_returns (dwt_fails : bool) : fft_returns (sample_lib dwt_fails).
Proof. intros item _ _. eexists. reflexivity. Qed.

Lemma elem_of_flat_map_intro {A B} (f : A -> list B) (xs : list A) (x : A) (y : B) :
  x ∈ xs -> y ∈ f x -> y ∈ flat_map f xs.
Proof.
  intros Hx Hy. apply list_elem_of_In, in_flat_map. exists x.
  split; now apply list_elem_of_In.
Qed.

Ltac split_booleans :=
  repeat match goal with
         | |- context [if ?b then _ else _] => destruct b
         end.

Ltac decide_names :=
  cbn [flat_map]; unfold edge_paths; cbn [fst snd];
  repeat match goal with
         | |- context [dwt_ok ?l ?s] => generalize (dwt_ok l s); intro
         end;
  lazymatch goal with
  | |- ?x ∉ ?l => let l' := eval vm_compute in l in change (x ∉ l')
  | |- ?x ∈ ?l => let l' := eval vm_compute in l in change (x ∈ l')
  end;
  split_booleans; apply (bool_decide_unpack _); vm_compute; reflexivity.

(** ** The edge-case pass: claim C5 *)



(** ** A DWT failure in the edge-case pass: claim C6 *)

(** C6: when the DWT call raises on an edge-case signal longer than one
    sample (and the FFT call returns on the edge-case signals), that
    iteration ends normally after the input and the two FFT files, with
    nothing printed but their three confirmations; the pass as a whole ends
    normally, opens neither the approximation nor the detail file of that
    signal, still writes the input file of every non-empty edge case, and
    prints only confirmations after its heading. *)
Theorem dwt_failure_is_swallowed (lib : numlib) (w : world)
        (name : string) (signal : list scalar) (e : exn) :
  fft_returns lib ->
  (name, signal) ∈ Full.edge_signals ->
  (1 < length signal)%nat ->
  pywt_dwt lib signal "haar" = Raise e ->
  (fst (Full.edge_case lib (name, signal) w) = Ok tt /\
   opened (snd (Full.edge_case lib (name, signal) w)) =
     opened w ++ map full_path [ "edge_case_" +:+ name +:+ "_input.txt";
                                 "edge_case_" +:+ name +:+ "_fft_real.txt";
                                 "edge_case_" +:+ name +:+ "_fft_imag.txt" ] /\
   stdout (snd (Full.edge_case lib (name, signal) w)) =
     stdout w ++ [ "Generated: " +:+ "edge_case_" +:+ name +:+ "_input.txt";
                   "Generated: " +:+ "edge_case_" +:+ name +:+ "_fft_real.txt";
                   "Generated: " +:+ "edge_case_" +:+ name +:+ "_fft_imag.txt" ]) /\
  exists l out,
    fst (Full.generate_special_cases lib w) = Ok tt /\
    opened (snd (Full.generate_special_cases lib w)) = opened w ++ l /\
    (full_path ("edge_case_" +:+ name +:+ "_dwt_approx.txt") ∉ l) /\
    (full_path ("edge_case_" +:+ name +:+ "_dwt_detail.txt") ∉ l) /\
    (forall item, item ∈ Full.edge_signals -> snd item <> [] ->
                  full_path ("edge_case_" +:+ fst item +:+ "_input.txt") ∈ l) /\
    stdout (snd (Full.generate_special_cases lib w)) =
      stdout w ++ (nl +:+ "=== Generating Special Test Cases ===") :: out /\
    Forall (fun line => starts_with "Generated: " line = true) out.
Proof.
  intros Hfft Hin Hlen He. split.
  - apply edge_case_dwt_raises with (e := e); [|exact Hlen|exact He].
    apply (Hfft (name, signal) Hin). cbn [snd]. intros ->. cbn in Hlen. lia.
  - exists (flat_map (edge_paths lib) Full.edge_signals),
           (map (fun f => "Generated: " +:+ fst f)
                (flat_map (edge_files lib) Full.edge_signals)).
    assert (Hfalse : dwt_ok lib signal = false) by (unfold dwt_ok; now rewrite He).
    split; [now rewrite generate_special_cases_eq|].
    split; [now apply special_cases_opened|].
    split; [|split; [|split; [|split]]].
    + unfold Full.edge_signals in Hin |- *.
      repeat (apply elem_of_cons in Hin; destruct Hin as [Hin|Hin];
              [injection Hin as -> -> |]);
        try (now apply elem_of_nil in Hin); try (cbn in Hlen; lia);
        cbn [flat_map]; unfold edge_paths; cbn [fst snd];
        repeat match goal with
               | |- context [dwt_ok lib ?s] =>
                   first [ replace (dwt_ok lib s) with false by (symmetry; exact Hfalse)
                         | generalize (dwt_ok lib s); intro ]
               end;
        decide_names.
    + unfold Full.edge_signals in Hin |- *.
      repeat (apply elem_of_cons in Hin; destruct Hin as [Hin|Hin];
              [injection Hin as -> -> |]);
        try (now apply elem_of_nil in Hin); try (cbn in Hlen; lia);
        cbn [flat_map]; unfold edge_paths; cbn [fst snd];
        repeat match goal with
               | |- context [dwt_ok lib ?s] =>
                   first [ replace (dwt_ok lib s) with false by (symmetry; exact Hfalse)
                         | generalize (dwt_ok lib s); intro ]
               end;
        decide_names.
    + intros item Hitem Hne.
      apply (elem_of_flat_map_intro _ _ item); [exact Hitem | now apply edge_paths_input].
    + now apply stdout_special_cases.
    + apply Forall_forall. intros line Hline.
      apply list_elem_of_In, in_map_iff in Hline as (f & <- & _). reflexivity.
Qed.

Lemma dwt_failure_is_swallowed_witness :
  fst (Full.edge_case (sample_lib true) ("impulse", Full.ints [0; 0; 0; 1; 0; 0; 0; 0])
         (initial ∅)) = Ok tt /\
  exists l,
    fst (Full.generate_special_cases (sample_lib true) (initial ∅)) = Ok tt /\
    opened (snd (Full.generate_special_cases (sample_lib true) (initial ∅))) = [] ++ l /\
    (full_path ("edge_case_" +:+ "impulse" +:+ "_dwt_approx.txt") ∉ l) /\
    (full_path ("edge_case_" +:+ "impulse" +:+ "_dwt_detail.txt") ∉ l).
Proof.
  destruct (dwt_failure_is_swallowed (sample_lib true) (initial ∅)
              "impulse" (Full.ints [0; 0; 0; 1; 0; 0; 0; 0]) (Exception "dwt failed")
              (sample_lib_fft_returns true))
    as ((Hok & _) & l & out & Hpass & Hl & Ha & Hd & _).
  - apply elem_of_by_In. cbn. tauto.
  - cbn. lia.
  - reflexivity.
  - split; [exact Hok|]. exists l. repeat split; assumption.
Defined.

(** ** Outcome of a process *)

Section Process.

Lemma final_run_process (script : M unit) (w : world) :
  final (run_process script w) = snd (script w).
Proof. unfold run_process. destruct (script w) as [[[]|[]] w']; reflexivity. Qed.

Lemma run_process_result (script : M unit) (w1 w2 : world) :
  fst (script w1) = fst (script w2) ->
  exit_status (run_process script w1) = exit_status (run_process script w2) /\
  traceback (run_process script w1) = traceback (run_process script w2).
Proof.
  unfold run_process.
  destruct (script w1) as [r1 w1'], (script w2) as [r2 w2']. cbn [fst].
  intros ->. destruct r2 as [[]|[]]; split; reflexivity.
Qed.

(** Two runs of a traced script from two directories. *)
Lemma traced_deterministic (script : M unit) (Lo Lw : list string)
      (dir1 dir2 : gmap string string) :
  traced script Lo Lw ->
  exit_status (run_process script (initial dir1)) =
    exit_status (run_process script (initial dir2)) /\
  traceback (run_process script (initial dir1)) =
    traceback (run_process script (initial dir2)) /\
  opened (final (run_process script (initial dir1))) =
    opened (final (run_process script (initial dir2))) /\
  (forall p, p ∈ opened (final (run_process script (initial dir1))) ->
     files (final (run_process script (initial dir1))) !! p =
     files (final (run_process script (initial dir2))) !! p).
Proof.
  intros Ht. destruct (traced_run _ _ _ Ht) as (l & Hop & _ & Hres & Hfiles & _).
  destruct (run_process_result script (initial dir1) (initial dir2) (Hres _ _)) as [He Htb].
  rewrite !final_run_process, !Hop. cbn [initial opened app].
  repeat split; try assumption. intros p Hp. now apply Hfiles.
Qed.

End Process.

(** ** The handlers of [main] *)

Section Handlers.

Variable lib : numlib.
Variable abspath : string -> string.

Lemma main_eq (w : world) :
  Full.main lib abspath w =
  try_except (Full.main_try_body lib)
    (fun e =>
       match e with
       | ImportError _ =>
           Some (print (nl +:+ "Error: Missing required Python package.") ;;
                 print "Please install required packages:" ;;
                 print "pip install numpy scipy pywavelets" ;;
                 sys_exit 1)%py
       | Exception msg =>
           Some (print (nl +:+ "Error generating reference data: " +:+ msg) ;;
                 sys_exit 1)%py
       | SystemExit _ => None
       end)
    (snd (print ("Output directory: " +:+ abspath Full.output_dir)
            (snd (print "Generating reference test data for JWave..." w)))).
Proof. reflexivity. Qed.

(** An exception other than [ImportError] raised during the generation is
    reported with its message, and the process exits with status 1. *)
Lemma main_reports_exception (dir : gmap string string) (msg : string) :
  fst (Full.main_try_body lib (initial dir)) = Raise (Exception msg) ->
  let o := run_process (Full.main lib abspath) (initial dir) in
  exit_status o = 1 /\ traceback o = None /\
  last (stdout (final o)) = Some (nl +:+ "Error generating reference data: " +:+ msg).
Proof.
  intros Hraise. cbv zeta. unfold run_process. rewrite main_eq.
  set (w2 := snd (print _ (snd (print _ (initial dir))))).
  destruct (traced_run _ _ _ (traced_main_try_body lib)) as (_ & _ & _ & Hres & _).
  rewrite (Hres (initial dir) w2) in Hraise.
  unfold try_except. destruct (Full.main_try_body lib w2) as [r w3]. cbn [fst] in Hraise.
  subst r. cbn. repeat split. now rewrite last_snoc.
Qed.

(** An [ImportError] raised during the generation is reported with the
    installation advice, and the process exits with status 1. *)
Lemma main_reports_import_error (dir : gmap string string) (msg : string) :
  fst (Full.main_try_body lib (initial dir)) = Raise (ImportError msg) ->
  let o := run_process (Full.main lib abspath) (initial dir) in
  exit_status o = 1 /\ traceback o = None /\
  last (stdout (final o)) = Some "pip install numpy scipy pywavelets".
Proof.
  intros Hraise. cbv zeta. unfold run_process. rewrite main_eq.
  set (w2 := snd (print _ (snd (print _ (initial dir))))).
  destruct (traced_run _ _ _ (traced_main_try_body lib)) as (_ & _ & _ & Hres & _).
  rewrite (Hres (initial dir) w2) in Hraise.
  unfold try_except. destruct (Full.main_try_body lib w2) as [r w3]. cbn [fst] in Hraise.
  subst r. cbn. repeat split. now rewrite last_snoc.
Qed.

End Handlers.

(** ** A missing dependency: claim C7 *)

(** C7 at a run without one of the packages: the import at the top of the
    script raises before [main] and its handlers are entered, so the run
    ends with the interpreter's traceback and exit status 1, having
    printed nothing - in particular not the [pip install] line - and
    having opened no file. *)
Theorem missing_dependency_run (lib : numlib) (abspath : string -> string)
        (installed : string -> bool) (dir : gmap string string) :
  installed "numpy" && installed "scipy" && installed "pywt" = false ->
  let o := run_process (Full.script lib abspath installed) (initial dir) in
  exit_status o = 1 /\
  (exists package, traceback o = Some (ImportError ("No module named '" +:+ package +:+ "'"))) /\
  stdout (final o) = [] /\
  ("pip install numpy scipy pywavelets" ∉ stdout (final o)) /\
  opened (final o) = [] /\
  files (final o) = dir.
Proof.
  intros Hmiss. cbv zeta. unfold run_process, Full.script, Full.import, bind.
  destruct (installed "numpy") eqn:H1; cbn [andb] in Hmiss.
  - destruct (installed "scipy") eqn:H2; cbn [andb] in Hmiss.
    + rewrite Hmiss. cbn. repeat split; eauto using not_elem_of_nil.
    + cbn. repeat split; eauto using not_elem_of_nil.
  - cbn. repeat split; eauto using not_elem_of_nil.
Qed.

Lemma missing_dependency_run_witness :
  let o := run_process (Full.script (sample_lib false) sample_abspath (all_but "numpy"))
                       (initial ∅) in
  exit_status o = 1 /\
  (exists package, traceback o = Some (ImportError ("No module named '" +:+ package +:+ "'"))) /\
  stdout (final o) = [] /\
  ("pip install numpy scipy pywavelets" ∉ stdout (final o)) /\
  opened (final o) = [] /\
  files (final o) = ∅.
Proof.
  apply (missing_dependency_run (sample_lib false) sample_abspath (all_but "numpy") ∅).
  reflexivity.
Defined.

(** ** No path is written twice in a run: claim C8 *)

(** C8: in a run of either script, from any directory and with any
    behaviour of the libraries, the paths opened for writing are pairwise
    distinct. *)
Theorem no_path_opened_twice :
  (forall math_sin abspath dir,
      NoDup (opened (final (run_process (Basic.script math_sin abspath) (initial dir))))) /\
  (forall lib abspath installed dir,
      NoDup (opened (final (run_process (Full.script lib abspath installed) (initial dir))))).
Proof.
  split.
  - intros math_sin abspath dir. rewrite final_run_process. unfold Basic.script.
    destruct (basic_main_run math_sin abspath) as (_ & Hop & _). rewrite Hop.
    cbn [initial opened app]. apply (bool_decide_unpack _). vm_compute. reflexivity.
  - intros lib abspath installed dir. rewrite final_run_process.
    destruct (traced_run _ _ _ (traced_full_script lib abspath installed))
      as (l & Hop & Hsub & _).
    rewrite Hop. cbn [initial opened app].
    eapply sublist_NoDup; [apply NoDup_full_names | exact Hsub].
Qed.

(** ** Determinism: claim C9 *)

(** C9: two runs of the same script, with the same platform and library
    behaviour, from two directories that may differ: they end with the
    same exit status and the same traceback, open the same paths in the
    same order, and leave the same content in every file they open. *)
Theorem generators_deterministic :
  (forall math_sin abspath dir1 dir2,
      let o1 := run_process (Basic.script math_sin abspath) (initial dir1) in
      let o2 := run_process (Basic.script math_sin abspath) (initial dir2) in
      exit_status o1 = exit_status o2 /\ traceback o1 = traceback o2 /\
      opened (final o1) = opened (final o2) /\
      (forall p, p ∈ opened (final o1) -> files (final o1) !! p = files (final o2) !! p)) /\
  (forall lib abspath installed dir1 dir2,
      let o1 := run_process (Full.script lib abspath installed) (initial dir1) in
      let o2 := run_process (Full.script lib abspath installed) (initial dir2) in
      exit_status o1 = exit_status o2 /\ traceback o1 = traceback o2 /\
      opened (final o1) = opened (final o2) /\
      (forall p, p ∈ opened (final o1) -> files (final o1) !! p = files (final o2) !! p)).
Proof.
  split.
  - intros math_sin abspath dir1 dir2.
    destruct (basic_main_traced math_sin abspath) as (Lo & Lw & Ht).
    apply (traced_deterministic _ Lo Lw dir1 dir2 Ht).
  - intros lib abspath installed dir1 dir2.
    apply (traced_deterministic _ _ _ dir1 dir2 (traced_full_script lib abspath installed)).
Qed.

(** A second run over the directory left by a first one rewrites every
    file with the same bytes. *)
Lemma generators_deterministic_witness :
  let o1 := run_process (Basic.script sample_sin sample_abspath) (initial ∅) in
  let o2 := run_process (Basic.script sample_sin sample_abspath) (initial (files (final o1))) in
  files (final o1) !! path_join Basic.output_dir "fft_sine_simple_input.txt" =
  files (final o2) !! path_join Basic.output_dir "fft_sine_simple_input.txt".
Proof.
  cbv zeta.
  apply (proj1 generators_deterministic sample_sin sample_abspath ∅).
  rewrite final_run_process. unfold Basic.script.
  destruct (basic_main_run sample_sin sample_abspath) as (_ & Hop & _). rewrite Hop.
  apply elem_of_by_In. cbn. tauto.
Defined.

(** ** The shared file name: claim C10 *)

Section SharedName.

Variable lib : numlib.
Variable abspath : string -> string.
Variable installed : string -> bool.

Lemma bind_ok_inv {A B} (m : M A) (k : A -> M B) (w : world) (b : B) :
  fst (bind m k w) = Ok b -> exists a w', m w = (Ok a, w') /\ bind m k w = k a w'.
Proof.
  unfold bind. destruct (m w) as [[a|e] w']; intros H; [eauto | discriminate H].
Qed.

Lemma try_except_ok_inv {A} (m : M A) (handler : exn -> option (M A)) (w : world) (a : A) :
  fst (try_except m handler w) = Ok a ->
  (forall e h w', handler e = Some h -> fst (h w') <> Ok a) ->
  fst (m w) = Ok a /\ try_except m handler w = m w.
Proof.
  unfold try_except. destruct (m w) as [[x|e] w']; intros H Hh.
  - split; [exact H | reflexivity].
  - destruct (handler e) as [h|] eqn:He.
    + exfalso. now apply (Hh e h w' He).
    + discriminate H.
Qed.

Lemma main_try_ok (w : world) :
  fst (Full.main lib abspath w) = Ok tt ->
  exists w', fst (Full.main_try_body lib w') = Ok tt /\
             Full.main lib abspath w = Full.main_try_body lib w'.
Proof.
  unfold Full.main. intros H.
  destruct (bind_ok_inv _ _ _ _ H) as (a1 & w1 & _ & Eq1). rewrite Eq1 in H |- *.
  destruct (bind_ok_inv _ _ _ _ H) as (a2 & w2 & _ & Eq2). rewrite Eq2 in H |- *.
  exists w2. apply try_except_ok_inv; [exact H|].
  intros e h w' He. destruct e; inversion He; subst; discriminate.
Qed.

Ltac ok_step H :=
  let a := fresh "a" in
  let w' := fresh "w" in
  let E := fresh "E" in
  let Eq := fresh "Eq" in
  destruct (bind_ok_inv _ _ _ _ H) as (a & w' & E & Eq);
  rewrite Eq in H; rewrite Eq; clear Eq.

Lemma not_in_by_check (p : string) (l : list string) :
  existsb (String.eqb p) l = false -> p ∉ l.
Proof.
  intros H Hin. apply list_elem_of_In in Hin.
  assert (existsb (String.eqb p) l = true)
    by (apply existsb_exists; exists p; split; [exact Hin | apply String.eqb_refl]).
  congruence.
Qed.

Lemma frame {A} (m : M A) (Lo Lw : list string) (w : world) (p : string) :
  traced m Lo Lw -> existsb (String.eqb p) Lw = false ->
  files (snd (m w)) !! p = files w !! p.
Proof.
  intros Ht Hp. destruct (traced_run _ _ _ Ht) as (_ & _ & _ & _ & _ & Hframe).
  apply Hframe. now apply not_in_by_check.
Qed.

Lemma for_each_cons {A} (x : A) (xs : list A) (body : A -> M unit) :
  for_each (x :: xs) body = (body x ;; for_each xs body)%py.
Proof. reflexivity. Qed.

Lemma filter_stage_db2 (w : world) (wv : wavelet) :
  fst (Full.generate_wavelet_filter_reference lib w) = Ok tt ->
  pywt_Wavelet lib "db2" = Ok wv ->
  files (snd (Full.generate_wavelet_filter_reference lib w)) !! db2_path
  = Some (full_db2_text (dec_lo wv)).
Proof.
  intros Hok Hdb2. unfold Full.generate_wavelet_filter_reference in *.
  ok_step Hok. unfold Full.wavelets in *.
  rewrite for_each_cons in Hok |- *. ok_step Hok.
  rewrite for_each_cons in Hok |- *. ok_step Hok.
  rewrite (frame _ (flat_map filter_names_of ["db4"; "db8"; "sym4"; "coif2"])
                   (flat_map filter_names_of ["db4"; "db8"; "sym4"; "coif2"]));
    [| | vm_compute; reflexivity].
  - rewrite Hdb2 in E1.
    rewrite (bind_eq (lift (Ok wv)) _ _ _ wv eq_refl) in E1.
    rewrite (bind_eq _ _ _ _ _ (save_vector_wrote _ _ _ _)) in E1.
    rewrite (bind_eq _ _ _ _ _ (save_vector_wrote _ _ _ _)) in E1.
    rewrite (bind_eq _ _ _ _ _ (save_vector_wrote _ _ _ _)) in E1.
    rewrite save_vector_wrote in E1. injection E1 as _ <-.
    cbn [wrote files fst snd].
    rewrite !lookup_insert_ne by discriminate.
    apply lookup_insert_eq.
  - apply (traced_for_each _ _ filter_names_of filter_names_of).
    intros wavelet_name _.
    eapply traced_weaken; [traced_auto | reflexivity | reflexivity].
Qed.

Lemma full_script_db2 (w : world) (wv : wavelet) :
  fst (Full.script lib abspath installed w) = Ok tt ->
  pywt_Wavelet lib "db2" = Ok wv ->
  files (snd (Full.script lib abspath installed w)) !! db2_path
  = Some (full_db2_text (dec_lo wv)).
Proof.
  intros Hok Hdb2. unfold Full.script in *.
  do 4 ok_step Hok.
  destruct (main_try_ok _ Hok) as (w' & Hbody & ->). clear Hok.
  unfold Full.main_try_body in *.
  do 4 ok_step Hbody. ok_step Hbody.
  rewrite (frame _ (edge_names ++ [] ++ [] ++ []) (edge_names ++ [] ++ [] ++ []));
    [| | vm_compute; reflexivity].
  - match goal with
    | E : Full.generate_wavelet_filter_reference lib ?w1 = (Ok ?a, ?w2) |- _ =>
        replace w2 with (snd (Full.generate_wavelet_filter_reference lib w1))
          by (now rewrite E);
        apply filter_stage_db2; [rewrite E; now destruct a | exact Hdb2]
    end.
  - repeat first [apply traced_generate_special_cases | traced_step].
Qed.

End SharedName.

(** C10: both scripts write [filter_db2_dec_lo.txt] in the same directory.
    The basic one writes the two Haar taps under the header
    [Daubechies 2 = Haar]; the full one, in a run that ends normally,
    writes the taps the library gives for [db2] - four data lines when
    there are four taps.  The two texts differ, and the file holds the text
    of whichever script ran last. *)
Theorem db2_file_is_shared (lib : numlib) (abspath : string -> string)
        (installed : string -> bool) (math_sin : f64 -> f64)
        (dir : gmap string string) (wv : wavelet) :
  fst (Full.script lib abspath installed (initial dir)) = Ok tt ->
  pywt_Wavelet lib "db2" = Ok wv ->
  length (dec_lo wv) = 4%nat ->
  let basic d := files (snd (Basic.script math_sin abspath (initial d))) in
  let full d := files (snd (Full.script lib abspath installed (initial d))) in
  path_join Basic.output_dir "filter_db2_dec_lo.txt" = db2_path /\
  path_join Full.output_dir ("filter_" +:+ "db2" +:+ "_dec_lo.txt") = db2_path /\
  basic dir !! db2_path = Some basic_db2_text /\
  full dir !! db2_path = Some (full_db2_text (dec_lo wv)) /\
  lines basic_db2_text =
    ["# Daubechies 2 = Haar"; "7.0710678118654746e-01"; "7.0710678118654746e-01"] /\
  lines (full_db2_text (dec_lo wv)) =
    "# db2 decomposition low-pass filter" :: map (fun x => format_e16 (SFloat x)) (dec_lo wv) /\
  length (lines (full_db2_text (dec_lo wv))) = 5%nat /\
  basic_db2_text <> full_db2_text (dec_lo wv) /\
  full (basic dir) !! db2_path = Some (full_db2_text (dec_lo wv)) /\
  basic (full dir) !! db2_path = Some basic_db2_text.
Proof.
  intros Hok Hdb2 Htaps. cbv zeta.
  assert (Hbasic : forall d, files (snd (Basic.script math_sin abspath (initial d))) !! db2_path
                             = Some basic_db2_text).
  { intros d. unfold Basic.script.
    change db2_path with (path_join Basic.output_dir "filter_db2_dec_lo.txt"). basic_file. }
  assert (Hfull : forall d, files (snd (Full.script lib abspath installed (initial d))) !! db2_path
                            = Some (full_db2_text (dec_lo wv))).
  { intros d. apply full_script_db2; [|exact Hdb2].
    destruct (traced_run _ _ _ (traced_full_script lib abspath installed))
      as (_ & _ & _ & Hres & _).
    now rewrite (Hres (initial d) (initial dir)). }
  assert (Hlines : lines (full_db2_text (dec_lo wv)) =
                   "# db2 decomposition low-pass filter" ::
                   map (fun x => format_e16 (SFloat x)) (dec_lo wv)).
  { unfold full_db2_text. rewrite lines_vector_text by reflexivity.
    cbn [truthy header_text default app]. now rewrite map_map. }
  split; [reflexivity|]. split; [reflexivity|].
  split; [apply Hbasic|]. split; [apply Hfull|].
  split; [vm_compute; reflexivity|]. split; [exact Hlines|].
  split; [rewrite Hlines; cbn [length]; now rewrite length_map, Htaps|].
  split; [|split; [apply Hfull | apply Hbasic]].
  intros Heq. apply (f_equal (fun t => length (lines t))) in Heq.
  rewrite Hlines in Heq. cbn [length] in Heq. rewrite length_map, Htaps in Heq.
  vm_compute in Heq. discriminate Heq.
Qed.

Lemma db2_file_is_shared_witness :
  files (snd (Basic.script sample_sin sample_abspath (initial ∅))) !! db2_path
    = Some basic_db2_text /\
  files (snd (Full.script (sample_lib false) sample_abspath (fun _ => true) (initial ∅)))
    !! db2_path = Some (full_db2_text db2_dec_lo) /\
  basic_db2_text <> full_db2_text db2_dec_lo.
Proof.
  destruct (db2_file_is_shared (sample_lib false) sample_abspath (fun _ => true) sample_sin ∅
              {| dec_lo := db2_dec_lo; dec_hi := rev db2_dec_lo;
                 rec_lo := rev db2_dec_lo; rec_hi := db2_dec_lo |})
    as (_ & _ & Hb & Hf & _ & _ & _ & Hne & _).
  - vm_compute. reflexivity.
  - reflexivity.
  - reflexivity.
  - repeat split; assumption.
Defined.

(** * Further properties of the generators *)

(** ** Fields of a written line *)

Lemma string_forall_app (P : ascii -> bool) (s t : string) :
  string_forall P (s +:+ t) = string_forall P s && string_forall P t.
Proof.
  induction s as [|c s IH]; [reflexivity|].
  rewrite app_String. cbn [string_forall]. rewrite IH. now rewrite andb_assoc.
Qed.

Lemma is_num_char_digit (c : ascii) : is_digit c = true -> is_num_char c = true.
Proof. unfold is_num_char. now intros ->. Qed.

Lemma string_forall_dec_digits (n : nat) (v : Z) :
  string_forall is_num_char (Format.dec_digits n v) = true.
Proof.
  induction n as [|n IH]; [reflexivity|].
  cbn [Format.dec_digits string_forall].
  now rewrite (is_num_char_digit _ (is_digit_mod10 _)), IH.
Qed.

Lemma format_e_chars (p : nat) (x : f64) :
  string_forall is_num_char (Format.format_e p x) = true.
Proof.
  destruct (Float64.is_finite x) eqn:H.
  - destruct (format_e_finite p x H) as (s & n & k & ->).
    rewrite !string_forall_app. unfold Format.mantissa_string, Format.exp_string.
    cbn [string_forall]. rewrite (app_String "."), app_empty.
    cbn [string_forall]. rewrite !string_forall_dec_digits.
    rewrite (is_num_char_digit _ (is_digit_mod10 _)).
    destruct s, (k <? 0); reflexivity.
  - destruct (format_e_not_finite p x H) as [-> | [-> | ->]]; reflexivity.
Qed.

Lemma split_on_field (sep : ascii) (l rest : string) :
  string_forall (fun c => negb (Ascii.eqb c sep)) l = true ->
  split_on sep (l +:+ String sep rest) = l :: split_on sep rest.
Proof.
  induction l as [|c l IH]; intros H.
  - rewrite app_empty. cbn [split_on]. now rewrite Ascii.eqb_refl.
  - cbn [string_forall] in H. apply andb_true_iff in H as [Hc Hl].
    rewrite app_String. cbn [split_on]. apply negb_true_iff in Hc.
    now rewrite Hc, (IH Hl).
Qed.

Lemma split_on_last (sep : ascii) (l : string) :
  string_forall (fun c => negb (Ascii.eqb c sep)) l = true ->
  split_on sep l = [l].
Proof.
  induction l as [|c l IH]; intros H; [reflexivity|].
  cbn [string_forall] in H. apply andb_true_iff in H as [Hc Hl].
  cbn [split_on]. apply negb_true_iff in Hc. now rewrite Hc, (IH Hl).
Qed.

(** Splitting a joined row gives back its fields. *)
Lemma split_on_join (sep : ascii) (xs : list string) :
  xs <> [] ->
  Forall (fun x => string_forall (fun c => negb (Ascii.eqb c sep)) x = true) xs ->
  split_on sep (join (String sep EmptyString) xs) = xs.
Proof.
  intros Hne Hall. induction Hall as [|x xs Hx Hxs IH]; [congruence|].
  destruct xs as [|y ys].
  - cbn [join]. now apply split_on_last.
  - change (join (String sep "") (x :: y :: ys))
      with (x +:+ String sep "" +:+ join (String sep "") (y :: ys)).
    rewrite (app_String sep), app_empty.
    rewrite split_on_field by exact Hx. now rewrite IH.
Qed.

Lemma string_forall_impl (P Q : ascii -> bool) (s : string) :
  (forall c, P c = true -> Q c = true) ->
  string_forall P s = true -> string_forall Q s = true.
Proof.
  intros HPQ. induction s as [|c s IH]; [reflexivity|].
  cbn [string_forall]. rewrite !andb_true_iff. intros [Hc Hs]. split; auto.
Qed.

Lemma num_char_not (sep : ascii) :
  is_num_char sep = false ->
  forall c, is_num_char c = true -> negb (Ascii.eqb c sep) = true.
Proof.
  intros Hsep c Hc. apply negb_true_iff.
  destruct (Ascii.eqb_spec c sep) as [->|]; [congruence | reflexivity].
Qed.

Lemma format_e16_lacks (sep : ascii) (v : scalar) :
  is_num_char sep = false ->
  string_forall (fun c => negb (Ascii.eqb c sep)) (format_e16 v) = true.
Proof.
  intros Hsep. apply (string_forall_impl is_num_char); [now apply num_char_not|].
  apply format_e_chars.
Qed.

(** ** Matrix files read back *)

Lemma no_newline_forall (s : string) :
  no_newline s = string_forall (fun c => negb (Ascii.eqb c newline)) s.
Proof. induction s as [|c s IH]; [reflexivity|]. cbn. now rewrite IH. Qed.

Lemma string_forall_join (P : ascii -> bool) (sep : string) (xs : list string) :
  string_forall P sep = true ->
  Forall (fun x => string_forall P x = true) xs ->
  string_forall P (join sep xs) = true.
Proof.
  intros Hsep Hall. induction Hall as [|x xs Hx Hxs IH]; [reflexivity|].
  destruct xs as [|y ys]; [exact Hx|].
  change (join sep (x :: y :: ys)) with (x +:+ sep +:+ join sep (y :: ys)).
  now rewrite !string_forall_app, Hx, Hsep, IH.
Qed.

Lemma Forall_map_format (sep : ascii) (row : list scalar) :
  is_num_char sep = false ->
  Forall (fun x => string_forall (fun c => negb (Ascii.eqb c sep)) x = true)
         (map format_e16 row).
Proof.
  intros Hsep. apply Forall_forall. intros x Hx.
  apply list_elem_of_In, in_map_iff in Hx as (v & <- & _). now apply format_e16_lacks.
Qed.

Lemma format_complex_lacks (sep : ascii) (z : complex) :
  is_num_char sep = false -> Ascii.eqb "," sep = false ->
  string_forall (fun c => negb (Ascii.eqb c sep)) (Full.format_complex z) = true.
Proof.
  intros Hsep Hcomma. unfold Full.format_complex.
  rewrite !string_forall_app, !format_e16_lacks by exact Hsep.
  cbn [string_forall]. now rewrite Hcomma.
Qed.

(** The lines of a file made of a header line and one line per item. *)
Lemma lines_serialized {A} (g : A -> string) (data : list A) (header : option string) :
  no_newline (header_text header) = true ->
  (forall x, x ∈ data -> no_newline (g x) = true) ->
  lines (header_line header +:+ concat_text (map (fun x => g x +:+ nl) data)) =
  (if truthy header then ["# " +:+ header_text header] else []) ++ map g data.
Proof.
  intros Hh Hg. unfold header_line.
  assert (Hd : lines (concat_text (map (fun x => g x +:+ nl) data)) = map g data).
  { rewrite <- (lines_concat_text (map g data)).
    - now rewrite map_map.
    - apply Forall_forall. intros l Hin.
      apply list_elem_of_In, in_map_iff in Hin as (v & <- & Hv).
      apply Hg. now apply list_elem_of_In. }
  destruct (truthy header).
  - rewrite !str_app_assoc. rewrite <- (str_app_assoc "# ").
    rewrite lines_line; [now rewrite Hd|].
    rewrite no_newline_app. now rewrite Hh.
  - now rewrite app_empty, Hd.
Qed.


Lemma lines_matrix_text (data : list (list scalar)) (header : option string) :
  no_newline (header_text header) = true ->
  lines (matrix_text data header) =
  (if truthy header then ["# " +:+ header_text header] else []) ++
  map (fun row => join " " (map format_e16 row)) data.
Proof.
  intros Hh. unfold matrix_text.
  apply (lines_serialized (fun row => join " " (map format_e16 row))); [exact Hh|].
  intros row _. rewrite no_newline_forall.
  apply string_forall_join; [reflexivity|]. now apply Forall_map_format.
Qed.

Lemma split_matrix_rows (data : list (list scalar)) :
  Forall (fun row => row <> []) data ->
  map (split_on " ") (map (fun row => join " " (map format_e16 row)) data) =
  map (map format_e16) data.
Proof.
  intros Hrows. rewrite map_map. apply map_ext_in. intros row Hin.
  apply split_on_join.
  - rewrite Forall_forall in Hrows. specialize (Hrows row (proj2 (list_elem_of_In _ _) Hin)).
    now destruct row.
  - now apply Forall_map_format.
Qed.



Lemma split_complex (z : complex) :
  split_on "," (Full.format_complex z) = [format_e16 (SFloat (re z)); format_e16 (SFloat (im z))].
Proof.
  unfold Full.format_complex. rewrite (app_String ","), app_empty.
  rewrite split_on_field by now apply format_e16_lacks.
  now rewrite split_on_last by now apply format_e16_lacks.
Qed.


Lemma drop_header_lines {A} (header : option string) (h : string) (l : list A) (f : A -> string) :
  drop (header_lines header) ((if truthy header then [h] else []) ++ map f l) = map f l.
Proof. unfold header_lines. now destruct (truthy header). Qed.

(** X1: [save_matrix] writes the header line (when the header is given
    and not empty) and then one line per row; splitting a line at the
    spaces gives back the [.16e] texts of the entries of the row, in
    order.  Every entry converts to a float, the file name is one of the
    output directory, the header holds no line break and no row is empty
    (an empty row is written as an empty line). *)
Theorem save_matrix_rows (data : list (list scalar)) (filename : string)
        (header : option string) (w : world) :
  Forall (Forall (fun x => converts x = true)) data ->
  plain_name filename = true ->
  no_newline (header_text header) = true ->
  Forall (fun row => row <> []) data ->
  exists text,
    files (snd (Full.save_matrix data filename header w))
      !! path_join Full.output_dir filename = Some text /\
    length (lines text) = (header_lines header + length data)%nat /\
    map (split_on " ") (drop (header_lines header) (lines text)) =
      map (map format_e16) data.
Proof.
  intros _ _ Hh Hrows. exists (matrix_text data header).
  rewrite save_matrix_eq. cbn [snd files]. rewrite lookup_insert_eq.
  split; [reflexivity|]. rewrite lines_matrix_text by exact Hh. split.
  - rewrite length_app, length_map. unfold header_lines. now destruct (truthy header).
  - rewrite drop_header_lines. now apply split_matrix_rows.
Qed.


(** ** The pairing loop of the Haar reference *)

Section HaarLoop.

Variable signal : list f64.

Lemma index_in_range (i : nat) :
  (i < length signal)%nat -> index signal i = Ok (sample signal i).
Proof.
  intros Hi. unfold index, sample.
  destruct (signal !! i) as [x|] eqn:E.
  - f_equal. symmetry. apply nth_lookup_Some with (d := S754_zero false) in E. exact E.
  - apply lookup_ge_None in E. lia.
Qed.

Lemma index_out_of_range (i : nat) :
  (length signal <= i)%nat -> index signal i = Raise (Exception "list index out of range").
Proof.
  intros Hi. unfold index. now rewrite (proj2 (lookup_ge_None signal i) Hi).
Qed.

Lemma haar_loop_in_range (count : nat) :
  forall (lo : nat) (approx1 detail1 : list f64),
    (lo + 2 * count <= length signal)%nat ->
    Basic.haar_loop signal (range2 lo count) approx1 detail1 =
    Ok (approx1 ++ map (fun j => ((sample signal (lo + 2 * j) + sample signal (lo + 2 * j + 1))
                                   / Basic.sqrt2)%f64) (seq 0 count),
        detail1 ++ map (fun j => ((sample signal (lo + 2 * j) - sample signal (lo + 2 * j + 1))
                                   / Basic.sqrt2)%f64) (seq 0 count)).
Proof.
  induction count as [|count IH]; intros lo approx1 detail1 Hlen.
  - cbn. now rewrite !app_nil_r.
  - cbn [range2 Basic.haar_loop].
    rewrite (index_in_range lo), (index_in_range (lo + 1)) by lia.
    rewrite IH by lia. cbn [seq map]. rewrite <- !app_assoc. cbn [app].
    rewrite <- !seq_shift, !map_map.
    replace (lo + 2 * 0)%nat with lo by lia.
    do 4 f_equal; apply map_ext; intros j; do 3 f_equal; lia.
Qed.

Lemma haar_loop_past_end (count : nat) :
  forall (lo : nat) (approx1 detail1 : list f64),
    (lo + 2 * count + 1 = length signal)%nat ->
    Basic.haar_loop signal (range2 lo (S count)) approx1 detail1 =
    Raise (Exception "list index out of range").
Proof.
  induction count as [|count IH]; intros lo approx1 detail1 Hlen.
  - cbn [range2 Basic.haar_loop].
    rewrite (index_in_range lo), (index_out_of_range (lo + 1)) by lia. reflexivity.
  - cbn [range2 Basic.haar_loop].
    rewrite (index_in_range lo), (index_in_range (lo + 1)) by lia.
    apply (IH (2 + lo)%nat). lia.
Qed.

End HaarLoop.

Lemma div2_S_double (n : nat) : Nat.div2 (S (2 * n)) = n.
Proof. apply Nat.div2_succ_double. Qed.

Lemma div2_SS_double (n : nat) : Nat.div2 (S (S (2 * n))) = S n.
Proof. cbn [Nat.div2]. f_equal. apply Nat.div2_double. Qed.

(** X3: on a signal of even length [2 * n] the pairing loop of
    [generate_haar_reference] ends normally with [n] approximation and [n]
    detail coefficients; the [j]-th ones are
    [(signal[2j] + signal[2j+1]) / sqrt2] and
    [(signal[2j] - signal[2j+1]) / sqrt2], in binary64 arithmetic. *)
Theorem haar_manual_even (signal : list f64) (n : nat) :
  length signal = (2 * n)%nat ->
  exists approx1 detail1,
    Basic.haar_manual signal = Ok (approx1, detail1) /\
    length approx1 = n /\ length detail1 = n /\
    (forall j, (j < n)%nat ->
       approx1 !! j = Some ((sample signal (2 * j) + sample signal (2 * j + 1)) / Basic.sqrt2)%f64 /\
       detail1 !! j = Some ((sample signal (2 * j) - sample signal (2 * j + 1)) / Basic.sqrt2)%f64).
Proof.
  intros Hlen. unfold Basic.haar_manual. rewrite Hlen, div2_S_double.
  rewrite (haar_loop_in_range signal n 0 [] []) by lia. cbn [app].
  eexists _, _. split; [reflexivity|]. rewrite !length_map, length_seq.
  split; [reflexivity|]. split; [reflexivity|].
  intros j Hj. split.
  - rewrite list_lookup_fmap, lookup_seq_lt by lia. reflexivity.
  - rewrite list_lookup_fmap, lookup_seq_lt by lia. reflexivity.
Qed.

(** X4: on a signal of odd length the last iteration of the loop
    reads [signal[i+1]] past the end of the list: the loop raises the
    index error and returns no coefficients. *)
Theorem haar_manual_odd (signal : list f64) (n : nat) :
  length signal = (2 * n + 1)%nat ->
  Basic.haar_manual signal = Raise (Exception "list index out of range").
Proof.
  intros Hlen. unfold Basic.haar_manual. rewrite Hlen.
  replace (S (2 * n + 1)) with (S (S (2 * n))) by lia. rewrite div2_SS_double.
  apply haar_loop_past_end. lia.
Qed.

Lemma sub_self_finite (c : f64) :
  Float64.is_finite c = true -> (c - c)%f64 = S754_zero false.
Proof.
  destruct c as [[]|[]| |s m e]; try discriminate; intros _; try reflexivity.
  unfold Float64.sub, SFsub. now rewrite Z.sub_diag.
Qed.

Lemma map_const_seq {A} (v : A) (lo n : nat) : map (fun _ => v) (seq lo n) = repeat v n.
Proof. revert lo. induction n as [|n IH]; intros lo; [reflexivity|]. cbn. now rewrite IH. Qed.

(** X5: for a constant signal of finite value [c] every detail
    coefficient is [+0.0] and every approximation coefficient is
    [(c + c) / sqrt2]. *)
Theorem haar_manual_constant (c : f64) (n : nat) :
  Float64.is_finite c = true ->
  Basic.haar_manual (repeat c (2 * n)) =
  Ok (repeat ((c + c) / Basic.sqrt2)%f64 n, repeat (S754_zero false) n).
Proof.
  intros Hc. unfold Basic.haar_manual. rewrite repeat_length, div2_S_double.
  rewrite haar_loop_in_range by (rewrite repeat_length; lia). cbn [app].
  assert (Hs : forall i, (i < 2 * n)%nat -> sample (repeat c (2 * n)) i = c).
  { intros i Hi. unfold sample. apply nth_repeat_lt. exact Hi. }
  f_equal. f_equal.
  - rewrite <- (map_const_seq _ 0 n). apply map_ext_in. intros j Hj.
    apply in_seq in Hj. now rewrite !Hs by lia.
  - rewrite <- (map_const_seq _ 0 n). apply map_ext_in. intros j Hj.
    apply in_seq in Hj. rewrite !Hs by lia. now rewrite sub_self_finite.
Qed.

(** ** The stages of the full generator in closed form *)

Section Stages.

Variable lib : numlib.

Lemma lift_bind_ok {A B} (r : result A) (a : A) (k : A -> M B) (w : world) :
  r = Ok a -> bind (lift r) k w = k a w.
Proof. now intros ->. Qed.

Lemma lift_bind_raise {A B} (r : result A) (e : exn) (k : A -> M B) (w : world) :
  r = Raise e -> bind (lift r) k w = (Raise e, w).
Proof. now intros ->. Qed.

Lemma sv_bind {B} data filename header (k : unit -> M B) (w : world) :
  bind (Full.save_vector data filename header) k w
  = k tt (wrote w (filename, vector_text data header)).
Proof. apply bind_eq, save_vector_wrote. Qed.

Lemma print_bind {B} (s : string) (k : unit -> M B) (w : world) :
  bind (print s) k w = k tt (snd (print s w)).
Proof. reflexivity. Qed.

Lemma for_each_save_vector {A} (xs : list A) (file : A -> string * string)
      (body : A -> M unit) (w : world) :
  (forall x w', body x w' = (Ok tt, wrote w' (file x))) ->
  for_each xs body w = (Ok tt, wrote_all (map file xs) w).
Proof.
  intros Hb. revert w. induction xs as [|x xs IH]; intros w; [reflexivity|].
  cbn [for_each map wrote_all fold_left]. rewrite (bind_eq _ _ _ _ _ (Hb x w)). apply IH.
Qed.

Lemma for_each_save_vectors {A} (xs : list A) (files_of : A -> list (string * string))
      (body : A -> M unit) (w : world) :
  (forall x w', body x w' = (Ok tt, wrote_all (files_of x) w')) ->
  for_each xs body w = (Ok tt, wrote_all (flat_map files_of xs) w).
Proof.
  intros Hb. revert w. induction xs as [|x xs IH]; intros w; [reflexivity|].
  cbn [for_each flat_map]. rewrite (bind_eq _ _ _ _ _ (Hb x w)).
  rewrite IH. now rewrite wrote_all_app.
Qed.

Lemma files_wrote_all_other (fs : list (string * string)) (w : world) (p : string) :
  p ∉ map (fun f => full_path (fst f)) fs -> files (wrote_all fs w) !! p = files w !! p.
Proof.
  revert w. induction fs as [|f fs IH]; intros w Hp; [reflexivity|].
  cbn [map] in Hp. apply not_elem_of_cons in Hp as [Hne Hp].
  cbn [wrote_all fold_left]. fold (wrote_all fs (wrote w f)). rewrite IH by exact Hp.
  cbn [wrote files]. now rewrite lookup_insert_ne.
Qed.

(** With pairwise distinct names, each file holds the text written to it. *)
Lemma files_wrote_all_lookup (fs : list (string * string)) (w : world) (f : string * string) :
  NoDup (map (fun f => full_path (fst f)) fs) -> f ∈ fs ->
  files (wrote_all fs w) !! full_path (fst f) = Some (snd f).
Proof.
  revert w. induction fs as [|g fs IH]; intros w Hnd Hin.
  - now apply elem_of_nil in Hin.
  - cbn [map] in Hnd. apply NoDup_cons in Hnd as [Hg Hnd].
    cbn [wrote_all fold_left]. fold (wrote_all fs (wrote w g)).
    apply elem_of_cons in Hin as [->|Hin].
    + rewrite files_wrote_all_other by exact Hg. cbn [wrote files]. apply lookup_insert_eq.
    + now apply IH.
Qed.

(** *** The DWT stage *)

Lemma generate_dwt_reference_eq (w : world) coeffs_haar coeffs_db4 coeffs_multi :
  pywt_dwt lib test_signal "haar" = Ok coeffs_haar ->
  pywt_dwt lib test_signal "db4" = Ok coeffs_db4 ->
  pywt_wavedec lib test_signal "haar" 3 = Ok coeffs_multi ->
  Full.generate_dwt_reference lib w =
  (Ok tt, wrote_all (dwt_haar_files coeffs_haar ++ dwt_db4_files coeffs_db4 ++
                     map multilevel_file (enumerate coeffs_multi))
                    (stage_heading "DWT Reference Data" w)).
Proof.
  intros Hh Hd Hm. unfold Full.generate_dwt_reference. cbv zeta.
  fold test_signal. rewrite print_bind.
  rewrite (lift_bind_ok _ _ _ _ Hh), !sv_bind.
  rewrite (lift_bind_ok _ _ _ _ Hd), !sv_bind.
  rewrite (lift_bind_ok _ _ _ _ Hm).
  rewrite (for_each_save_vector _ multilevel_file).
  - rewrite !wrote_all_app. reflexivity.
  - intros [i band] w'. apply save_vector_wrote.
Qed.

End Stages.

(** *** Decimal numerals *)

Lemma is_digit_pretty_N_char (d : N) : is_digit (pretty_N_char d) = true.
Proof.
  unfold pretty_N_char.
  repeat match goal with
         | |- context [match ?x with _ => _ end] => destruct x
         end; reflexivity.
Qed.

Lemma pretty_N_go_digits (x : N) (s : string) :
  string_forall is_digit s = true -> string_forall is_digit (pretty_N_go x s) = true.
Proof.
  revert s. induction (N.lt_wf_0 x) as [x _ IH]. intros s Hs.
  destruct (decide (x = 0%N)) as [->|Hx].
  - now rewrite pretty_N_go_0.
  - rewrite pretty_N_go_step by lia. apply IH.
    + apply N.div_lt; lia.
    + cbn [string_forall]. now rewrite is_digit_pretty_N_char, Hs.
Qed.

Lemma pretty_nat_digits (n : nat) : string_forall is_digit (pretty n) = true.
Proof.
  unfold pretty, pretty_nat, pretty, pretty_N.
  destruct (decide (N.of_nat n = 0%N)); [reflexivity|]. now apply pretty_N_go_digits.
Qed.

Lemma digit_not_newline (c : ascii) : is_digit c = true -> negb (Ascii.eqb c newline) = true.
Proof.
  intros H. apply negb_true_iff. destruct (Ascii.eqb_spec c newline) as [->|]; [|reflexivity].
  discriminate H.
Qed.

Lemma no_newline_pretty (n : nat) : no_newline (pretty n) = true.
Proof.
  rewrite no_newline_forall. apply (string_forall_impl is_digit); [|apply pretty_nat_digits].
  apply digit_not_newline.
Qed.

(** *** [enumerate] *)

Lemma enumerate_lookup {A} (xs : list A) (i : nat) (x : A) :
  xs !! i = Some x -> (i, x) ∈ enumerate xs.
Proof.
  intros H. unfold enumerate. apply list_elem_of_lookup. exists i.
  rewrite lookup_zip_with. rewrite lookup_seq_lt by (now apply lookup_lt_Some in H).
  now rewrite H.
Qed.

Lemma enumerate_fst {A} (xs : list A) : map fst (enumerate xs) = seq 0 (length xs).
Proof. unfold enumerate. apply fst_zip. now rewrite length_seq. Qed.

Section StageFiles.

Variable lib : numlib.

Lemma NoDup_dwt_names (n : nat) : NoDup (dwt_names n).
Proof.
  pose proof (NoDup_full_names n 0) as H. unfold full_names in H.
  apply NoDup_app in H as (_ & _ & H). now apply NoDup_app in H as (H & _ & _).
Qed.

Lemma NoDup_modwt_names (n : nat) : NoDup (modwt_names n).
Proof.
  pose proof (NoDup_full_names 0 n) as H. unfold full_names in H.
  apply NoDup_app in H as (_ & _ & H). apply NoDup_app in H as (_ & _ & H).
  now apply NoDup_app in H as (H & _ & _).
Qed.

Lemma dwt_file_names coeffs_haar coeffs_db4 (coeffs_multi : list (list f64)) :
  map (fun f => full_path (fst f))
      (dwt_haar_files coeffs_haar ++ dwt_db4_files coeffs_db4 ++
       map multilevel_file (enumerate coeffs_multi))
  = dwt_names (length coeffs_multi).
Proof.
  unfold dwt_names. rewrite !map_app. cbn [dwt_haar_files dwt_db4_files map fst app].
  do 5 f_equal. rewrite map_map. rewrite <- enumerate_fst, map_map. reflexivity.
Qed.

Lemma multilevel_name_fresh (n i : nat) :
  (n <= i)%nat -> full_path ("dwt_haar_multilevel_" +:+ pretty i +:+ ".txt") ∉ dwt_names n.
Proof.
  intros Hi. unfold dwt_names. rewrite elem_of_app. intros [H|H].
  - assert (Hf : full_path ("dwt_haar_multilevel_" +:+ pretty i +:+ ".txt") ∈ fixed_names).
    { unfold fixed_names, dwt_names. rewrite !elem_of_app. left. right. now left. }
    apply fixed_names_not_level in Hf. discriminate Hf.
  - apply list_elem_of_In, in_map_iff in H as (j & Hj & Hin).
    apply level_name_inj in Hj. apply in_seq in Hin. lia.
Qed.

(** X6: when its three library calls return, the DWT stage ends
    normally; it opens its five fixed files and then one file
    [dwt_haar_multilevel_<i>.txt] per band returned by [pywt.wavedec],
    numbered from 0 in list order.  The file of band [i] holds the header
    naming level [i] and the coefficients of the band, one per line.  A
    file with a higher number, left by an earlier run, is not touched. *)
Theorem dwt_stage_bands (w : world) coeffs_haar coeffs_db4 coeffs_multi :
  pywt_dwt lib test_signal "haar" = Ok coeffs_haar ->
  pywt_dwt lib test_signal "db4" = Ok coeffs_db4 ->
  pywt_wavedec lib test_signal "haar" 3 = Ok coeffs_multi ->
  let w' := snd (Full.generate_dwt_reference lib w) in
  fst (Full.generate_dwt_reference lib w) = Ok tt /\
  opened w' = opened w ++ dwt_names (length coeffs_multi) /\
  (forall i band, coeffs_multi !! i = Some band ->
     exists text,
       files w' !! full_path ("dwt_haar_multilevel_" +:+ pretty i +:+ ".txt") = Some text /\
       lines text = ("# Haar multi-level decomposition level " +:+ pretty i)
                    :: map (fun x => format_e16 (SFloat x)) band) /\
  (forall i, (length coeffs_multi <= i)%nat ->
     files w' !! full_path ("dwt_haar_multilevel_" +:+ pretty i +:+ ".txt") =
     files w !! full_path ("dwt_haar_multilevel_" +:+ pretty i +:+ ".txt")).
Proof.
  intros Hh Hd Hm. cbv zeta.
  rewrite (generate_dwt_reference_eq lib w _ _ _ Hh Hd Hm). cbn [fst snd].
  split; [reflexivity|]. split.
  { rewrite opened_wrote_all. unfold stage_heading. cbn [print snd opened].
    f_equal. apply dwt_file_names. }
  split.
  - intros i band Hi. eexists. split.
    + apply (files_wrote_all_lookup _ _ (multilevel_file (i, band))).
      * rewrite dwt_file_names. apply NoDup_dwt_names.
      * rewrite !elem_of_app. right. right. apply list_elem_of_fmap_2.
        now apply enumerate_lookup.
    + cbn [multilevel_file fst snd]. rewrite lines_vector_text.
      * unfold Full.floats. now rewrite map_map.
      * change (no_newline ("Haar multi-level decomposition level " +:+ pretty i) = true).
        rewrite no_newline_app. now rewrite no_newline_pretty.
  - intros i Hi. rewrite files_wrote_all_other; [reflexivity|].
    rewrite dwt_file_names. now apply multilevel_name_fresh.
Qed.

End StageFiles.

(** ** The MODWT stage and a partial DWT stage *)

Section MoreStages.

Variable lib : numlib.

Lemma for_each_ok_in {A} (xs : list A) (files_of : A -> list (string * string))
      (body : A -> M unit) (w : world) :
  (forall x w', x ∈ xs -> body x w' = (Ok tt, wrote_all (files_of x) w')) ->
  for_each xs body w = (Ok tt, wrote_all (flat_map files_of xs) w).
Proof.
  revert w. induction xs as [|x xs IH]; intros w Hb; [reflexivity|].
  cbn [for_each flat_map]. rewrite (bind_eq _ _ _ _ _ (Hb x w ltac:(left))).
  rewrite IH by (intros y w' Hy; apply Hb; now right). now rewrite wrote_all_app.
Qed.

(** A loop stops at the first iteration that raises. *)
Lemma for_each_raise {A} (pre post : list A) (x : A) (files_of : A -> list (string * string))
      (body : A -> M unit) (e : exn) (fs : list (string * string)) (w : world) :
  (forall y w', y ∈ pre -> body y w' = (Ok tt, wrote_all (files_of y) w')) ->
  (forall w', body x w' = (Raise e, wrote_all fs w')) ->
  for_each (pre ++ x :: post) body w = (Raise e, wrote_all (flat_map files_of pre ++ fs) w).
Proof.
  revert w. induction pre as [|y pre IH]; intros w Hpre Hx.
  - cbn [app for_each flat_map]. unfold bind. rewrite Hx. reflexivity.
  - cbn [app for_each flat_map]. rewrite (bind_eq _ _ _ _ _ (Hpre y w ltac:(left))).
    rewrite IH; [| intros z w' Hz; apply Hpre; now right | exact Hx].
    rewrite <- app_assoc. now rewrite (wrote_all_app (files_of y)).
Qed.

(** *** The MODWT stage *)

Lemma generate_modwt_reference_eq (w : world) coeffs :
  pywt_swt lib test_signal "haar" 3 false = Ok coeffs ->
  Full.generate_modwt_reference lib w =
  (Ok tt, wrote_all (modwt_input_file :: flat_map modwt_level_files (enumerate coeffs))
                    (stage_heading "MODWT Reference Data" w)).
Proof.
  intros Hc. unfold Full.generate_modwt_reference. cbv zeta. fold test_signal.
  rewrite print_bind, (lift_bind_ok _ _ _ _ Hc), sv_bind.
  rewrite (for_each_save_vectors _ modwt_level_files); [reflexivity|].
  intros [i [approx detail]] w'. rewrite sv_bind. apply save_vector_wrote.
Qed.

Lemma modwt_file_names (coeffs : list (list f64 * list f64)) :
  map (fun f => full_path (fst f))
      (modwt_input_file :: flat_map modwt_level_files (enumerate coeffs))
  = modwt_names (length coeffs).
Proof.
  unfold modwt_names. cbn [map modwt_input_file fst]. f_equal.
  rewrite <- enumerate_fst. generalize (enumerate coeffs). intros l.
  induction l as [|p l IH]; [reflexivity|].
  cbn [flat_map map]. rewrite map_app, IH. reflexivity.
Qed.

Lemma elem_of_flat_map_enumerate {A B} (f : nat * A -> list B) (xs : list A)
      (i : nat) (x : A) (y : B) :
  xs !! i = Some x -> y ∈ f (i, x) -> y ∈ flat_map f (enumerate xs).
Proof.
  intros Hi Hy. apply list_elem_of_In, in_flat_map. exists (i, x).
  split; apply list_elem_of_In; [now apply enumerate_lookup | exact Hy].
Qed.

(** X8: when [pywt.swt] returns, the MODWT stage writes the input
    file and, for the [i]-th pair [(approx, detail)] of the returned list
    (counted from 0), the files [modwt_haar_detail_level<i+1>.txt] and
    [modwt_haar_approx_level<i+1>.txt], which hold the detail and the
    approximation coefficients of that pair under a header naming level
    [i+1].  Levels are numbered from 1: no level-0 file is written. *)
Theorem modwt_stage_levels (w : world) coeffs :
  pywt_swt lib test_signal "haar" 3 false = Ok coeffs ->
  let w' := snd (Full.generate_modwt_reference lib w) in
  fst (Full.generate_modwt_reference lib w) = Ok tt /\
  opened w' = opened w ++ modwt_names (length coeffs) /\
  (forall i approx detail, coeffs !! i = Some (approx, detail) ->
     exists detail_text approx_text,
       files w' !! full_path ("modwt_haar_detail_level" +:+ pretty (i + 1)%nat +:+ ".txt")
         = Some detail_text /\
       files w' !! full_path ("modwt_haar_approx_level" +:+ pretty (i + 1)%nat +:+ ".txt")
         = Some approx_text /\
       lines detail_text = ("# MODWT Haar detail coefficients level " +:+ pretty (i + 1)%nat)
                           :: map (fun x => format_e16 (SFloat x)) detail /\
       lines approx_text = ("# MODWT Haar approximation coefficients level " +:+ pretty (i + 1)%nat)
                           :: map (fun x => format_e16 (SFloat x)) approx) /\
  (full_path "modwt_haar_detail_level0.txt" ∉ modwt_names (length coeffs)) /\
  (full_path "modwt_haar_approx_level0.txt" ∉ modwt_names (length coeffs)).
Proof.
  intros Hc. cbv zeta.
  rewrite (generate_modwt_reference_eq w _ Hc). cbn [fst snd].
  split; [reflexivity|]. split.
  { rewrite opened_wrote_all. unfold stage_heading. cbn [print snd opened].
    f_equal. apply modwt_file_names. }
  split.
  - intros i approx detail Hi.
    pose (fd := ("modwt_haar_detail_level" +:+ pretty (i + 1)%nat +:+ ".txt",
                 vector_text (Full.floats detail)
                   (Some ("MODWT Haar detail coefficients level " +:+ pretty (i + 1)%nat)))).
    pose (fa := ("modwt_haar_approx_level" +:+ pretty (i + 1)%nat +:+ ".txt",
                 vector_text (Full.floats approx)
                   (Some ("MODWT Haar approximation coefficients level " +:+ pretty (i + 1)%nat)))).
    exists (snd fd), (snd fa). split; [|split; [|split]].
    + apply (files_wrote_all_lookup _ _ fd).
      * rewrite modwt_file_names. apply NoDup_modwt_names.
      * right. apply (elem_of_flat_map_enumerate _ _ _ _ _ Hi). left.
    + apply (files_wrote_all_lookup _ _ fa).
      * rewrite modwt_file_names. apply NoDup_modwt_names.
      * right. apply (elem_of_flat_map_enumerate _ _ _ _ _ Hi). right. left.
    + unfold fd. cbn [fst snd]. rewrite lines_vector_text.
      * unfold Full.floats. now rewrite map_map.
      * change (no_newline ("MODWT Haar detail coefficients level " +:+ pretty (i + 1)%nat) = true).
        rewrite no_newline_app. now rewrite no_newline_pretty.
    + unfold fa. cbn [fst snd]. rewrite lines_vector_text.
      * unfold Full.floats. now rewrite map_map.
      * change (no_newline ("MODWT Haar approximation coefficients level " +:+ pretty (i + 1)%nat) = true).
        rewrite no_newline_app. now rewrite no_newline_pretty.
  - split; intros H.
    + unfold modwt_names in H. apply elem_of_cons in H as [H|H]; [discriminate H|].
      apply elem_of_modwt_levels in H as (j & _ & H). unfold modwt_level_names in H.
      apply elem_of_cons in H as [H|H]; [|apply list_elem_of_singleton in H; discriminate H].
      apply (level_name_inj "modwt_haar_detail_level" ".txt" 0 (j + 1)) in H. lia.
    + unfold modwt_names in H. apply elem_of_cons in H as [H|H]; [discriminate H|].
      apply elem_of_modwt_levels in H as (j & _ & H). unfold modwt_level_names in H.
      apply elem_of_cons in H as [H|H]; [discriminate H|apply list_elem_of_singleton in H].
      apply (level_name_inj "modwt_haar_approx_level" ".txt" 0 (j + 1)) in H. lia.
Qed.

(** X9: when [pywt.swt] raises, the MODWT stage has only printed
    its heading: no file is opened, not even the input file, and the
    directory is unchanged. *)
Theorem modwt_stage_failure (w : world) (e : exn) :
  pywt_swt lib test_signal "haar" 3 false = Raise e ->
  let w' := snd (Full.generate_modwt_reference lib w) in
  fst (Full.generate_modwt_reference lib w) = Raise e /\
  opened w' = opened w /\ files w' = files w /\
  stdout w' = stdout w ++ [nl +:+ "=== Generating MODWT Reference Data ==="].
Proof.
  intros Hc. cbv zeta. unfold Full.generate_modwt_reference. cbv zeta. fold test_signal.
  rewrite print_bind, (lift_bind_raise _ _ _ _ Hc). repeat split.
Qed.

(** X7: when [pywt.dwt(signal, 'db4')] raises after the Haar
    transform has returned, the exception leaves the stage after the three
    Haar files have been written: they are the only files opened, they
    hold the Haar coefficients, and every other file is unchanged. *)
Theorem dwt_stage_db4_failure (w : world) coeffs_haar (e : exn) :
  pywt_dwt lib test_signal "haar" = Ok coeffs_haar ->
  pywt_dwt lib test_signal "db4" = Raise e ->
  let w' := snd (Full.generate_dwt_reference lib w) in
  fst (Full.generate_dwt_reference lib w) = Raise e /\
  opened w' = opened w ++ map full_path
                ["dwt_haar_input.txt"; "dwt_haar_approx.txt"; "dwt_haar_detail.txt"] /\
  files w' !! full_path "dwt_haar_approx.txt"
    = Some (vector_text (Full.floats (fst coeffs_haar)) (Some "Haar approximation coefficients")) /\
  files w' !! full_path "dwt_haar_detail.txt"
    = Some (vector_text (Full.floats (snd coeffs_haar)) (Some "Haar detail coefficients")) /\
  (forall p, p ∉ map full_path
                ["dwt_haar_input.txt"; "dwt_haar_approx.txt"; "dwt_haar_detail.txt"] ->
             files w' !! p = files w !! p).
Proof.
  intros Hh Hd. cbv zeta. unfold Full.generate_dwt_reference. cbv zeta. fold test_signal.
  rewrite print_bind, (lift_bind_ok _ _ _ _ Hh), !sv_bind, (lift_bind_raise _ _ _ _ Hd).
  cbn [fst snd]. split; [reflexivity|]. split.
  { cbn [wrote opened fst snd print map]. now rewrite <- !app_assoc. }
  split; [|split].
  - cbn [wrote files fst snd]. rewrite lookup_insert_ne by discriminate.
    apply lookup_insert_eq.
  - cbn [wrote files fst snd]. apply lookup_insert_eq.
  - intros p Hp. cbn [map] in Hp. rewrite !not_elem_of_cons in Hp.
    destruct Hp as (H1 & H2 & H3 & _).
    cbn [wrote files fst snd print]. now rewrite !lookup_insert_ne by congruence.
Qed.

End MoreStages.

(** ** The CWT and FFT stages *)

Section CwtFft.

Variable lib : numlib.

Lemma save_matrix_wrote data filename header w :
  Full.save_matrix data filename header w = (Ok tt, wrote w (filename, matrix_text data header)).
Proof. apply save_matrix_eq. Qed.

Lemma save_complex_matrix_wrote data filename header w :
  Full.save_complex_matrix data filename header w
  = (Ok tt, wrote w (filename, complex_matrix_text data header)).
Proof. apply save_complex_matrix_eq. Qed.

Lemma sm_bind {B} data filename header (k : unit -> M B) (w : world) :
  bind (Full.save_matrix data filename header) k w
  = k tt (wrote w (filename, matrix_text data header)).
Proof. apply bind_eq, save_matrix_wrote. Qed.

(** *** The CWT stage *)

(** X11: when the first [scipy.signal.cwt] call raises (as it does
    when the function is missing from the installed SciPy), the CWT stage
    has written nothing: the chirp input and the scales are saved only
    after the transform has returned. *)
Theorem cwt_stage_failure (w : world) (signal : list f64) (e : exn) :
  scipy_chirp lib (np_linspace lib 0 1 1000) 10 1 100 = Ok signal ->
  scipy_cwt_morlet2 lib (Full.floats signal) cwt_widths = Raise e ->
  let w' := snd (Full.generate_cwt_reference lib w) in
  fst (Full.generate_cwt_reference lib w) = Raise e /\
  opened w' = opened w /\ files w' = files w /\
  stdout w' = stdout w ++ [nl +:+ "=== Generating CWT Reference Data ==="].
Proof.
  intros Hs Hc. cbv zeta. unfold Full.generate_cwt_reference. cbv zeta.
  fold cwt_widths.
  rewrite print_bind, (lift_bind_ok _ _ _ _ Hs), (lift_bind_raise _ _ _ _ Hc). repeat split.
Qed.

Lemma generate_cwt_reference_eq (w : world) signal cwt_matrix small_cwt :
  scipy_chirp lib (np_linspace lib 0 1 1000) 10 1 100 = Ok signal ->
  scipy_cwt_morlet2 lib (Full.floats signal) cwt_widths = Ok cwt_matrix ->
  scipy_cwt_morlet2 lib test_signal cwt_small_scales = Ok small_cwt ->
  Full.generate_cwt_reference lib w =
  (Ok tt,
   wrote_all
     [ ("cwt_chirp_input.txt",
        vector_text (Full.floats signal) (Some "Chirp signal 10-100Hz, 1 second, fs=1000Hz"));
       ("cwt_scales.txt", vector_text cwt_widths (Some "CWT scales"));
       ("cwt_morlet_magnitude.txt",
        matrix_text (map (map (fun z => SFloat (np_abs lib z))) cwt_matrix)
                    (Some "CWT magnitude (Morlet)"));
       ("cwt_morlet_phase.txt",
        matrix_text (map (map (fun z => SFloat (np_angle lib z))) cwt_matrix)
                    (Some "CWT phase (Morlet)"));
       ("cwt_small_input.txt", vector_text test_signal (Some "Small test signal"));
       ("cwt_small_scales.txt", vector_text cwt_small_scales (Some "Small test scales"));
       ("cwt_small_output.txt", complex_matrix_text small_cwt (Some "CWT output (complex)")) ]
     (stage_heading "CWT Reference Data" w)).
Proof.
  intros Hs Hc Hsmall. unfold Full.generate_cwt_reference. cbv zeta.
  fold cwt_widths. fold test_signal. fold cwt_small_scales.
  rewrite print_bind, (lift_bind_ok _ _ _ _ Hs), (lift_bind_ok _ _ _ _ Hc).
  rewrite !sv_bind, !sm_bind, (lift_bind_ok _ _ _ _ Hsmall), !sv_bind.
  rewrite save_complex_matrix_wrote. reflexivity.
Qed.


(** X10: when its library calls return, the CWT stage opens its
    seven files in order; the magnitude and the phase file have the header
    line and then one line per row of the transform, and splitting a line
    at the spaces gives the [.16e] texts of [np.abs] (respectively
    [np.angle]) of the entries of that row, provided no row of the
    transform is empty. *)
Theorem cwt_stage_matrices (w : world) signal cwt_matrix small_cwt :
  scipy_chirp lib (np_linspace lib 0 1 1000) 10 1 100 = Ok signal ->
  scipy_cwt_morlet2 lib (Full.floats signal) cwt_widths = Ok cwt_matrix ->
  scipy_cwt_morlet2 lib test_signal cwt_small_scales = Ok small_cwt ->
  Forall (fun row => row <> []) cwt_matrix ->
  let w' := snd (Full.generate_cwt_reference lib w) in
  fst (Full.generate_cwt_reference lib w) = Ok tt /\
  opened w' = opened w ++ cwt_names /\
  exists magnitude phase,
    files w' !! full_path "cwt_morlet_magnitude.txt" = Some magnitude /\
    files w' !! full_path "cwt_morlet_phase.txt" = Some phase /\
    head (lines magnitude) = Some "# CWT magnitude (Morlet)" /\
    head (lines phase) = Some "# CWT phase (Morlet)" /\
    map (split_on " ") (drop 1 (lines magnitude)) =
      map (map (fun z => format_e16 (SFloat (np_abs lib z)))) cwt_matrix /\
    map (split_on " ") (drop 1 (lines phase)) =
      map (map (fun z => format_e16 (SFloat (np_angle lib z)))) cwt_matrix.
Proof.
  intros Hs Hc Hsmall Hrows. cbv zeta.
  rewrite (generate_cwt_reference_eq w _ _ _ Hs Hc Hsmall). cbn [fst snd].
  split; [reflexivity|]. split.
  { rewrite opened_wrote_all. unfold stage_heading. cbn [print snd opened]. reflexivity. }
  eexists _, _. split; [|split].
  - cbn [wrote_all fold_left wrote files fst snd].
    rewrite !lookup_insert_ne by discriminate. apply lookup_insert_eq.
  - cbn [wrote_all fold_left wrote files fst snd].
    rewrite !lookup_insert_ne by discriminate. apply lookup_insert_eq.
  - rewrite !lines_matrix_text by reflexivity.
    change (truthy (Some "CWT magnitude (Morlet)")) with true.
    change (truthy (Some "CWT phase (Morlet)")) with true.
    cbn [app head drop]. split; [reflexivity|]. split; [reflexivity|].
    assert (Hne : forall f : complex -> scalar,
               Forall (fun row : list scalar => row <> []) (map (map f) cwt_matrix)).
    { intros f. apply Forall_forall. intros row Hin.
      apply list_elem_of_In, in_map_iff in Hin as (r & <- & Hr).
      rewrite Forall_forall in Hrows. specialize (Hrows r (proj2 (list_elem_of_In _ _) Hr)).
      now destruct r. }
    rewrite !drop_0, !split_matrix_rows by apply Hne.
    rewrite !map_map. split; apply map_ext; intros row; now rewrite map_map.
Qed.

(** *** The FFT stage *)

Lemma block_bind {A B} (path h : string) (data : list A) (g : A -> string)
      (k : unit -> M B) (w : world) :
  bind (open_w path)
       (fun _ => bind (f_write path h)
                      (fun _ => bind (for_each data (fun x => f_write path (g x))) k)) w
  = k tt {| files := <[path := h +:+ concat_text (map g data)]> (files w);
            opened := opened w ++ [path];
            stdout := stdout w |}.
Proof.
  unfold bind at 1, open_w at 1. unfold bind at 1. rewrite f_write_eq. cbv beta iota.
  unfold bind at 1. rewrite for_each_f_write. cbn [files opened stdout].
  now rewrite alter_alter_eq, alter_insert_eq.
Qed.

Lemma generate_fft_reference_eq (w : world) fft1 fft2 :
  scipy_fft lib (Real (Full.floats (fft_signal1 lib))) = Ok fft1 ->
  scipy_fft lib (Cplx fft_signal2) = Ok fft2 ->
  Full.generate_fft_reference lib w =
  let w3 := wrote_all (fft_sine_files lib fft1) (stage_heading "FFT Reference Data" w) in
  (Ok tt,
   {| files := <[full_path "fft_complex_output.txt" :=
                   complex_lines_text "FFT of complex signal" fft2]>
               (<[full_path "fft_complex_input.txt" :=
                    complex_lines_text "Complex test signal" fft_signal2]> (files w3));
      opened := (opened w3 ++ [full_path "fft_complex_input.txt"])
                ++ [full_path "fft_complex_output.txt"];
      stdout := stdout w3 ++ ["Generated: fft_complex_input.txt, fft_complex_output.txt"] |}).
Proof.
  intros H1 H2. unfold Full.generate_fft_reference. cbv zeta.
  fold (fft_signal1 lib). fold fft_signal2.
  rewrite print_bind, (lift_bind_ok _ _ _ _ H1), !sv_bind, (lift_bind_ok _ _ _ _ H2).
  rewrite block_bind, block_bind. reflexivity.
Qed.

Lemma lines_complex_lines_text (title : string) (zs : list complex) :
  no_newline title = true ->
  lines (complex_lines_text title zs) = ("# " +:+ title) :: map Full.format_complex zs.
Proof.
  intros Ht. unfold complex_lines_text. rewrite !str_app_assoc, <- (str_app_assoc "# ").
  rewrite lines_line by (rewrite no_newline_app; now rewrite Ht).
  f_equal. rewrite <- (lines_concat_text (map Full.format_complex zs)).
  - now rewrite map_map.
  - apply Forall_forall. intros l Hin.
    apply list_elem_of_In, in_map_iff in Hin as (z & <- & _).
    rewrite no_newline_forall. now apply format_complex_lacks.
Qed.

(** X12: when both transforms return, the FFT stage opens its
    five files in order and prints one confirmation for each sine file and
    a single one for the two complex files.  The complex input file holds
    the eight values [1+2j, ..., 15+16j], one [real,imag] pair per line;
    the complex output file holds one line per transform value, which
    splits at the comma into the texts of its real and imaginary part. *)
Theorem fft_stage_complex_files (w : world) fft1 fft2 :
  scipy_fft lib (Real (Full.floats (fft_signal1 lib))) = Ok fft1 ->
  scipy_fft lib (Cplx fft_signal2) = Ok fft2 ->
  let w' := snd (Full.generate_fft_reference lib w) in
  fst (Full.generate_fft_reference lib w) = Ok tt /\
  opened w' = opened w ++ fft_names /\
  stdout w' = stdout w ++
    [ nl +:+ "=== Generating FFT Reference Data ===";
      "Generated: fft_sine_input.txt"; "Generated: fft_sine_output_real.txt";
      "Generated: fft_sine_output_imag.txt";
      "Generated: fft_complex_input.txt, fft_complex_output.txt" ] /\
  exists input output,
    files w' !! full_path "fft_complex_input.txt" = Some input /\
    files w' !! full_path "fft_complex_output.txt" = Some output /\
    lines input =
      [ "# Complex test signal";
        "1.0000000000000000e+00,2.0000000000000000e+00";
        "3.0000000000000000e+00,4.0000000000000000e+00";
        "5.0000000000000000e+00,6.0000000000000000e+00";
        "7.0000000000000000e+00,8.0000000000000000e+00";
        "9.0000000000000000e+00,1.0000000000000000e+01";
        "1.1000000000000000e+01,1.2000000000000000e+01";
        "1.3000000000000000e+01,1.4000000000000000e+01";
        "1.5000000000000000e+01,1.6000000000000000e+01" ] /\
    head (lines output) = Some "# FFT of complex signal" /\
    map (split_on ",") (drop 1 (lines output)) =
      map (fun z => [format_e16 (SFloat (re z)); format_e16 (SFloat (im z))]) fft2.
Proof.
  intros H1 H2. cbv zeta.
  rewrite (generate_fft_reference_eq w _ _ H1 H2). cbv zeta. cbn [fst snd files opened stdout].
  split; [reflexivity|]. split.
  { rewrite opened_wrote_all. unfold stage_heading. cbn [print snd opened].
    rewrite <- !app_assoc. reflexivity. }
  split.
  { rewrite stdout_wrote_all. unfold stage_heading. cbn [print snd stdout].
    rewrite <- !app_assoc. reflexivity. }
  eexists _, _. split; [|split].
  - rewrite lookup_insert_ne by discriminate. apply lookup_insert_eq.
  - apply lookup_insert_eq.
  - split; [vm_compute; reflexivity|].
    rewrite lines_complex_lines_text by reflexivity. cbn [head drop].
    split; [reflexivity|]. rewrite drop_0, map_map. apply map_ext. intros z. apply split_complex.
Qed.

(** X13: when the transform of the complex signal raises,
    the three sine files have been written and neither complex file is
    opened: the complex input is written only after its transform has
    returned. *)
Theorem fft_stage_complex_failure (w : world) fft1 (e : exn) :
  scipy_fft lib (Real (Full.floats (fft_signal1 lib))) = Ok fft1 ->
  scipy_fft lib (Cplx fft_signal2) = Raise e ->
  let w' := snd (Full.generate_fft_reference lib w) in
  fst (Full.generate_fft_reference lib w) = Raise e /\
  opened w' = opened w ++ map full_path
                ["fft_sine_input.txt"; "fft_sine_output_real.txt"; "fft_sine_output_imag.txt"] /\
  files w' !! full_path "fft_complex_input.txt" = files w !! full_path "fft_complex_input.txt" /\
  files w' !! full_path "fft_complex_output.txt" = files w !! full_path "fft_complex_output.txt".
Proof.
  intros H1 H2. cbv zeta. unfold Full.generate_fft_reference. cbv zeta.
  fold (fft_signal1 lib). fold fft_signal2.
  rewrite print_bind, (lift_bind_ok _ _ _ _ H1), !sv_bind, (lift_bind_raise _ _ _ _ H2).
  cbn [fst snd]. split; [reflexivity|]. split.
  { cbn [wrote opened fst snd print map]. now rewrite <- !app_assoc. }
  cbn [wrote files fst snd print]. rewrite !lookup_insert_ne by discriminate.
  split; reflexivity.
Qed.

End CwtFft.

(** ** The filter stage and the FFT of an edge case *)

Section FilterStage.

Variable lib : numlib.

Lemma filter_body_ok (wavelet_name : string) (wv : wavelet) (w : world) :
  pywt_Wavelet lib wavelet_name = Ok wv ->
  (wavelet <- lift (pywt_Wavelet lib wavelet_name) ;;
   Full.save_vector (Full.floats (dec_lo wavelet)) ("filter_" +:+ wavelet_name +:+ "_dec_lo.txt")
     (Some (wavelet_name +:+ " decomposition low-pass filter")) ;;
   Full.save_vector (Full.floats (dec_hi wavelet)) ("filter_" +:+ wavelet_name +:+ "_dec_hi.txt")
     (Some (wavelet_name +:+ " decomposition high-pass filter")) ;;
   Full.save_vector (Full.floats (rec_lo wavelet)) ("filter_" +:+ wavelet_name +:+ "_rec_lo.txt")
     (Some (wavelet_name +:+ " reconstruction low-pass filter")) ;;
   Full.save_vector (Full.floats (rec_hi wavelet)) ("filter_" +:+ wavelet_name +:+ "_rec_hi.txt")
     (Some (wavelet_name +:+ " reconstruction high-pass filter")))%py w
  = (Ok tt, wrote_all (filter_files_of lib wavelet_name) w).
Proof.
  intros H. unfold filter_files_of. rewrite H.
  rewrite (lift_bind_ok _ _ _ _ eq_refl), !sv_bind. apply save_vector_wrote.
Qed.

Lemma filter_files_of_names (wavelet_name : string) (wv : wavelet) :
  pywt_Wavelet lib wavelet_name = Ok wv ->
  map (fun f => full_path (fst f)) (filter_files_of lib wavelet_name)
  = filter_names_of wavelet_name.
Proof. intros H. unfold filter_files_of. now rewrite H. Qed.

Lemma filter_files_names (names : list string) :
  (forall name, name ∈ names -> exists wv, pywt_Wavelet lib name = Ok wv) ->
  map (fun f => full_path (fst f)) (flat_map (filter_files_of lib) names)
  = flat_map filter_names_of names.
Proof.
  induction names as [|name names IH]; intros H; [reflexivity|].
  cbn [flat_map]. rewrite map_app, IH by (intros n Hn; apply H; now right).
  destruct (H name ltac:(left)) as [wv Hwv]. now rewrite (filter_files_of_names _ _ Hwv).
Qed.

Lemma NoDup_filter_names : NoDup filter_names.
Proof. apply (bool_decide_unpack _). vm_compute. reflexivity. Qed.

Lemma filter_header_no_newline (name suffix : string) :
  name ∈ Full.wavelets -> no_newline suffix = true -> no_newline (name +:+ suffix) = true.
Proof.
  intros Hin Hs. rewrite no_newline_app, Hs.
  unfold Full.wavelets in Hin.
  repeat (apply elem_of_cons in Hin as [->|Hin]; [reflexivity|]).
  now apply elem_of_nil in Hin.
Qed.

(** X14: when [pywt.Wavelet] returns for the six wavelet names,
    the filter stage ends normally and opens twenty-four files, four per
    wavelet in the order of the list; the file of each bank holds a header
    line and then the taps of that bank, one per line. *)
Theorem filter_stage_files (w : world) :
  (forall name, name ∈ Full.wavelets -> exists wv, pywt_Wavelet lib name = Ok wv) ->
  let w' := snd (Full.generate_wavelet_filter_reference lib w) in
  fst (Full.generate_wavelet_filter_reference lib w) = Ok tt /\
  opened w' = opened w ++ filter_names /\
  length filter_names = 24%nat /\
  (forall name wv, name ∈ Full.wavelets -> pywt_Wavelet lib name = Ok wv ->
     forall bank taps,
       (bank, taps) ∈ [ ("_dec_lo.txt", dec_lo wv); ("_dec_hi.txt", dec_hi wv);
                        ("_rec_lo.txt", rec_lo wv); ("_rec_hi.txt", rec_hi wv) ] ->
       exists text,
         files w' !! full_path ("filter_" +:+ name +:+ bank) = Some text /\
         length (lines text) = S (length taps) /\
         drop 1 (lines text) = map (fun x => format_e16 (SFloat x)) taps).
Proof.
  intros Hall. cbv zeta. unfold Full.generate_wavelet_filter_reference.
  rewrite print_bind.
  rewrite (for_each_ok_in _ (filter_files_of lib)).
  2:{ intros name w' Hin. destruct (Hall name Hin) as [wv Hwv]. now apply (filter_body_ok _ wv). }
  cbn [fst snd]. split; [reflexivity|]. split.
  { rewrite opened_wrote_all. cbn [print snd opened]. f_equal. now apply filter_files_names. }
  split; [reflexivity|].
  intros name wv Hin Hwv bank taps Hbank.
  assert (Hfiles : forall n t, (n, t) ∈ filter_files name wv ->
            files (wrote_all (flat_map (filter_files_of lib) Full.wavelets)
                     (snd (print (nl +:+ "=== Generating Wavelet Filter Reference Data ===") w)))
              !! full_path n = Some t).
  { intros n t Hf. apply (files_wrote_all_lookup _ _ (n, t)).
    - rewrite filter_files_names by exact Hall. apply NoDup_filter_names.
    - apply list_elem_of_In, in_flat_map. exists name. split; [now apply list_elem_of_In|].
      unfold filter_files_of. rewrite Hwv. now apply list_elem_of_In. }
  assert (Hlines : forall (xs : list f64) (suffix : string),
            no_newline suffix = true ->
            lines (vector_text (Full.floats xs) (Some (name +:+ suffix)))
            = ("# " +:+ name +:+ suffix) :: map (fun x => format_e16 (SFloat x)) xs).
  { intros xs suffix Hs. rewrite lines_vector_text.
    - unfold Full.floats. rewrite map_map.
      replace (truthy (Some (name +:+ suffix))) with true; [reflexivity|].
      unfold Full.wavelets in Hin.
      repeat (apply elem_of_cons in Hin as [->|Hin]; [reflexivity|]).
      now apply elem_of_nil in Hin.
    - now apply filter_header_no_newline. }
  repeat (apply elem_of_cons in Hbank as [Hbank|Hbank];
          [injection Hbank as -> ->; eexists; split;
           [ eapply Hfiles; unfold filter_files;
             repeat first [left | right]
           | rewrite Hlines by reflexivity; cbn [length drop];
             rewrite length_map, drop_0; split; reflexivity ] |]).
  now apply elem_of_nil in Hbank.
Qed.

(** X15: when [pywt.Wavelet] raises for a name of the list and
    returns for the names before it, the filter stage raises that
    exception; the files opened are the four of each earlier wavelet, and
    no file of the failing wavelet or of a later one is among them. *)
Theorem filter_stage_failure (w : world) (pre post : list string) (name : string) (e : exn) :
  Full.wavelets = pre ++ name :: post ->
  (forall n, n ∈ pre -> exists wv, pywt_Wavelet lib n = Ok wv) ->
  pywt_Wavelet lib name = Raise e ->
  let w' := snd (Full.generate_wavelet_filter_reference lib w) in
  fst (Full.generate_wavelet_filter_reference lib w) = Raise e /\
  opened w' = opened w ++ flat_map filter_names_of pre /\
  (forall p, p ∈ flat_map filter_names_of (name :: post) -> p ∉ flat_map filter_names_of pre).
Proof.
  intros Hsplit Hpre Hname. cbv zeta. unfold Full.generate_wavelet_filter_reference.
  rewrite print_bind, Hsplit.
  rewrite (for_each_raise pre post name (filter_files_of lib) _ e []).
  - cbn [fst snd]. split; [reflexivity|]. split.
    + rewrite opened_wrote_all, app_nil_r. cbn [print snd opened]. f_equal.
      now apply filter_files_names.
    + intros p Hp Hq. pose proof NoDup_filter_names as Hnd.
      unfold filter_names in Hnd. rewrite Hsplit in Hnd.
      rewrite flat_map_app in Hnd. apply NoDup_app in Hnd as (_ & Hdisj & _).
      now apply (Hdisj p Hq).
  - intros y w' Hy. destruct (Hpre y Hy) as [wv Hwv]. now apply (filter_body_ok _ wv).
  - intros w'. now rewrite (lift_bind_raise _ _ _ _ Hname).
Qed.

End FilterStage.

Section EdgeFft.

Variable lib : numlib.

(** A loop one of whose iterations always raises does not end normally. *)
Lemma for_each_fails {A} (xs : list A) (x : A) (body : A -> M unit) :
  x ∈ xs ->
  (forall w, exists e, fst (body x w) = Raise e) ->
  forall w, exists e, fst (for_each xs body w) = Raise e.
Proof.
  intros Hin Hx. induction xs as [|y xs IH]; intros w.
  - now apply elem_of_nil in Hin.
  - cbn [for_each]. unfold bind. destruct (body y w) as [[[]|e] w1] eqn:Ey.
    + apply elem_of_cons in Hin as [->|Hin].
      * destruct (Hx w) as [e He]. rewrite Ey in He. discriminate He.
      * now apply IH.
    + now exists e.
Qed.

(** X16: the FFT of an edge case is not protected by a [try]:
    when [scipy.fft.fft] raises on a non-empty edge-case signal, the
    iteration raises the same exception after writing only the input file
    of that signal, and the whole edge-case pass ends with an exception
    from any starting state. *)
Theorem edge_fft_failure_aborts (w : world) (name : string) (signal : list scalar) (e : exn) :
  (name, signal) ∈ Full.edge_signals ->
  signal <> [] ->
  scipy_fft lib (Real signal) = Raise e ->
  fst (Full.edge_case lib (name, signal) w) = Raise e /\
  opened (snd (Full.edge_case lib (name, signal) w))
    = opened w ++ [full_path ("edge_case_" +:+ name +:+ "_input.txt")] /\
  (forall w0, exists e', fst (Full.generate_special_cases lib w0) = Raise e').
Proof.
  intros Hin Hne Hfft.
  assert (Hcase : forall w1,
            Full.edge_case lib (name, signal) w1 =
            (Raise e, wrote w1 ("edge_case_" +:+ name +:+ "_input.txt",
                                vector_text signal (Some ("Edge case: " +:+ name))))).
  { intros w1. unfold Full.edge_case.
    destruct signal as [|v signal]; [congruence|]. cbn [length Nat.ltb Nat.leb].
    rewrite sv_bind. unfold bind at 1. now rewrite (lift_bind_raise _ _ _ _ Hfft). }
  rewrite Hcase. cbn [fst snd wrote opened]. split; [reflexivity|]. split; [reflexivity|].
  intros w0. unfold Full.generate_special_cases. rewrite print_bind.
  apply (for_each_fails _ _ _ Hin). intros w1. exists e. now rewrite Hcase.
Qed.

End EdgeFft.

(** ** Runs change the directory only at the paths they open *)

Section Confined.

Lemma confined_silent {A} (m : M A) :
  (forall w, opened (snd (m w)) = opened w /\ files (snd (m w)) = files w) -> confined m.
Proof.
  intros H w. exists []. destruct (H w) as [Ho Hf]. rewrite Ho, Hf, app_nil_r.
  split; [reflexivity|]. split; [reflexivity|]. intros p Hp. now apply elem_of_nil in Hp.
Qed.

Lemma confined_ret {A} (a : A) : confined (ret a).
Proof. now apply confined_silent. Qed.

Lemma confined_raise {A} (e : exn) : confined (@raise A e).
Proof. now apply confined_silent. Qed.

Lemma confined_lift {A} (r : result A) : confined (lift r).
Proof. now apply confined_silent. Qed.

Lemma confined_print (s : string) : confined (print s).
Proof. now apply confined_silent. Qed.

Lemma confined_listdir_len : confined listdir_len.
Proof. now apply confined_silent. Qed.

(** A step that creates or replaces one file. *)
Lemma confined_one_file {A} (m : M A) (path : string) :
  (forall w, exists text,
      opened (snd (m w)) = opened w ++ [path] /\
      files (snd (m w)) = <[path := text]> (files w)) ->
  confined m.
Proof.
  intros H w. destruct (H w) as (text & Ho & Hf). exists [path].
  split; [exact Ho|]. rewrite Hf. split.
  - intros p Hp. apply not_elem_of_cons in Hp as [Hp _]. now rewrite lookup_insert_ne.
  - intros p Hp. apply list_elem_of_singleton in Hp as ->. rewrite lookup_insert_eq. eauto.
Qed.

Lemma confined_after {A} (m : M A) (w w1 : world) (l1 : list string) :
  confined m ->
  opened w1 = opened w ++ l1 ->
  (forall p, p ∉ l1 -> files w1 !! p = files w !! p) ->
  (forall p, p ∈ l1 -> is_Some (files w1 !! p)) ->
  exists l,
    opened (snd (m w1)) = opened w ++ l /\
    (forall p, p ∉ l -> files (snd (m w1)) !! p = files w !! p) /\
    (forall p, p ∈ l -> is_Some (files (snd (m w1)) !! p)).
Proof.
  intros Hm Ho Hf Hs. destruct (Hm w1) as (l2 & Ho2 & Hf2 & Hs2).
  exists (l1 ++ l2). split; [|split].
  - now rewrite Ho2, Ho, app_assoc.
  - intros p Hp. rewrite not_elem_of_app in Hp. destruct Hp as [Hp1 Hp2].
    now rewrite Hf2, Hf.
  - intros p Hp. destruct (decide (p ∈ l2)) as [Hin|Hout]; [now apply Hs2|].
    rewrite Hf2 by exact Hout. apply Hs. apply elem_of_app in Hp as [Hp|Hp]; [exact Hp|].
    contradiction.
Qed.

Lemma confined_bind {A B} (m : M A) (k : A -> M B) :
  confined m -> (forall a, confined (k a)) -> confined (bind m k).
Proof.
  intros Hm Hk w. destruct (Hm w) as (l1 & Ho1 & Hf1 & Hs1). unfold bind.
  destruct (m w) as [[a|e] w1]; cbn [snd] in *.
  - now apply (confined_after (k a) w w1 l1).
  - exists l1. auto.
Qed.

Lemma confined_try_except {A} (m : M A) (handler : exn -> option (M A)) :
  confined m -> (forall e h, handler e = Some h -> confined h) ->
  confined (try_except m handler).
Proof.
  intros Hm Hh w. destruct (Hm w) as (l1 & Ho1 & Hf1 & Hs1). unfold try_except.
  destruct (m w) as [[a|e] w1]; cbn [snd] in *.
  - exists l1. auto.
  - destruct (handler e) as [h|] eqn:He.
    + now apply (confined_after h w w1 l1); [apply (Hh e)| | |].
    + exists l1. auto.
Qed.

Lemma confined_for_each {A} (xs : list A) (body : A -> M unit) :
  (forall x, confined (body x)) -> confined (for_each xs body).
Proof.
  intros Hb. induction xs as [|x xs IH]; [apply confined_ret|].
  cbn [for_each]. apply confined_bind; [apply Hb | intros _; exact IH].
Qed.

Lemma confined_serializer {A} (data : list A) (g : A -> string)
      (path : string) (header : option string) (msg : string) :
  confined (open_w path ;;
            (if truthy header then f_write path ("# " +:+ header_text header +:+ nl) else ret tt) ;;
            for_each data (fun x => f_write path (g x)) ;;
            print msg)%py.
Proof.
  apply (confined_one_file _ path). intros w. rewrite serializer_eq. cbn [snd files opened]. eauto.
Qed.

Lemma confined_basic_save_vector data filename header :
  confined (Basic.save_vector data filename header).
Proof. apply (confined_serializer data (fun value => format_e16 value +:+ nl)). Qed.

Lemma confined_save_vector data filename header :
  confined (Full.save_vector data filename header).
Proof. apply (confined_serializer data (fun value => format_e16 value +:+ nl)). Qed.

Lemma confined_save_matrix data filename header :
  confined (Full.save_matrix data filename header).
Proof. apply (confined_serializer data (fun row => join " " (map format_e16 row) +:+ nl)). Qed.

Lemma confined_save_complex_matrix data filename header :
  confined (Full.save_complex_matrix data filename header).
Proof.
  apply (confined_serializer data (fun row => join " " (map Full.format_complex row) +:+ nl)).
Qed.

(** [with open(path, 'w') as f:] followed by writes to [f] only. *)
Lemma confined_block {A B} (path h : string) (data : list A) (g : A -> string) (k : unit -> M B) :
  confined (k tt) ->
  confined (bind (open_w path)
                 (fun _ => bind (f_write path h)
                                (fun _ => bind (for_each data (fun x => f_write path (g x))) k))).
Proof.
  intros Hk w. rewrite block_bind.
  apply (confined_after (k tt) w _ [path]).
  - exact Hk.
  - reflexivity.
  - intros p Hp. apply not_elem_of_cons in Hp as [Hp _]. cbn [files]. now rewrite lookup_insert_ne.
  - intros p Hp. apply list_elem_of_singleton in Hp as ->. cbn [files].
    rewrite lookup_insert_eq. eauto.
Qed.

Lemma confined_generate_test_parameters : confined Basic.generate_test_parameters.
Proof.
  unfold Basic.generate_test_parameters. apply confined_bind; [apply confined_print|]. intros _.
  cbv zeta. apply (confined_one_file _ (path_join Basic.output_dir "cwt_test_params.txt")).
  intros w. unfold bind, open_w, f_write, print. cbn [snd files opened stdout].
  eexists. split; [reflexivity|].
  rewrite !alter_alter_eq, alter_insert_eq. reflexivity.
Qed.

End Confined.

Ltac confined_step :=
  lazymatch goal with
  | |- confined (Basic.save_vector _ _ _) => apply confined_basic_save_vector
  | |- confined (Full.save_vector _ _ _) => apply confined_save_vector
  | |- confined (Full.save_matrix _ _ _) => apply confined_save_matrix
  | |- confined (Full.save_complex_matrix _ _ _) => apply confined_save_complex_matrix
  | |- confined Basic.generate_test_parameters => apply confined_generate_test_parameters
  | |- confined (print _) => apply confined_print
  | |- confined (ret _) => apply confined_ret
  | |- confined (raise _) => apply confined_raise
  | |- confined (sys_exit _) => apply confined_raise
  | |- confined (lift _) => apply confined_lift
  | |- confined listdir_len => apply confined_listdir_len
  | |- confined (bind (open_w _) _) => apply confined_block
  | |- confined (bind _ _) => apply confined_bind; [| intros ?]
  | |- confined (for_each _ _) => apply confined_for_each; intros ?
  | |- confined (try_except _ _) =>
      apply confined_try_except;
      [| let e := fresh "e" in let h := fresh "h" in let He := fresh "He" in
         intros e h He; destruct e; inversion He; subst; clear He]
  | |- confined (if ?b then _ else _) => destruct b
  | |- confined (let '(_, _) := ?c in _) => destruct c
  | |- confined _ => progress cbv beta zeta
  end.

Ltac confined_auto := repeat confined_step.

Section ConfinedScripts.

Lemma confined_basic_main math_sin abspath : confined (Basic.main math_sin abspath).
Proof.
  unfold Basic.main, Basic.generate_haar_reference, Basic.generate_fft_reference,
    Basic.generate_wavelet_filters.
  confined_auto.
Qed.

Lemma confined_full_script lib abspath installed : confined (Full.script lib abspath installed).
Proof.
  unfold Full.script, Full.import, Full.main, Full.main_try_body,
    Full.generate_fft_reference, Full.generate_dwt_reference, Full.generate_modwt_reference,
    Full.generate_cwt_reference, Full.generate_wavelet_filter_reference,
    Full.generate_special_cases, Full.edge_case.
  confined_auto.
Qed.

End ConfinedScripts.

(** ** The directory after a run *)

Section Directory.

(** The directory after a confined run. *)
Lemma confined_run {A} (m : M A) (dir : gmap string string) :
  confined m ->
  let w' := snd (m (initial dir)) in
  dom (files w') = dom dir ∪ list_to_set (opened w') /\
  (forall p, p ∉ opened w' -> files w' !! p = dir !! p).
Proof.
  intros Hm. cbv zeta. destruct (Hm (initial dir)) as (l & Ho & Hf & Hs).
  cbn [initial opened files app] in Ho, Hf. rewrite Ho. split; [|exact Hf].
  apply set_eq. intros p. rewrite elem_of_union, !elem_of_dom, elem_of_list_to_set.
  destruct (decide (p ∈ l)) as [Hin|Hout].
  - split; [now right | intros _; now apply Hs].
  - rewrite Hf by exact Hout. cbn [initial files]. tauto.
Qed.

(** Running a traced, confined script over its own output changes nothing. *)
Lemma confined_rerun (m : M unit) (Lo Lw : list string) (dir : gmap string string) :
  traced m Lo Lw -> confined m ->
  files (snd (m (initial (files (snd (m (initial dir))))))) = files (snd (m (initial dir))).
Proof.
  intros Ht Hm. destruct (traced_run _ _ _ Ht) as (l & Hop & _ & _ & Hsame & _).
  set (dir1 := files (snd (m (initial dir)))).
  destruct (Hm (initial dir1)) as (l' & Ho & Hf & _).
  rewrite Hop in Ho. apply app_inv_head in Ho. subst l'.
  apply map_eq. intros p. destruct (decide (p ∈ l)) as [Hin|Hout].
  - unfold dir1. now apply Hsame.
  - now rewrite Hf.
Qed.

End Directory.

(** X17: a run of either script never deletes a file and
    changes only the files it opens: the directory after the run holds the
    names it held before and the opened paths, and a path that the run
    did not open keeps its content. *)
Theorem run_keeps_other_files :
  (forall math_sin abspath dir,
      let o := run_process (Basic.script math_sin abspath) (initial dir) in
      dom (files (final o)) = dom dir ∪ list_to_set (opened (final o)) /\
      (forall p, p ∉ opened (final o) -> files (final o) !! p = dir !! p)) /\
  (forall lib abspath installed dir,
      let o := run_process (Full.script lib abspath installed) (initial dir) in
      dom (files (final o)) = dom dir ∪ list_to_set (opened (final o)) /\
      (forall p, p ∉ opened (final o) -> files (final o) !! p = dir !! p)).
Proof.
  split.
  - intros math_sin abspath dir. cbv zeta. rewrite final_run_process.
    apply (confined_run (Basic.script math_sin abspath)), confined_basic_main.
  - intros lib abspath installed dir. cbv zeta. rewrite final_run_process.
    apply (confined_run (Full.script lib abspath installed)), confined_full_script.
Qed.

(** X18: running either script a second time over the
    directory left by a first run (same platform and library functions)
    leaves every file of the directory as it is. *)
Theorem rerun_leaves_directory :
  (forall math_sin abspath dir,
      let run d := files (final (run_process (Basic.script math_sin abspath) (initial d))) in
      run (run dir) = run dir) /\
  (forall lib abspath installed dir,
      let run d := files (final (run_process (Full.script lib abspath installed) (initial d))) in
      run (run dir) = run dir).
Proof.
  split.
  - intros math_sin abspath dir. cbv beta zeta. rewrite !final_run_process.
    destruct (basic_main_traced math_sin abspath) as (Lo & Lw & Ht).
    apply (confined_rerun _ Lo Lw); [exact Ht | apply confined_basic_main].
  - intros lib abspath installed dir. cbv beta zeta. rewrite !final_run_process.
    eapply confined_rerun; [apply traced_full_script | apply confined_full_script].
Qed.

(** ** The summary of the basic generator *)

Section Summary.

Lemma ends_with_bind {A B} (m : M A) (k : A -> M B) (w : world) (b : B)
      (tail : nat -> list string) :
  fst (bind m k w) = Ok b ->
  (forall a w1, fst (k a w1) = Ok b -> ends_with tail (snd (k a w1))) ->
  ends_with tail (snd (bind m k w)).
Proof.
  unfold bind. destruct (m w) as [[a|e] w1]; intros H Hk; [now apply Hk | discriminate H].
Qed.

Lemma ends_with_try {A} (m : M A) (handler : exn -> option (M A)) (w : world) (a : A)
      (tail : nat -> list string) :
  fst (try_except m handler w) = Ok a ->
  (forall e h w1, handler e = Some h -> fst (h w1) <> Ok a) ->
  (forall w1, fst (m w1) = Ok a -> ends_with tail (snd (m w1))) ->
  ends_with tail (snd (try_except m handler w)).
Proof.
  intros H Hh Hm. destruct (try_except_ok_inv _ _ _ _ H Hh) as [Hok ->]. now apply Hm.
Qed.

Lemma basic_tail_ends (w : world) :
  ends_with basic_summary
    (snd ((print (nl +:+ "=== Summary ===") ;;
           print ("Basic reference data generated successfully in " +:+ Basic.output_dir) ;;
           n <- listdir_len ;;
           print ("Total files created: " +:+ pretty n) ;;
           print (nl +:+ "Note: For comprehensive reference data, install numpy, scipy, and pywavelets:") ;;
           print "pip install numpy scipy pywavelets")%py w)).
Proof.
  exists (stdout w).
  cbn [bind print listdir_len snd stdout files]. rewrite <- !app_assoc. reflexivity.
Qed.

(** The summary of a run of six steps followed by the summary lines. *)
Lemma basic_chain_ends (b1 b2 m1 m2 m3 m4 : M unit) (w : world) :
  let prog :=
    (b1 ;; b2 ;; m1 ;; m2 ;; m3 ;; m4 ;;
     print (nl +:+ "=== Summary ===") ;;
     print ("Basic reference data generated successfully in " +:+ Basic.output_dir) ;;
     n <- listdir_len ;;
     print ("Total files created: " +:+ pretty n) ;;
     print (nl +:+ "Note: For comprehensive reference data, install numpy, scipy, and pywavelets:") ;;
     print "pip install numpy scipy pywavelets")%py in
  fst (prog w) = Ok tt -> ends_with basic_summary (snd (prog w)).
Proof.
  cbv zeta. intros Hok.
  do 6 (eapply ends_with_bind; [exact Hok | clear Hok; intros ? ? Hok]).
  apply basic_tail_ends.
Qed.

Lemma basic_main_unfold (math_sin : f64 -> f64) (abspath : string -> string) :
  Basic.main math_sin abspath =
  (print "Generating basic reference test data for JWave..." ;;
   print ("Output directory: " +:+ abspath Basic.output_dir) ;;
   Basic.generate_haar_reference ;;
   Basic.generate_fft_reference math_sin ;;
   Basic.generate_wavelet_filters ;;
   Basic.generate_test_parameters ;;
   print (nl +:+ "=== Summary ===") ;;
   print ("Basic reference data generated successfully in " +:+ Basic.output_dir) ;;
   n <- listdir_len ;;
   print ("Total files created: " +:+ pretty n) ;;
   print (nl +:+ "Note: For comprehensive reference data, install numpy, scipy, and pywavelets:") ;;
   print "pip install numpy scipy pywavelets")%py.
Proof. reflexivity. Qed.

Lemma basic_main_ends (math_sin : f64 -> f64) (abspath : string -> string) (w : world) :
  ends_with basic_summary (snd (Basic.main math_sin abspath w)).
Proof.
  pose proof (proj1 (basic_main_run math_sin abspath) w) as Hok.
  rewrite basic_main_unfold in Hok |- *.
  exact (basic_chain_ends _ _ _ _ _ _ w Hok).
Qed.

Lemma size_with_opened (dir : gmap string string) (l : list string) (fs : gmap string string) :
  dom fs = dom dir ∪ list_to_set l ->
  size fs = size (dom dir ∪ (list_to_set l : gset string)).
Proof. intros H. now rewrite <- size_dom, H. Qed.

Lemma size_basic_paths : size (list_to_set basic_paths : gset string) = 20%nat.
Proof.
  rewrite size_list_to_set; [reflexivity|].
  apply (bool_decide_unpack _). vm_compute. reflexivity.
Qed.

End Summary.

(** X19: when the basic script ends normally (the output directory
    could be created and every file opened and written) it exits with
    status 0 and its output ends with the five summary lines; the number
    printed after [Total files created:] is the number of files in the
    directory at the end, which counts the twenty generated files together
    with the files that were there before the run. *)
Theorem basic_summary_count (math_sin : f64 -> f64) (abspath : string -> string)
        (dir : gmap string string) :
  fst (Basic.script math_sin abspath (initial dir)) = Ok tt ->
  let o := run_process (Basic.script math_sin abspath) (initial dir) in
  let count := size (dom dir ∪ (list_to_set basic_paths : gset string)) in
  exit_status o = 0 /\ traceback o = None /\
  (exists out,
     stdout (final o) =
     out ++ [ nl +:+ "=== Summary ===";
              "Basic reference data generated successfully in ../src/test/resources/testdata";
              "Total files created: " +:+ pretty count;
              nl +:+ "Note: For comprehensive reference data, install numpy, scipy, and pywavelets:";
              "pip install numpy scipy pywavelets" ]) /\
  size (files (final o)) = count /\
  (20 <= count)%nat /\ (size dir <= count)%nat.
Proof.
  intros Hok. cbv zeta.
  destruct (basic_main_run math_sin abspath) as (_ & Hop & _).
  pose proof (confined_run (Basic.main math_sin abspath) dir (confined_basic_main _ _)) as Hrun.
  cbv zeta in Hrun. destruct Hrun as [Hdom _].
  rewrite Hop in Hdom. change (opened (initial dir) ++ basic_paths) with basic_paths in Hdom.
  pose proof (size_with_opened _ _ _ Hdom) as Hsize.
  pose proof (basic_main_ends math_sin abspath (initial dir)) as [out Hout].
  rewrite Hsize in Hout.
  assert (Hfinal : final (run_process (Basic.script math_sin abspath) (initial dir))
                   = snd (Basic.main math_sin abspath (initial dir)))
    by apply final_run_process.
  rewrite Hfinal.
  assert (Hstatus :
            (exit_status (run_process (Basic.script math_sin abspath) (initial dir)) = 0) /\
            (traceback (run_process (Basic.script math_sin abspath) (initial dir)) = None)).
  { unfold run_process.
    destruct (Basic.script math_sin abspath (initial dir)) as [r wf]. cbn [fst] in Hok.
    subst r. split; reflexivity. }
  destruct Hstatus as [-> ->].
  split; [reflexivity|]. split; [reflexivity|].
  split; [exists out; exact Hout|]. split; [exact Hsize|]. split.
  - rewrite <- size_basic_paths. apply subseteq_size, union_subseteq_r.
  - rewrite <- (size_dom dir). apply subseteq_size, union_subseteq_l.
Qed.

(** ** The summary and the error reports of the full generator *)

Section FullRun.

Variable lib : numlib.
Variable abspath : string -> string.

Lemma full_tail_ends (w : world) :
  ends_with full_summary
    (snd ((print (nl +:+ "=== Summary ===") ;;
           print ("Reference data generated successfully in " +:+ Full.output_dir) ;;
           n <- listdir_len ;;
           print ("Total files created: " +:+ pretty n))%py w)).
Proof.
  exists (stdout w).
  cbn [bind print listdir_len snd stdout files]. rewrite <- !app_assoc. reflexivity.
Qed.

Lemma main_try_body_ends (w : world) :
  fst (Full.main_try_body lib w) = Ok tt ->
  ends_with full_summary (snd (Full.main_try_body lib w)).
Proof.
  unfold Full.main_try_body. intros Hok.
  do 6 (eapply ends_with_bind; [exact Hok | clear Hok; intros ? ? Hok]).
  apply full_tail_ends.
Qed.

Lemma full_main_ends (w : world) :
  fst (Full.main lib abspath w) = Ok tt ->
  ends_with full_summary (snd (Full.main lib abspath w)).
Proof.
  intros Hok. destruct (main_try_ok lib abspath w Hok) as (w' & Hbody & ->).
  now apply main_try_body_ends.
Qed.

Variable installed : string -> bool.

Lemma full_script_ends (w : world) :
  fst (Full.script lib abspath installed w) = Ok tt ->
  ends_with full_summary (snd (Full.script lib abspath installed w)).
Proof.
  unfold Full.script. intros Hok.
  do 4 (eapply ends_with_bind; [exact Hok | clear Hok; intros ? ? Hok]).
  now apply full_main_ends.
Qed.

End FullRun.

(** X20: when the full script ends normally it exits with
    status 0 and its output ends with the three summary lines; the number
    printed after [Total files created:] is the number of files of the
    directory at the end, the files present before the run included. *)
Theorem full_summary_count (lib : numlib) (abspath : string -> string)
        (installed : string -> bool) (dir : gmap string string) :
  fst (Full.script lib abspath installed (initial dir)) = Ok tt ->
  let o := run_process (Full.script lib abspath installed) (initial dir) in
  let count := size (dom dir ∪ (list_to_set (opened (final o)) : gset string)) in
  exit_status o = 0 /\ traceback o = None /\
  (exists out,
     stdout (final o) =
     out ++ [ nl +:+ "=== Summary ===";
              "Reference data generated successfully in ../src/test/resources/testdata";
              "Total files created: " +:+ pretty count ]) /\
  size (files (final o)) = count /\ (size dir <= count)%nat.
Proof.
  intros Hok. cbv zeta.
  pose proof (confined_run (Full.script lib abspath installed) dir
                (confined_full_script _ _ _)) as Hrun.
  cbv zeta in Hrun. destruct Hrun as [Hdom _].
  pose proof (size_with_opened _ _ _ Hdom) as Hsize.
  pose proof (full_script_ends lib abspath installed (initial dir) Hok) as [out Hout].
  rewrite Hsize in Hout.
  rewrite final_run_process.
  assert (Hstatus :
            (exit_status (run_process (Full.script lib abspath installed) (initial dir)) = 0) /\
            (traceback (run_process (Full.script lib abspath installed) (initial dir)) = None)).
  { unfold run_process.
    destruct (Full.script lib abspath installed (initial dir)) as [r wf]. cbn [fst] in Hok.
    subst r. split; reflexivity. }
  destruct Hstatus as [-> ->].
  split; [reflexivity|]. split; [reflexivity|].
  split; [exists out; exact Hout|]. split; [exact Hsize|].
  rewrite <- (size_dom dir). apply subseteq_size, union_subseteq_l.
Qed.

Section Reports.

Variable lib : numlib.
Variable abspath : string -> string.

(** The effects of a traced program on the files and on the log of
    opened paths do not depend on what was printed before. *)
Lemma traced_same_files {A} (m : M A) (Lo Lw : list string) (w1 w2 : world) :
  traced m Lo Lw -> files w1 = files w2 -> opened w1 = opened w2 ->
  files (snd (m w1)) = files (snd (m w2)) /\ opened (snd (m w1)) = opened (snd (m w2)).
Proof.
  intros (r & t & Hm & _ & _) Hf Ho. rewrite !Hm. cbn [snd]. split.
  - apply map_eq. intros p. now rewrite !files_replay, Hf.
  - now rewrite !opened_replay, Ho.
Qed.

Lemma main_handler_eq (w : world) :
  Full.main lib abspath w =
  try_except (Full.main_try_body lib) main_handler
    (snd (print ("Output directory: " +:+ abspath Full.output_dir)
            (snd (print "Generating reference test data for JWave..." w)))).
Proof. reflexivity. Qed.

Lemma main_handles (dir : gmap string string) (e : exn) (h : M unit) (report : list string) :
  fst (Full.main_try_body lib (initial dir)) = Raise e ->
  main_handler e = Some h ->
  (forall w, h w = (Raise (SystemExit 1),
                    {| files := files w; opened := opened w; stdout := stdout w ++ report |})) ->
  let o := run_process (Full.main lib abspath) (initial dir) in
  exit_status o = 1 /\ traceback o = None /\
  (exists out, stdout (final o) = out ++ report) /\
  opened (final o) = opened (snd (Full.main_try_body lib (initial dir))) /\
  files (final o) = files (snd (Full.main_try_body lib (initial dir))).
Proof.
  intros Hraise Hh Hrun. cbv zeta. unfold run_process. rewrite main_handler_eq.
  set (w2 := snd (print _ (snd (print _ (initial dir))))).
  destruct (traced_run _ _ _ (traced_main_try_body lib)) as (_ & _ & _ & Hres & _).
  rewrite (Hres (initial dir) w2) in Hraise.
  destruct (traced_same_files _ _ _ w2 (initial dir) (traced_main_try_body lib) eq_refl eq_refl)
    as [Hf Ho].
  rewrite <- Hf, <- Ho.
  unfold try_except. destruct (Full.main_try_body lib w2) as [r w3]. cbn [fst snd] in *.
  subst r. rewrite Hh, Hrun. cbn [exit_status traceback final stdout opened files].
  split; [reflexivity|]. split; [reflexivity|]. split; [now exists (stdout w3)|].
  split; reflexivity.
Qed.

End Reports.

(** X21: when a stage raises an exception that is not an import
    error, [main] prints [Error generating reference data: <message>] as
    its last line and the process exits with status 1 without traceback;
    the files written before the failure stay as the stages left them. *)
Theorem exception_is_reported (lib : numlib) (abspath : string -> string)
        (dir : gmap string string) (msg : string) :
  fst (Full.main_try_body lib (initial dir)) = Raise (Exception msg) ->
  let o := run_process (Full.main lib abspath) (initial dir) in
  exit_status o = 1 /\ traceback o = None /\
  (exists out, stdout (final o) = out ++ [nl +:+ "Error generating reference data: " +:+ msg]) /\
  opened (final o) = opened (snd (Full.main_try_body lib (initial dir))) /\
  files (final o) = files (snd (Full.main_try_body lib (initial dir))).
Proof.
  intros Hraise.
  apply (main_handles lib abspath dir (Exception msg) _ _ Hraise eq_refl).
  intros w. reflexivity.
Qed.

(** X22: when an import error is raised inside a stage,
    [main] prints the three lines of the installation advice last and the
    process exits with status 1 without traceback; the files written
    before the failure stay as the stages left them. *)
Theorem import_error_is_reported (lib : numlib) (abspath : string -> string)
        (dir : gmap string string) (msg : string) :
  fst (Full.main_try_body lib (initial dir)) = Raise (ImportError msg) ->
  let o := run_process (Full.main lib abspath) (initial dir) in
  exit_status o = 1 /\ traceback o = None /\
  (exists out, stdout (final o) =
               out ++ [ nl +:+ "Error: Missing required Python package.";
                        "Please install required packages:";
                        "pip install numpy scipy pywavelets" ]) /\
  opened (final o) = opened (snd (Full.main_try_body lib (initial dir))) /\
  files (final o) = files (snd (Full.main_try_body lib (initial dir))).
Proof.
  intros Hraise.
  apply (main_handles lib abspath dir (ImportError msg) _ _ Hraise eq_refl).
  intros w. cbn. now rewrite <- !app_assoc.
Qed.

(** ** A run without the wavelet transform *)

Section CwtRemoved.

Variable lib : numlib.
Variable abspath : string -> string.

Lemma bind_raise {A B} (m : M A) (k : A -> M B) (w w' : world) (e : exn) :
  m w = (Raise e, w') -> bind m k w = (Raise e, w').
Proof. unfold bind. now intros ->. Qed.

Lemma generate_cwt_reference_raise (w : world) (signal : list f64) (e : exn) :
  scipy_chirp lib (np_linspace lib 0 1 1000) 10 1 100 = Ok signal ->
  scipy_cwt_morlet2 lib (Full.floats signal) cwt_widths = Raise e ->
  Full.generate_cwt_reference lib w = (Raise e, stage_heading "CWT Reference Data" w).
Proof.
  intros Hs Hc. unfold Full.generate_cwt_reference. cbv zeta. fold cwt_widths.
  now rewrite print_bind, (lift_bind_ok _ _ _ _ Hs), (lift_bind_raise _ _ _ _ Hc).
Qed.

Lemma confined_full_main : confined (Full.main lib abspath).
Proof.
  unfold Full.main, Full.main_try_body,
    Full.generate_fft_reference, Full.generate_dwt_reference, Full.generate_modwt_reference,
    Full.generate_cwt_reference, Full.generate_wavelet_filter_reference,
    Full.generate_special_cases, Full.edge_case.
  confined_auto.
Qed.

Lemma main_try_body_cwt_raise (w : world) fft1 fft2 coeffs_haar coeffs_db4 coeffs_multi
      coeffs signal (e : exn) :
  scipy_fft lib (Real (Full.floats (fft_signal1 lib))) = Ok fft1 ->
  scipy_fft lib (Cplx fft_signal2) = Ok fft2 ->
  pywt_dwt lib test_signal "haar" = Ok coeffs_haar ->
  pywt_dwt lib test_signal "db4" = Ok coeffs_db4 ->
  pywt_wavedec lib test_signal "haar" 3 = Ok coeffs_multi ->
  pywt_swt lib test_signal "haar" 3 false = Ok coeffs ->
  scipy_chirp lib (np_linspace lib 0 1 1000) 10 1 100 = Ok signal ->
  scipy_cwt_morlet2 lib (Full.floats signal) cwt_widths = Raise e ->
  fst (Full.main_try_body lib w) = Raise e /\
  opened (snd (Full.main_try_body lib w)) =
    opened w ++ fft_names ++ dwt_names (length coeffs_multi) ++ modwt_names (length coeffs).
Proof.
  intros H1 H2 Hh Hd Hm Hs Hchirp Hcwt. unfold Full.main_try_body.
  pose proof (generate_fft_reference_eq lib w _ _ H1 H2) as E1. cbv zeta in E1.
  rewrite (bind_eq _ _ _ _ _ E1).
  rewrite (bind_eq _ _ _ _ _ (generate_dwt_reference_eq lib _ _ _ _ Hh Hd Hm)).
  rewrite (bind_eq _ _ _ _ _ (generate_modwt_reference_eq lib _ _ Hs)).
  rewrite (bind_raise _ _ _ _ _ (generate_cwt_reference_raise _ _ _ Hchirp Hcwt)).
  cbn [fst snd]. split; [reflexivity|].
  unfold stage_heading. cbn [print snd opened].
  repeat (rewrite opened_wrote_all; cbn [print snd opened]).
  rewrite dwt_file_names, modwt_file_names.
  rewrite <- !app_assoc. reflexivity.
Qed.

End CwtRemoved.

(** X23: a whole run in which the FFT, DWT and MODWT stages
    succeed and the first [scipy.signal.cwt] call raises an exception with
    message [msg]: the process exits with status 1 without traceback, the
    last line printed is the error report, the paths opened are exactly
    those of the first three stages, and no CWT, filter or edge-case file
    is opened or changed. *)
Theorem cwt_failure_run (lib : numlib) (abspath : string -> string) (dir : gmap string string)
        fft1 fft2 coeffs_haar coeffs_db4 coeffs_multi coeffs signal (msg : string) :
  scipy_fft lib (Real (Full.floats (fft_signal1 lib))) = Ok fft1 ->
  scipy_fft lib (Cplx fft_signal2) = Ok fft2 ->
  pywt_dwt lib test_signal "haar" = Ok coeffs_haar ->
  pywt_dwt lib test_signal "db4" = Ok coeffs_db4 ->
  pywt_wavedec lib test_signal "haar" 3 = Ok coeffs_multi ->
  pywt_swt lib test_signal "haar" 3 false = Ok coeffs ->
  scipy_chirp lib (np_linspace lib 0 1 1000) 10 1 100 = Ok signal ->
  scipy_cwt_morlet2 lib (Full.floats signal) cwt_widths = Raise (Exception msg) ->
  let o := run_process (Full.main lib abspath) (initial dir) in
  exit_status o = 1 /\ traceback o = None /\
  last (stdout (final o)) = Some (nl +:+ "Error generating reference data: " +:+ msg) /\
  opened (final o) =
    fft_names ++ dwt_names (length coeffs_multi) ++ modwt_names (length coeffs) /\
  (forall p, p ∈ cwt_names ++ filter_names ++ edge_names ->
             (p ∉ opened (final o)) /\ files (final o) !! p = dir !! p).
Proof.
  intros H1 H2 Hh Hd Hm Hs Hchirp Hcwt. cbv zeta.
  destruct (main_try_body_cwt_raise lib (initial dir) _ _ _ _ _ _ _ _ H1 H2 Hh Hd Hm Hs Hchirp Hcwt)
    as [Hraise Hopened].
  destruct (main_handles lib abspath dir (Exception msg) _
              [nl +:+ "Error generating reference data: " +:+ msg] Hraise eq_refl
              (fun w => eq_refl)) as (Hexit & Htb & [out Hout] & Ho & _).
  split; [exact Hexit|]. split; [exact Htb|]. split; [rewrite Hout; apply last_snoc|].
  rewrite Ho, Hopened. cbn [initial opened app]. split; [reflexivity|].
  intros p Hp.
  assert (Hnot : p ∉ fft_names ++ dwt_names (length coeffs_multi) ++ modwt_names (length coeffs)).
  { pose proof (NoDup_full_names (length coeffs_multi) (length coeffs)) as Hnd.
    unfold full_names in Hnd. rewrite !app_assoc in Hnd.
    rewrite <- (app_assoc _ filter_names), <- (app_assoc _ cwt_names) in Hnd.
    apply NoDup_app in Hnd as (_ & Hdisj & _).
    intros Hin. apply (Hdisj p); [|exact Hp]. now rewrite <- !app_assoc. }
  split; [exact Hnot|].
  pose proof (confined_run (Full.main lib abspath) dir (confined_full_main lib abspath)) as Hrun.
  cbv zeta in Hrun. destruct Hrun as [_ Hframe].
  rewrite final_run_process. apply Hframe.
  rewrite <- final_run_process, Ho, Hopened. exact Hnot.
Qed.

(** ** Canonical values and the accuracy of the decimal text *)

Section Canonical.

Lemma digits2_pos_bounds (m : positive) :
  2 ^ (Z.pos (digits2_pos m) - 1) <= Z.pos m < 2 ^ Z.pos (digits2_pos m).
Proof.
  induction m as [m IH|m IH|]; cbn [digits2_pos].
  - rewrite Pos2Z.inj_succ.
    replace (Z.succ (Z.pos (digits2_pos m)) - 1) with (Z.succ (Z.pos (digits2_pos m) - 1)) by lia.
    rewrite !Z.pow_succ_r by lia. lia.
  - rewrite Pos2Z.inj_succ.
    replace (Z.succ (Z.pos (digits2_pos m)) - 1) with (Z.succ (Z.pos (digits2_pos m) - 1)) by lia.
    rewrite !Z.pow_succ_r by lia. lia.
  - cbn. lia.
Qed.

Lemma valid_finite_bounds (s : bool) (m : positive) (e : Z) :
  valid (S754_finite s m e) = true ->
  Z.pos m < 2 ^ 53 /\ -1074 <= e /\ (-1074 < e -> 2 ^ 52 <= Z.pos m).
Proof.
  unfold valid, valid_binary, bounded, canonical_mantissa, fexp, emin,
    Float64.prec, Float64.emax.
  intros H. apply andb_true_iff in H as [H _]. apply Z.eqb_eq in H.
  pose proof (digits2_pos_bounds m) as [Hlo Hhi].
  set (d := Z.pos (digits2_pos m)) in *.
  assert (Hmax : Z.max (d + e - 53) (-1074) = e) by exact H.
  clearbody d. clear H.
  assert (Hd : d <= 53) by lia.
  split; [|split].
  - eapply Z.lt_le_trans; [exact Hhi|]. apply Z.pow_le_mono_r; lia.
  - lia.
  - intros He. assert (d = 53) by lia. subst d. now replace (53 - 1) with 52 in Hlo by lia.
Qed.

(** Two canonical values that differ are at least one unit in the last
    place of the smaller one apart.  Values are scaled by [2^a]. *)
Lemma canonical_gap (s1 s2 : bool) (m1 m2 : positive) (e1 e2 a : Z) :
  valid (S754_finite s1 m1 e1) = true -> valid (S754_finite s2 m2 e2) = true ->
  1074 <= a ->
  Z.pos m1 * 2 ^ (e1 + a) <= Z.pos m2 * 2 ^ (e2 + a) ->
  (m1 = m2 /\ e1 = e2) \/ Z.pos m1 * 2 ^ (e1 + a) + 2 ^ (e1 + a) <= Z.pos m2 * 2 ^ (e2 + a).
Proof.
  intros H1 H2 Ha Hle.
  apply valid_finite_bounds in H1 as (Hm1 & He1 & Hn1).
  apply valid_finite_bounds in H2 as (Hm2 & He2 & Hn2).
  assert (Hp1 : 0 < 2 ^ (e1 + a)) by (apply Z.pow_pos_nonneg; lia).
  assert (Hp2 : 0 < 2 ^ (e2 + a)) by (apply Z.pow_pos_nonneg; lia).
  destruct (Z.lt_trichotomy e1 e2) as [Hlt|[Heq|Hgt]].
  - (* e1 < e2 *)
    assert (E : 2 ^ (e2 + a) = 2 ^ (e2 - e1) * 2 ^ (e1 + a)).
    { rewrite <- Z.pow_add_r by lia. f_equal. lia. }
    assert (Hk : 2 <= 2 ^ (e2 - e1)).
    { change 2 with (2 ^ 1) at 1. apply Z.pow_le_mono_r; lia. }
    specialize (Hn2 ltac:(lia)).
    right. rewrite E. change (2 ^ 53) with 9007199254740992 in *.
    change (2 ^ 52) with 4503599627370496 in *. nia.
  - subst e2. destruct (Z.eq_dec (Z.pos m1) (Z.pos m2)) as [E|Hne].
    + left. split; [congruence | reflexivity].
    + right. nia.
  - (* e2 < e1 : the first value is larger, a contradiction *)
    exfalso.
    assert (E : 2 ^ (e1 + a) = 2 ^ (e1 - e2) * 2 ^ (e2 + a)).
    { rewrite <- Z.pow_add_r by lia. f_equal. lia. }
    assert (Hk : 2 <= 2 ^ (e1 - e2)).
    { change 2 with (2 ^ 1) at 1. apply Z.pow_le_mono_r; lia. }
    specialize (Hn1 ltac:(lia)).
    rewrite E in Hle. change (2 ^ 53) with 9007199254740992 in *.
    change (2 ^ 52) with 4503599627370496 in *. nia.
Qed.

End Canonical.

Section Accuracy.
Import Format.

(** Scaling by [2^a * 10^b] turns the numerator and the denominator
    that [sci_round] rounds into integers with a common factor. *)
Lemma scale_factors (e s a b : Z) :
  0 <= a -> 0 <= e + a -> 0 <= b -> 0 <= b - s ->
  let A := 2 ^ (a - Z.max 0 (- e)) in
  let B := 10 ^ (b - Z.max 0 s) in
  0 < A /\ 0 < B /\
  2 ^ a * 10 ^ (b - s) = (2 ^ Z.max 0 (- e) * 10 ^ Z.max 0 (- s)) * (A * B) /\
  2 ^ (e + a) * 10 ^ b = (2 ^ Z.max 0 e * 10 ^ Z.max 0 s) * (A * B).
Proof.
  intros Ha Hea Hb Hbs A B.
  assert (H1 : a = Z.max 0 (- e) + (a - Z.max 0 (- e))) by lia.
  assert (H2 : b - s = Z.max 0 (- s) + (b - Z.max 0 s)) by lia.
  assert (H3 : e + a = Z.max 0 e + (a - Z.max 0 (- e))) by lia.
  assert (H4 : b = Z.max 0 s + (b - Z.max 0 s)) by lia.
  assert (P1 : 0 <= Z.max 0 (- e)) by lia. assert (P2 : 0 <= a - Z.max 0 (- e)) by lia.
  assert (P3 : 0 <= Z.max 0 (- s)) by lia. assert (P4 : 0 <= b - Z.max 0 s) by lia.
  assert (P5 : 0 <= Z.max 0 e) by lia. assert (P6 : 0 <= Z.max 0 s) by lia.
  split; [apply Z.pow_pos_nonneg; [reflexivity | exact P2]|].
  split; [apply Z.pow_pos_nonneg; [reflexivity | exact P4]|].
  unfold A, B. split.
  - rewrite H1 at 1. rewrite H2. rewrite !Z.pow_add_r by assumption. ring.
  - rewrite H3. rewrite H4 at 1. rewrite !Z.pow_add_r by assumption. ring.
Qed.

(** The decimal significand before the carry is within half a unit of
    its last place of the value.  Both are scaled by [2^a * 10^b]. *)
Lemma round_accuracy (p : Z) (m : positive) (e a b : Z) :
  let num := Z.pos m * 2 ^ Z.max 0 e in
  let den := 2 ^ Z.max 0 (- e) in
  let s := p - dec_exponent num den in
  let n0 := round_half_even (num * 10 ^ Z.max 0 s) (den * 10 ^ Z.max 0 (- s)) in
  0 <= a -> 0 <= e + a -> 0 <= b -> 0 <= b - s ->
  2 * Z.abs (n0 * (2 ^ a * 10 ^ (b - s)) - Z.pos m * 2 ^ (e + a) * 10 ^ b)
  <= 2 ^ a * 10 ^ (b - s).
Proof.
  intros num den s n0 Ha Hea Hb Hbs.
  destruct (scale_factors e s a b Ha Hea Hb Hbs) as (HA & HB & E1 & E2).
  set (A := 2 ^ (a - Z.max 0 (- e))) in *. set (B := 10 ^ (b - Z.max 0 s)) in *.
  set (N := num * 10 ^ Z.max 0 s) in *. set (D := den * 10 ^ Z.max 0 (- s)) in *.
  assert (HD : 0 < D).
  { unfold D, den. apply Z.mul_pos_pos; apply Z.pow_pos_nonneg;
      first [reflexivity | apply Z.le_max_l]. }
  pose proof (round_half_even_nearest N D HD) as Hacc. fold n0 in Hacc.
  assert (HAB : 0 < A * B) by (apply Z.mul_pos_pos; assumption).
  assert (E1' : 2 ^ a * 10 ^ (b - s) = D * (A * B)) by exact E1.
  assert (E2' : Z.pos m * 2 ^ (e + a) * 10 ^ b = N * (A * B)).
  { unfold N, num. rewrite <- (Z.mul_assoc (Z.pos m) (2 ^ (e + a))), E2. ring. }
  rewrite E1', E2'.
  replace (n0 * (D * (A * B)) - N * (A * B)) with ((n0 * D - N) * (A * B)) by ring.
  rewrite Z.abs_mul, (Z.abs_eq (A * B)) by (apply Z.lt_le_incl; exact HAB).
  rewrite Z.abs_mul in Hacc. change (Z.abs 2) with 2 in Hacc.
  rewrite Z.mul_assoc. apply Z.mul_le_mono_nonneg_r; [apply Z.lt_le_incl; exact HAB | exact Hacc].
Qed.

(** The printed decimal [n * 10^(k - p)] is within half a unit of its
    last digit of the value [m * 2^e]. *)
Lemma sci_round_accuracy (p : Z) (m : positive) (e a b n k : Z) :
  sci_round p m e = (n, k) ->
  0 <= p -> 0 <= a -> 0 <= e + a -> 0 <= b -> 0 <= k - p + b ->
  2 * Z.abs (n * (2 ^ a * 10 ^ (k - p + b)) - Z.pos m * 2 ^ (e + a) * 10 ^ b)
  <= 2 ^ a * 10 ^ (k - p + b).
Proof.
  unfold sci_round. intros Hsr Hp Ha Hea Hb Hkb.
  set (num := Z.pos m * 2 ^ Z.max 0 e) in *.
  set (den := 2 ^ Z.max 0 (- e)) in *.
  set (k0 := dec_exponent num den) in *.
  set (n0 := round_half_even _ _) in *.
  destruct (Z.eqb_spec n0 (10 ^ (p + 1))) as [Hcarry|Hno]; injection Hsr as <- <-.
  - pose proof (round_accuracy p m e a (b + 1) Ha Hea ltac:(lia)) as H.
    cbv zeta in H. fold num den k0 n0 in H. specialize (H ltac:(lia)).
    replace (b + 1 - (p - k0)) with (k0 + 1 - p + b) in H by lia.
    rewrite Hcarry in H.
    rewrite (Z.pow_add_r 10 p 1), (Z.pow_add_r 10 b 1) in H by lia.
    change (10 ^ 1) with 10 in H.
    set (T := 2 ^ a * 10 ^ (k0 + 1 - p + b)) in *.
    set (X := Z.pos m * 2 ^ (e + a) * 10 ^ b) in *.
    replace (10 ^ p * 10 * T - Z.pos m * 2 ^ (e + a) * (10 ^ b * 10))
      with (10 * (10 ^ p * T - X)) in H by (unfold X; ring).
    assert (HT : 0 < T) by (unfold T; apply Z.mul_pos_pos; apply Z.pow_pos_nonneg; lia).
    lia.
  - pose proof (round_accuracy p m e a b Ha Hea Hb) as H.
    cbv zeta in H. fold num den k0 n0 in H. specialize (H ltac:(lia)).
    now replace (b - (p - k0)) with (k0 - p + b) in H by lia.
Qed.

(** Seventeen significant digits separate any two canonical values. *)
Lemma sci_round_inj (s1 s2 : bool) (m1 m2 : positive) (e1 e2 : Z) :
  valid (S754_finite s1 m1 e1) = true -> valid (S754_finite s2 m2 e2) = true ->
  sci_round 16 m1 e1 = sci_round 16 m2 e2 ->
  m1 = m2 /\ e1 = e2.
Proof.
  intros H1 H2 Heq.
  destruct (sci_round 16 m1 e1) as [n k] eqn:Hr1. symmetry in Heq. rename Heq into Hr2.
  pose proof (sci_round_range 16 m1 e1 ltac:(lia)) as Hn. rewrite Hr1 in Hn. cbn [fst] in Hn.
  pose proof (valid_finite_bounds _ _ _ H1) as (Hm1 & He1 & _).
  pose proof (valid_finite_bounds _ _ _ H2) as (Hm2 & He2 & _).
  pose (a := 1074). assert (Ha : 1074 <= a) by (unfold a; lia). clearbody a.
  pose (b := Z.abs (k - 16)). assert (Hb : 0 <= b /\ 0 <= k - 16 + b) by (unfold b; lia).
  clearbody b. destruct Hb as [Hb Hkb].
  assert (H16 : 0 <= 16) by lia.
  assert (Ha0 : 0 <= a) by lia.
  assert (He1a : 0 <= e1 + a) by lia.
  assert (He2a : 0 <= e2 + a) by lia.
  pose proof (sci_round_accuracy 16 m1 e1 a b n k Hr1 H16 Ha0 He1a Hb Hkb) as A1.
  pose proof (sci_round_accuracy 16 m2 e2 a b n k Hr2 H16 Ha0 He2a Hb Hkb) as A2.
  set (T := 2 ^ a * 10 ^ (k - 16 + b)) in *.
  assert (HT : 0 < T).
  { unfold T. apply Z.mul_pos_pos; apply Z.pow_pos_nonneg; first [reflexivity | assumption]. }
  set (B := 10 ^ b) in *.
  assert (HB : 0 < B) by (unfold B; apply Z.pow_pos_nonneg; [reflexivity | assumption]).
  assert (HW : 10 ^ 16 * T <= n * T) by (apply Z.mul_le_mono_nonneg_r; lia).
  set (W := n * T) in *.
  set (Y1 := Z.pos m1 * 2 ^ (e1 + a)) in *. set (Y2 := Z.pos m2 * 2 ^ (e2 + a)) in *.
  assert (HU1 : 0 < 2 ^ (e1 + a)) by (apply Z.pow_pos_nonneg; [reflexivity | assumption]).
  assert (HU2 : 0 < 2 ^ (e2 + a)) by (apply Z.pow_pos_nonneg; [reflexivity | assumption]).
  change (10 ^ 16) with 10000000000000000 in *.
  change (2 ^ 53) with 9007199254740992 in *.
  destruct (Z.le_ge_cases Y1 Y2) as [Hle|Hle].
  - destruct (canonical_gap s1 s2 m1 m2 e1 e2 a H1 H2 Ha Hle)
      as [Hsame|Hgap]; [exact Hsame|exfalso].
    fold Y1 Y2 in Hgap.
    assert (G : Y1 * B + 2 ^ (e1 + a) * B <= Y2 * B).
    { rewrite <- Z.mul_add_distr_r. apply Z.mul_le_mono_nonneg_r; [lia | exact Hgap]. }
    assert (L : Y1 * B <= 9007199254740991 * (2 ^ (e1 + a) * B)).
    { unfold Y1. rewrite <- Z.mul_assoc. apply Z.mul_le_mono_nonneg_r; [|lia].
      apply Z.lt_le_incl, Z.mul_pos_pos; assumption. }
    set (U := 2 ^ (e1 + a) * B) in *. set (X1 := Y1 * B) in *. set (X2 := Y2 * B) in *.
    lia.
  - destruct (canonical_gap s2 s1 m2 m1 e2 e1 a H2 H1 Ha Hle)
      as [[-> ->]|Hgap]; [split; reflexivity|exfalso].
    fold Y1 Y2 in Hgap.
    assert (G : Y2 * B + 2 ^ (e2 + a) * B <= Y1 * B).
    { rewrite <- Z.mul_add_distr_r. apply Z.mul_le_mono_nonneg_r; [lia | exact Hgap]. }
    assert (L : Y2 * B <= 9007199254740991 * (2 ^ (e2 + a) * B)).
    { unfold Y2. rewrite <- Z.mul_assoc. apply Z.mul_le_mono_nonneg_r; [|lia].
      apply Z.lt_le_incl, Z.mul_pos_pos; assumption. }
    set (U := 2 ^ (e2 + a) * B) in *. set (X1 := Y1 * B) in *. set (X2 := Y2 * B) in *.
    lia.
Qed.

End Accuracy.

(** ** The decimal text determines the value *)

Section Decode.
Import Format.

Lemma digit_char_inj (a b : Z) :
  0 <= a < 10 -> 0 <= b < 10 -> digit_char a = digit_char b -> a = b.
Proof.
  intros Ha Hb H. unfold digit_char in H.
  apply (f_equal nat_of_ascii) in H.
  rewrite !nat_ascii_embedding in H by lia. lia.
Qed.

Lemma dec_digits_inj (n : nat) (v v' : Z) :
  dec_digits n v = dec_digits n v' -> v mod 10 ^ Z.of_nat n = v' mod 10 ^ Z.of_nat n.
Proof.
  induction n as [|n IH]; intros H.
  - now rewrite !Z.mod_1_r.
  - cbn [dec_digits] in H. injection H as Hd Hrest.
    apply digit_char_inj in Hd; [|apply Z.mod_pos_bound; lia..].
    specialize (IH Hrest).
    rewrite Nat2Z.inj_succ, Z.pow_succ_r by lia.
    rewrite (Z.mul_comm 10).
    pose proof (pow10_pos (Z.of_nat n) ltac:(lia)).
    rewrite !Z.rem_mul_r by lia. now rewrite IH, Hd.
Qed.

Lemma str_app_inv_length (s1 s2 t1 t2 : string) :
  String.length s1 = String.length s2 -> s1 +:+ t1 = s2 +:+ t2 -> s1 = s2 /\ t1 = t2.
Proof.
  revert s2. induction s1 as [|c s1 IH]; intros [|d s2] Hlen H; try discriminate Hlen.
  - now rewrite !app_empty in H.
  - rewrite !app_String in H. injection H as -> H. injection Hlen as Hlen.
    destruct (IH _ Hlen H) as [-> ->]. now split.
Qed.

Lemma exp_string_inj (k k' : Z) : exp_string k = exp_string k' -> k = k'.
Proof.
  unfold exp_string. intros H. injection H as Hsign Hdigits.
  assert (Hlen : Nat.max 2 (Z.to_nat (ndigits10 (Z.abs k)))
                 = Nat.max 2 (Z.to_nat (ndigits10 (Z.abs k')))).
  { apply (f_equal String.length) in Hdigits. now rewrite !length_dec_digits in Hdigits. }
  rewrite <- Hlen in Hdigits. apply dec_digits_inj in Hdigits.
  assert (Hsmall : forall j, Z.abs j < 10 ^ Z.of_nat (Nat.max 2 (Z.to_nat (ndigits10 (Z.abs j))))).
  { intros j. destruct (Z.eq_dec (Z.abs j) 0) as [->|Hne].
    - apply pow10_pos. lia.
    - destruct (ndigits10_spec (Z.abs j) ltac:(lia)) as (Hd & _ & Hhi).
      eapply Z.lt_le_trans; [exact Hhi|]. apply Z.pow_le_mono_r; lia. }
  pose proof (Hsmall k) as Hk. pose proof (Hsmall k') as Hk'. rewrite <- Hlen in Hk'.
  rewrite !Z.mod_small in Hdigits by lia.
  destruct (Z.ltb_spec k 0), (Z.ltb_spec k' 0); try discriminate Hsign; lia.
Qed.

Lemma mantissa_string_inj (p : nat) (n n' : Z) (t t' : string) :
  0 <= n < 10 ^ (Z.of_nat p + 1) -> 0 <= n' < 10 ^ (Z.of_nat p + 1) ->
  mantissa_string p n +:+ t = mantissa_string p n' +:+ t' -> n = n' /\ t = t'.
Proof.
  intros Hn Hn' H. unfold mantissa_string in H.
  repeat (rewrite app_String in H || rewrite app_empty in H).
  injection H as Hd H.
  apply str_app_inv_length in H as [Hdigits Ht]; [|now rewrite !length_dec_digits].
  split; [|exact Ht].
  pose proof (pow10_pos (Z.of_nat p) ltac:(lia)) as Hp.
  rewrite Z.pow_add_r in Hn, Hn' by lia. change (10 ^ 1) with 10 in Hn, Hn'.
  assert (Hq : forall v, 0 <= v < 10 ^ Z.of_nat p * 10 -> 0 <= v / 10 ^ Z.of_nat p < 10).
  { intros v Hv. split; [apply Z.div_pos; lia | apply Z.div_lt_upper_bound; lia]. }
  apply digit_char_inj in Hd; [|apply Z.mod_pos_bound; lia..].
  rewrite !Z.mod_small in Hd by (apply Hq; lia).
  apply dec_digits_inj in Hdigits.
  rewrite (Z.div_mod n (10 ^ Z.of_nat p)), (Z.div_mod n' (10 ^ Z.of_nat p)) by lia.
  now rewrite Hd, Hdigits.
Qed.

(** The text of a finite value determines its sign, its decimal
    significand and its decimal exponent. *)
Lemma sci_string_inj (p : nat) (s s' : bool) (n n' k k' : Z) :
  0 <= n < 10 ^ (Z.of_nat p + 1) -> 0 <= n' < 10 ^ (Z.of_nat p + 1) ->
  sign_string s +:+ mantissa_string p n +:+ "e" +:+ exp_string k
  = sign_string s' +:+ mantissa_string p n' +:+ "e" +:+ exp_string k' ->
  s = s' /\ n = n' /\ k = k'.
Proof.
  intros Hn Hn' H.
  assert (Hdigit : forall v t r, String "-" r <> mantissa_string p v +:+ t).
  { intros v t r E. unfold mantissa_string in E. rewrite app_String in E.
    injection E as E _. pose proof (is_digit_mod10 (v / 10 ^ Z.of_nat p)) as Hd.
    rewrite <- E in Hd. discriminate Hd. }
  assert (Hrest : mantissa_string p n +:+ "e" +:+ exp_string k
                  = mantissa_string p n' +:+ "e" +:+ exp_string k' -> n = n' /\ k = k').
  { intros E. apply mantissa_string_inj in E as [-> E]; [|exact Hn|exact Hn'].
    apply (str_app_inv_head "e") in E.
    split; [reflexivity | now apply exp_string_inj]. }
  destruct s, s'; cbn [sign_string] in H.
  - apply (str_app_inv_head "-") in H. split; [reflexivity | now apply Hrest].
  - exfalso. rewrite app_String, !app_empty in H. now apply Hdigit in H.
  - exfalso. rewrite app_String, !app_empty in H. symmetry in H. now apply Hdigit in H.
  - rewrite !app_empty in H. split; [reflexivity | now apply Hrest].
Qed.

End Decode.

Section Lossless.
Import Format.

Lemma sci_string_not_special (p : nat) (s : bool) (n k : Z) (t : string) :
  t = "nan" \/ t = "inf" \/ t = "-inf" ->
  sign_string s +:+ mantissa_string p n +:+ "e" +:+ exp_string k <> t.
Proof.
  intros Ht E. apply (f_equal leading_digit) in E. rewrite leading_digit_parts in E.
  pose proof (is_digit_mod10 (n / 10 ^ Z.of_nat p)) as Hd.
  destruct Ht as [-> | [-> | ->]]; cbn in E; injection E as E; rewrite E in Hd; discriminate Hd.
Qed.

Lemma format_e_finite_range (s : bool) (m : positive) (e : Z) :
  exists n k, sci_round 16 m e = (n, k) /\ 10 ^ 16 <= n < 10 ^ 17 /\
              format_e 16 (S754_finite s m e)
              = sign_string s +:+ mantissa_string 16 n +:+ "e" +:+ exp_string k.
Proof.
  pose proof (sci_round_range 16 m e ltac:(lia)) as Hr.
  cbn [format_e]. change (Z.of_nat 16) with 16.
  destruct (sci_round 16 m e) as [n k]. cbn [fst] in Hr. now exists n, k.
Qed.

Lemma format_e_lossless (x y : f64) :
  valid x = true -> valid y = true -> format_e 16 x = format_e 16 y -> x = y.
Proof.
  intros Hx Hy H.
  destruct x as [s|s| |s m e], y as [s'|s'| |s' m' e'].
  - (* zero, zero *)
    cbn [format_e] in H. apply sci_string_inj in H as (-> & _); [reflexivity|cbn; lia..].
  - exfalso. cbn [format_e] in H. revert H. apply sci_string_not_special.
    destruct s'; cbn; auto.
  - exfalso. cbn [format_e] in H. revert H. apply sci_string_not_special. auto.
  - (* zero, finite *)
    exfalso. destruct (format_e_finite_range s' m' e') as (n & k & _ & Hn & E).
    rewrite E in H. cbn [format_e] in H.
    apply sci_string_inj in H as (_ & Hz & _); [|cbn; lia|cbn; lia].
    change (10 ^ 16) with 10000000000000000 in Hn. lia.
  - exfalso. cbn [format_e] in H. symmetry in H. revert H. apply sci_string_not_special.
    destruct s; cbn; auto.
  - (* infinity, infinity *)
    cbn [format_e] in H. destruct s, s'; reflexivity || discriminate H.
  - exfalso. cbn [format_e] in H. destruct s; discriminate H.
  - exfalso. destruct (format_e_finite_range s' m' e') as (n & k & _ & _ & E).
    rewrite E in H. symmetry in H. revert H. apply sci_string_not_special.
    destruct s; cbn; auto.
  - exfalso. cbn [format_e] in H. symmetry in H. revert H. apply sci_string_not_special. auto.
  - exfalso. cbn [format_e] in H. destruct s'; discriminate H.
  - reflexivity.
  - exfalso. destruct (format_e_finite_range s' m' e') as (n & k & _ & _ & E).
    rewrite E in H. symmetry in H. revert H. apply sci_string_not_special. auto.
  - (* finite, zero *)
    exfalso. destruct (format_e_finite_range s m e) as (n & k & _ & Hn & E).
    rewrite E in H. cbn [format_e] in H.
    apply sci_string_inj in H as (_ & Hz & _); [|cbn; lia|cbn; lia].
    change (10 ^ 16) with 10000000000000000 in Hn. lia.
  - exfalso. destruct (format_e_finite_range s m e) as (n & k & _ & _ & E).
    rewrite E in H. revert H. apply sci_string_not_special. destruct s'; cbn; auto.
  - exfalso. destruct (format_e_finite_range s m e) as (n & k & _ & _ & E).
    rewrite E in H. revert H. apply sci_string_not_special. auto.
  - (* finite, finite *)
    destruct (format_e_finite_range s m e) as (n & k & Hr & Hn & E).
    destruct (format_e_finite_range s' m' e') as (n' & k' & Hr' & Hn' & E').
    rewrite E, E' in H.
    apply sci_string_inj in H as (-> & -> & ->); [|cbn; lia|cbn; lia].
    destruct (sci_round_inj s' s' m m' e e' Hx Hy) as [-> ->]; [congruence | reflexivity].
Qed.

End Lossless.

(** X24: the [.16e] presentation is lossless: two binary64
    values in canonical form that are written with the same text are the
    same value (seventeen significant digits separate any two doubles). *)
Theorem format_e16_lossless (x y : f64) :
  valid x = true -> valid y = true ->
  format_e16 (SFloat x) = format_e16 (SFloat y) -> x = y.
Proof. apply format_e_lossless. Qed.

(** ** A vector file determines the vector *)

Section VectorLossless.



End VectorLossless.


(** ** The full generator after the basic one *)

Section BothGenerators.

Lemma not_in_full_names (p : string) (n1 n2 : nat) :
  existsb (String.eqb p) fixed_names = false -> is_level_name p = false ->
  p ∉ full_names n1 n2.
Proof.
  intros Hfixed Hlevel Hin. apply not_in_by_check in Hfixed.
  unfold full_names, dwt_names, modwt_names in Hin.
  unfold is_level_name in Hlevel. apply orb_false_iff in Hlevel as [Hlevel Ha].
  apply orb_false_iff in Hlevel as [Hm Hd].
  assert (Hfix : forall l, l ⊆ fixed_names -> p ∉ l) by (intros l Hl H; apply Hfixed, Hl, H).
  rewrite !elem_of_app, elem_of_cons in Hin.
  destruct Hin as [H|[[H|H]|[[H|H]|[H|[H|H]]]]].
  - revert H. apply Hfix. unfold fixed_names. intros x Hx. rewrite !elem_of_app. tauto.
  - revert H. apply Hfix. unfold fixed_names, dwt_names. intros x Hx.
    rewrite !elem_of_app. tauto.
  - apply multilevel_is_level in H. congruence.
  - subst p. apply Hfixed. unfold fixed_names. rewrite !elem_of_app, list_elem_of_singleton. tauto.
  - apply modwt_is_level in H as [_ [H|H]]; congruence.
  - revert H. apply Hfix. unfold fixed_names. intros x Hx. rewrite !elem_of_app. tauto.
  - revert H. apply Hfix. unfold fixed_names. intros x Hx. rewrite !elem_of_app. tauto.
  - revert H. apply Hfix. unfold fixed_names. intros x Hx. rewrite !elem_of_app. tauto.
Qed.

Lemma basic_only_checked (p : string) :
  p ∈ basic_only ->
  p ∈ basic_paths /\ existsb (String.eqb p) fixed_names = false /\ is_level_name p = false.
Proof.
  intros Hp.
  assert (Hall : forallb only_basic basic_only = true) by (vm_compute; reflexivity).
  rewrite forallb_forall in Hall. apply list_elem_of_In in Hp. specialize (Hall p Hp).
  unfold only_basic in Hall. apply andb_true_iff in Hall as [Hall Hlevel].
  apply andb_true_iff in Hall as [Hin Hfixed].
  apply negb_true_iff in Hfixed. apply negb_true_iff in Hlevel.
  split; [|split; assumption].
  apply existsb_exists in Hin as (q & Hq & Heq). apply String.eqb_eq in Heq. subst q.
  now apply list_elem_of_In.
Qed.

Lemma basic_script_eq (math_sin : f64 -> f64) (abspath : string -> string) :
  Basic.script math_sin abspath = Basic.main math_sin abspath.
Proof. reflexivity. Qed.

End BothGenerators.

(** X26: thirteen of the twenty files of the basic script
    have names the full script never opens: running the full script after
    the basic one, with any library behaviour, leaves each of them with
    the content the basic script wrote. *)
Theorem full_keeps_basic_files (lib : numlib) (abspath : string -> string)
        (installed : string -> bool) (math_sin : f64 -> f64) (dir : gmap string string) :
  let basic := files (final (run_process (Basic.script math_sin abspath) (initial dir))) in
  let both := files (final (run_process (Full.script lib abspath installed) (initial basic))) in
  length basic_only = 13%nat /\
  forall p, p ∈ basic_only ->
            p ∈ basic_paths /\ is_Some (basic !! p) /\ both !! p = basic !! p.
Proof.
  cbv zeta. split; [reflexivity|]. intros p Hp.
  destruct (basic_only_checked p Hp) as (Hin & Hfixed & Hlevel).
  split; [exact Hin|].
  rewrite !final_run_process.
  destruct (basic_main_run math_sin abspath) as (_ & Hop & _).
  pose proof (confined_run (Basic.main math_sin abspath) dir (confined_basic_main _ _)) as Hb.
  cbv zeta in Hb. destruct Hb as [Hdom _]. rewrite Hop in Hdom.
  change (opened (initial dir) ++ basic_paths) with basic_paths in Hdom.
  split.
  - apply elem_of_dom. rewrite basic_script_eq, Hdom, elem_of_union, elem_of_list_to_set.
    right. exact Hin.
  - set (basic := files (snd (Basic.script math_sin abspath (initial dir)))).
    pose proof (confined_run (Full.script lib abspath installed) basic
                  (confined_full_script _ _ _)) as Hf.
    cbv zeta in Hf. destruct Hf as [_ Hframe]. apply Hframe.
    destruct (traced_run _ _ _ (traced_full_script lib abspath installed))
      as (l & Hl & Hsub & _).
    rewrite Hl. cbn [initial opened app]. intros Hpl.
    apply (not_in_full_names p (n_multi lib) (n_swt lib) Hfixed Hlevel).
    now apply (elem_of_sublist l).
Qed.

(** ** Instances of the statements *)

Lemma save_matrix_rows_witness :
  exists text,
    files (snd (Full.save_matrix [[SInt 1; SInt 2]; [SInt 3; SInt 4]] "m.txt" (Some "M") (initial ∅)))
      !! path_join Full.output_dir "m.txt" = Some text /\
    length (lines text) = 3%nat /\
    map (split_on " ") (drop 1 (lines text)) =
      map (map format_e16) [[SInt 1; SInt 2]; [SInt 3; SInt 4]].
Proof.
  apply (save_matrix_rows [[SInt 1; SInt 2]; [SInt 3; SInt 4]] "m.txt" (Some "M") (initial ∅)).
  - repeat constructor.
  - reflexivity.
  - reflexivity.
  - repeat constructor; discriminate.
Defined.


Lemma haar_manual_even_witness :
  exists approx1 detail1,
    Basic.haar_manual Basic.signal = Ok (approx1, detail1) /\
    length approx1 = 4%nat /\ length detail1 = 4%nat.
Proof.
  destruct (haar_manual_even Basic.signal 4 eq_refl) as (a & d & H & La & Ld & _).
  exists a, d. repeat split; assumption.
Defined.

Lemma haar_manual_odd_witness :
  Basic.haar_manual (map Basic.lit [1; 2; 3]) = Raise (Exception "list index out of range").
Proof. apply (haar_manual_odd (map Basic.lit [1; 2; 3]) 1). reflexivity. Defined.

Lemma haar_manual_constant_witness :
  Basic.haar_manual (repeat (Basic.lit 5) 8) =
  Ok (repeat ((Basic.lit 5 + Basic.lit 5) / Basic.sqrt2)%f64 4, repeat (S754_zero false) 4).
Proof. apply (haar_manual_constant (Basic.lit 5) 4). vm_compute. reflexivity. Defined.

Lemma dwt_stage_bands_witness :
  fst (Full.generate_dwt_reference (sample_lib false) (initial ∅)) = Ok tt /\
  opened (snd (Full.generate_dwt_reference (sample_lib false) (initial ∅))) = dwt_names 4.
Proof.
  destruct (dwt_stage_bands (sample_lib false) (initial ∅) _ _ _ eq_refl eq_refl eq_refl)
    as (Hok & Hop & _).
  split; [exact Hok | exact Hop].
Defined.

Lemma dwt_stage_db4_failure_witness :
  fst (Full.generate_dwt_reference (faulty_lib "dwt_db4" (Exception "Unknown wavelet")) (initial ∅))
    = Raise (Exception "Unknown wavelet") /\
  opened (snd (Full.generate_dwt_reference (faulty_lib "dwt_db4" (Exception "Unknown wavelet"))
                 (initial ∅)))
    = map full_path ["dwt_haar_input.txt"; "dwt_haar_approx.txt"; "dwt_haar_detail.txt"].
Proof.
  destruct (dwt_stage_db4_failure (faulty_lib "dwt_db4" (Exception "Unknown wavelet")) (initial ∅)
              _ (Exception "Unknown wavelet") eq_refl eq_refl) as (Hraise & Hop & _).
  split; [exact Hraise | exact Hop].
Defined.

Lemma modwt_stage_levels_witness :
  fst (Full.generate_modwt_reference (sample_lib false) (initial ∅)) = Ok tt /\
  opened (snd (Full.generate_modwt_reference (sample_lib false) (initial ∅))) = modwt_names 3.
Proof.
  destruct (modwt_stage_levels (sample_lib false) (initial ∅) _ eq_refl) as (Hok & Hop & _).
  split; [exact Hok | exact Hop].
Defined.

Lemma modwt_stage_failure_witness :
  fst (Full.generate_modwt_reference (faulty_lib "swt" (Exception "swt failed")) (initial ∅))
    = Raise (Exception "swt failed") /\
  opened (snd (Full.generate_modwt_reference (faulty_lib "swt" (Exception "swt failed"))
                 (initial ∅))) = [].
Proof.
  destruct (modwt_stage_failure (faulty_lib "swt" (Exception "swt failed")) (initial ∅)
              (Exception "swt failed") eq_refl) as (Hraise & Hop & _).
  split; [exact Hraise | exact Hop].
Defined.

Lemma cwt_stage_failure_witness :
  fst (Full.generate_cwt_reference (faulty_lib "cwt" (Exception "no attribute 'cwt'")) (initial ∅))
    = Raise (Exception "no attribute 'cwt'") /\
  opened (snd (Full.generate_cwt_reference (faulty_lib "cwt" (Exception "no attribute 'cwt'"))
                 (initial ∅))) = [].
Proof.
  destruct (cwt_stage_failure (faulty_lib "cwt" (Exception "no attribute 'cwt'")) (initial ∅)
              _ (Exception "no attribute 'cwt'") eq_refl eq_refl) as (Hraise & Hop & _).
  split; [exact Hraise | exact Hop].
Defined.

Lemma cwt_stage_matrices_witness :
  fst (Full.generate_cwt_reference (sample_lib false) (initial ∅)) = Ok tt /\
  opened (snd (Full.generate_cwt_reference (sample_lib false) (initial ∅))) = cwt_names.
Proof.
  destruct (cwt_stage_matrices (sample_lib false) (initial ∅) _ _ _ eq_refl eq_refl eq_refl)
    as (Hok & Hop & _).
  - apply Forall_forall. intros row Hrow.
    apply list_elem_of_In, in_map_iff in Hrow as (x & <- & _).
    intros E. apply (f_equal (@length complex)) in E. vm_compute in E. discriminate E.
  - split; [exact Hok | exact Hop].
Defined.

Lemma fft_stage_complex_files_witness :
  fst (Full.generate_fft_reference (sample_lib false) (initial ∅)) = Ok tt /\
  opened (snd (Full.generate_fft_reference (sample_lib false) (initial ∅))) = fft_names.
Proof.
  destruct (fft_stage_complex_files (sample_lib false) (initial ∅) _ _ eq_refl eq_refl)
    as (Hok & Hop & _).
  split; [exact Hok | exact Hop].
Defined.

Lemma fft_stage_complex_failure_witness :
  fst (Full.generate_fft_reference (faulty_lib "fft_complex" (Exception "fft failed")) (initial ∅))
    = Raise (Exception "fft failed") /\
  opened (snd (Full.generate_fft_reference (faulty_lib "fft_complex" (Exception "fft failed"))
                 (initial ∅)))
    = map full_path ["fft_sine_input.txt"; "fft_sine_output_real.txt"; "fft_sine_output_imag.txt"].
Proof.
  destruct (fft_stage_complex_failure (faulty_lib "fft_complex" (Exception "fft failed"))
              (initial ∅) _ (Exception "fft failed") eq_refl eq_refl) as (Hraise & Hop & _).
  split; [exact Hraise | exact Hop].
Defined.

Lemma filter_stage_files_witness :
  fst (Full.generate_wavelet_filter_reference (sample_lib false) (initial ∅)) = Ok tt /\
  opened (snd (Full.generate_wavelet_filter_reference (sample_lib false) (initial ∅)))
    = filter_names.
Proof.
  destruct (filter_stage_files (sample_lib false) (initial ∅)) as (Hok & Hop & _).
  - intros name _. eexists. reflexivity.
  - split; [exact Hok | exact Hop].
Defined.

Lemma filter_stage_failure_witness :
  fst (Full.generate_wavelet_filter_reference
         (faulty_lib "Wavelet_db8" (Exception "Unknown wavelet name 'db8'")) (initial ∅))
    = Raise (Exception "Unknown wavelet name 'db8'") /\
  opened (snd (Full.generate_wavelet_filter_reference
                 (faulty_lib "Wavelet_db8" (Exception "Unknown wavelet name 'db8'")) (initial ∅)))
    = flat_map filter_names_of ["haar"; "db2"; "db4"].
Proof.
  destruct (filter_stage_failure (faulty_lib "Wavelet_db8" (Exception "Unknown wavelet name 'db8'"))
              (initial ∅) ["haar"; "db2"; "db4"] ["sym4"; "coif2"] "db8"
              (Exception "Unknown wavelet name 'db8'")) as (Hraise & Hop & _).
  - reflexivity.
  - intros n Hn. eexists.
    repeat (apply elem_of_cons in Hn as [->|Hn]; [reflexivity|]).
    now apply elem_of_nil in Hn.
  - reflexivity.
  - split; [exact Hraise | exact Hop].
Defined.

Lemma edge_fft_failure_aborts_witness :
  fst (Full.edge_case (faulty_lib "fft_real" (Exception "fft failed"))
         ("single", Full.floats [Full.lit 42]) (initial ∅)) = Raise (Exception "fft failed") /\
  exists e', fst (Full.generate_special_cases (faulty_lib "fft_real" (Exception "fft failed"))
                    (initial ∅)) = Raise e'.
Proof.
  destruct (edge_fft_failure_aborts (faulty_lib "fft_real" (Exception "fft failed")) (initial ∅)
              "single" (Full.floats [Full.lit 42]) (Exception "fft failed"))
    as (Hraise & _ & Hpass).
  - apply elem_of_by_In. cbn. tauto.
  - discriminate.
  - reflexivity.
  - split; [exact Hraise | apply Hpass].
Defined.

Lemma basic_summary_count_witness :
  exit_status (run_process (Basic.script sample_sin sample_abspath) (initial ∅)) = 0.
Proof.
  destruct (basic_summary_count sample_sin sample_abspath ∅) as (Hexit & _).
  - vm_compute. reflexivity.
  - exact Hexit.
Defined.

Lemma full_summary_count_witness :
  exit_status (run_process (Full.script (sample_lib false) sample_abspath (fun _ => true))
                 (initial ∅)) = 0.
Proof.
  destruct (full_summary_count (sample_lib false) sample_abspath (fun _ => true) ∅)
    as (Hexit & _).
  - vm_compute. reflexivity.
  - exact Hexit.
Defined.

Lemma exception_is_reported_witness :
  exit_status (run_process (Full.main (faulty_lib "fft_real" (Exception "fft failed"))
                              sample_abspath) (initial ∅)) = 1.
Proof.
  destruct (exception_is_reported (faulty_lib "fft_real" (Exception "fft failed"))
              sample_abspath ∅ "fft failed") as (Hexit & _).
  - vm_compute. reflexivity.
  - exact Hexit.
Defined.

Lemma import_error_is_reported_witness :
  exit_status (run_process (Full.main (faulty_lib "fft_real" (ImportError "No module named 'pocketfft'"))
                              sample_abspath) (initial ∅)) = 1.
Proof.
  destruct (import_error_is_reported
              (faulty_lib "fft_real" (ImportError "No module named 'pocketfft'"))
              sample_abspath ∅ "No module named 'pocketfft'") as (Hexit & _).
  - vm_compute. reflexivity.
  - exact Hexit.
Defined.

Lemma cwt_failure_run_witness :
  let o := run_process
             (Full.main (faulty_lib "cwt" (Exception "module 'scipy.signal' has no attribute 'cwt'"))
                        sample_abspath) (initial ∅) in
  exit_status o = 1 /\
  opened (final o) = fft_names ++ dwt_names 4 ++ modwt_names 3.
Proof.
  destruct (cwt_failure_run
              (faulty_lib "cwt" (Exception "module 'scipy.signal' has no attribute 'cwt'"))
              sample_abspath ∅ _ _ _ _ _ _ _ "module 'scipy.signal' has no attribute 'cwt'"
              eq_refl eq_refl eq_refl eq_refl eq_refl eq_refl eq_refl eq_refl)
    as (Hexit & _ & _ & Hop & _).
  split; [exact Hexit | exact Hop].
Defined.

Lemma format_e16_lossless_witness :
  Float64.of_decimal 1 1 = S754_finite false 7205759403792794 (-56).
Proof.
  apply (format_e16_lossless (Float64.of_decimal 1 1) (S754_finite false 7205759403792794 (-56))).
  - vm_compute. reflexivity.
  - vm_compute. reflexivity.
  - vm_compute. reflexivity.
Defined.


